(** * Beam-training orchestration script [scratch/evaluate_11ay_su_mimo.cc]

    A shallow embedding of the trace callbacks of the SU-MIMO evaluation
    script: the global flags and counters they share, the trace files and
    the console they write to, and the requests they send to the MAC layer.
    The callbacks are state-passing functions over [World]; a run of the
    simulation is a sequence of time-stamped callback invocations. *)

From Stdlib Require Import ZArith QArith Lia Ascii String.
From stdpp Require Import base tactics option list strings gmap pretty.
Local Open Scope Z_scope.

(** ** Fixed-width unsigned integers, with their wrap-around *)

Definition uint8_t (z : Z) : Z := z mod 2 ^ 8.
Definition uint16_t (z : Z) : Z := z mod 2 ^ 16.
Definition uint32_t (z : Z) : Z := z mod 2 ^ 32.

(** ** Types of the simulator library, as the script uses them *)

(** [Time] is a count of nanoseconds ([GetNanoSeconds]). *)
Definition Time := Z.
Definition MicroSeconds (us : Z) : Time := us * 1000.
Definition MilliSeconds (ms : Z) : Time := ms * 1000000.
(** [Seconds (0.6)] *)
Definition Seconds_0_6 : Time := MilliSeconds 600.

(** SNR values are doubles in the script. Only their order matters to the
    callbacks; they are carried here by the rationals. *)
Definition double := Q.
Definition double_lt (x y : double) : bool := negb (Qle_bool y x).

Definition Mac48Address := Z.
Definition AntennaID := Z.
Definition SectorID := Z.
Definition AWV_ID := Z.

Inductive ChannelAccessPeriod :=
| CHANNEL_ACCESS_BTI
| CHANNEL_ACCESS_ABFT
| CHANNEL_ACCESS_ATI
| CHANNEL_ACCESS_BHI
| CHANNEL_ACCESS_DTI.

Definition is_DTI (p : ChannelAccessPeriod) : bool :=
  match p with CHANNEL_ACCESS_DTI => true | _ => false end.

Record SlsCompletionAttrbitutes := {
  peerStation : Mac48Address;
  accessPeriod : ChannelAccessPeriod;
  sectorID : SectorID;
  antennaID : AntennaID
}.

(** A [std::map] is only iterated by the callbacks: it is the list of its
    entries in iteration (key) order. *)
Definition SNR_LIST := list double.
Definition SU_MIMO_SNR_MAP := list ((Z * AntennaID * AntennaID) * SNR_LIST).
Definition MIMO_FEEDBACK_MAP := list ((Z * Z * Z) * double).
Definition MIMO_ANTENNA_COMBINATIONS_LIST := list (list (AntennaID * SectorID)).
Definition Antenna2SectorList := list (AntennaID * list SectorID).
Definition MIMO_SNR_LIST := list (Z * list double).
Definition MIMO_AWV_CONFIGURATION := list ((AntennaID * SectorID) * AWV_ID).
Definition MEASUREMENT_AWV_IDs := (Z * list (Z * Z))%type.
Definition SNR_MEASUREMENT_AWV_IDs := (double * MEASUREMENT_AWV_IDs)%type.

(** A MAC entity, seen through the getters the callbacks call on it. The
    station-only getters ([IsAssociated], [GetBssid]) and the codebook
    getters reached through [GetCodebook ()] are fields of the same record. *)
Record DmgWifiMac := {
  GetAddress : Mac48Address;
  GetTypeOfStation : Z;
  IsAssociated : bool;
  GetBssid : Mac48Address;
  GetTotalAntennaIdList : list AntennaID;
  FindKBestCombinations :
    Z -> Z -> Z -> MIMO_FEEDBACK_MAP -> MIMO_ANTENNA_COMBINATIONS_LIST;
  GetMimoConfigFromRxAwvId : list (Z * Z) -> Mac48Address -> MIMO_AWV_CONFIGURATION;
  GetMimoConfigFromTxAwvId : Z -> Mac48Address -> MIMO_AWV_CONFIGURATION
}.

Record SLS_PARAMETERS := {
  srcNodeID : Z;
  dstNodeID : Z;
  wifiMac : DmgWifiMac
}.

Record MIMO_PARAMETERS := {
  mimo_srcNodeID : Z;
  mimo_dstNodeID : Z;
  srcWifiMac : DmgWifiMac;
  dstWifiMac : DmgWifiMac
}.

(** What a callback reads from the simulator when it runs. *)
Record Simulator := {
  Now : Time;
  GetCurrentTraceIndex : Z;
  apNodeId : Z
}.

(** ** Output streams *)

(** One [<<] insertion. [Db r] is the insertion of [RatioToDb (r)], [Secs t]
    of [Simulator::Now ().GetSeconds ()], [Prec1 t back] of
    [to_string_with_precision] at one digit (of the time less 0.1 s when
    [back]), [Endl] of [std::endl]. *)
Inductive tok :=
| Lit (s : string)
| Num (n : Z)
| Dbl (d : double)
| Db (ratio : double)
| Addr (a : Mac48Address)
| Secs (t : Time)
| Prec1 (t : Time) (back : bool)
| Endl.

Definition line := list tok.

Definition is_Endl (t : tok) : bool :=
  match t with Endl => true | _ => false end.

(** The completed lines of a stream: the runs of insertions closed by
    [std::endl]. *)
Fixpoint lines_from (cur : line) (ts : list tok) : list line :=
  match ts with
  | [] => []
  | t :: ts' =>
      if is_Endl t then cur :: lines_from [] ts'
      else lines_from (cur ++ [t]) ts'
  end.

Definition lines_of (ts : list tok) : list line := lines_from [] ts.

(** The text after the last comma of a literal, when it has a comma. *)
Fixpoint after_last_comma (s : string) : option string :=
  match s with
  | EmptyString => None
  | String c s' =>
      match after_last_comma s' with
      | Some r => Some r
      | None => if Ascii.eqb c ","%char then Some s' else None
      end
  end.

Definition last_column_step (acc : line) (t : tok) : line :=
  match t with
  | Lit s =>
      match after_last_comma s with
      | Some EmptyString => []
      | Some r => [Lit r]
      | None => acc ++ [Lit s]
      end
  | _ => acc ++ [t]
  end.

(** The trailing column of a comma-separated line: what was inserted after
    its last comma. *)
Definition last_column (l : line) : line := fold_left last_column_step l [].

(** ** Requests sent to the MAC layer and to the scheduler *)

Inductive Call :=
| Perform_TXSS_TXOP (mac peer : Mac48Address)
| Schedule_StartSuMimoBeamforming (delay : Time) (mac peer : Mac48Address)
    (isInitiator : bool) (antennas : list AntennaID) (useAwvs : bool)
| Call_FindKBestCombinations (mac : Mac48Address) (k nTx nRx : Z)
    (feedbackMap : MIMO_FEEDBACK_MAP)
| AppendAwvsForSuMimoBFT_27 (mac : Mac48Address)
| StartSuMimoMimoPhase (mac from : Mac48Address)
    (candidates : MIMO_ANTENNA_COMBINATIONS_LIST) (txCombinationsRequested : Z)
    (useAwvs : bool)
| PrintSnrTable (mac : Mac48Address)
| Schedule_CalculateThroughput (delay : Time) (stream : string).

Definition is_StartSuMimoBeamforming (c : Call) : bool :=
  match c with Schedule_StartSuMimoBeamforming _ _ _ _ _ _ => true | _ => false end.

Definition is_Perform_TXSS_TXOP (c : Call) : bool :=
  match c with Perform_TXSS_TXOP _ _ => true | _ => false end.

(** ** Global state of the script *)

(** Globals set from the command line and never written afterwards. *)
Record Options := {
  csv : bool;
  kBestCombinations : Z;
  numberOfTxCombinationsRequested : Z;
  useAwvs : bool;
  tracesFolder : string
}.

Record Statistics := {
  macTxDataFailed : Z;
  transmittedPackets : Z;
  droppedPackets : Z;
  receivedPackets : Z;
  totalRx : Z;
  throughput : double
}.

Record World := {
  options : Options;
  beamformedLinks : Z;
  firstDti : bool;
  suMimoCompleted : bool;
  statistics : Statistics;
  files : gmap string (list tok);
  cout : list tok;
  calls : list Call
}.

Definition set_beamformedLinks (v : Z) (w : World) : World :=
  {| options := options w; beamformedLinks := v; firstDti := firstDti w;
     suMimoCompleted := suMimoCompleted w; statistics := statistics w;
     files := files w; cout := cout w; calls := calls w |}.

Definition set_firstDti (v : bool) (w : World) : World :=
  {| options := options w; beamformedLinks := beamformedLinks w; firstDti := v;
     suMimoCompleted := suMimoCompleted w; statistics := statistics w;
     files := files w; cout := cout w; calls := calls w |}.

Definition set_suMimoCompleted (v : bool) (w : World) : World :=
  {| options := options w; beamformedLinks := beamformedLinks w;
     firstDti := firstDti w; suMimoCompleted := v; statistics := statistics w;
     files := files w; cout := cout w; calls := calls w |}.

Definition set_statistics (v : Statistics) (w : World) : World :=
  {| options := options w; beamformedLinks := beamformedLinks w;
     firstDti := firstDti w; suMimoCompleted := suMimoCompleted w;
     statistics := v; files := files w; cout := cout w; calls := calls w |}.

Definition set_files (v : gmap string (list tok)) (w : World) : World :=
  {| options := options w; beamformedLinks := beamformedLinks w;
     firstDti := firstDti w; suMimoCompleted := suMimoCompleted w;
     statistics := statistics w; files := v; cout := cout w; calls := calls w |}.

Definition set_cout (v : list tok) (w : World) : World :=
  {| options := options w; beamformedLinks := beamformedLinks w;
     firstDti := firstDti w; suMimoCompleted := suMimoCompleted w;
     statistics := statistics w; files := files w; cout := v; calls := calls w |}.

Definition set_calls (v : list Call) (w : World) : World :=
  {| options := options w; beamformedLinks := beamformedLinks w;
     firstDti := firstDti w; suMimoCompleted := suMimoCompleted w;
     statistics := statistics w; files := files w; cout := cout w; calls := v |}.

(** The content of a trace file, empty when it does not exist. *)
Definition file_content (name : string) (w : World) : list tok :=
  default [] (files w !! name).

(** ** Callbacks as computations over the world *)

(** How a callback ends: normally, by an uncaught [std::out_of_range] (which
    ends the program), with undefined behaviour, or never. *)
Inductive outcome (A : Type) : Type :=
| Done (a : A)
| Throws_out_of_range
| Undefined
| Diverges.
Arguments Done {A} a.
Arguments Throws_out_of_range {A}.
Arguments Undefined {A}.
Arguments Diverges {A}.

Definition M (A : Type) : Type := World -> World * outcome A.

Definition ret {A} (a : A) : M A := fun w => (w, Done a).

Definition bind {A B} (c : M A) (k : A -> M B) : M B :=
  fun w =>
    match c w with
    | (w', Done a) => k a w'
    | (w', Throws_out_of_range) => (w', Throws_out_of_range)
    | (w', Undefined) => (w', Undefined)
    | (w', Diverges) => (w', Diverges)
    end.

Notation "x <- c1 ;; c2" := (bind c1 (fun x => c2))
  (at level 100, c1 at next level, right associativity).
Notation "c1 ;; c2" := (bind c1 (fun _ => c2))
  (at level 100, right associativity).

Definition read {A} (f : World -> A) : M A := fun w => (w, Done (f w)).
Definition modify (f : World -> World) : M unit := fun w => (f w, Done tt).
Definition throw_out_of_range {A} : M A := fun w => (w, Throws_out_of_range).
Definition undefined {A} : M A := fun w => (w, Undefined).
Definition diverge {A} : M A := fun w => (w, Diverges).

Definition when (b : bool) (c : M unit) : M unit := if b then c else ret tt.

(** [stream << t1 << t2 ...] on a file stream, and on [std::cout]. A stream
    is named by the file it was opened on; insertions go to the end of that
    file. *)
Definition emit (stream : string) (ts : list tok) (w : World) : World :=
  set_files (alter (fun content => content ++ ts) stream (files w)) w.

Definition write (stream : string) (ts : list tok) : M unit :=
  modify (emit stream ts).

Definition print (ts : list tok) : M unit :=
  modify (fun w => set_cout (cout w ++ ts) w).

Definition call (c : Call) : M unit :=
  modify (fun w => set_calls (calls w ++ [c]) w).

(** [std::ios] open modes of an output file stream: [ios_out] truncates an
    existing file, [ios_app] keeps it and writes at its end. *)
Inductive openmode := ios_out | ios_app.

(** [AsciiTraceHelper::CreateFileStream (filename, filemode)], of the trace
    helper of the simulator library: opens the file and returns the stream.
    The callbacks leave [filemode] out; the declaration of the helper then
    supplies its default, [std::ios::out]. Failing to open the file aborts
    the program and is left out. *)
Definition CreateFileStream (filename : string) (filemode : openmode) : M string :=
  fun w =>
    match filemode with
    | ios_out => (set_files (<[filename := []]> (files w)) w, Done filename)
    | ios_app =>
        (set_files (<[filename := file_content filename w]> (files w)) w,
         Done filename)
    end.

(** [v.at (i)] *)
Definition at_ {A} (v : list A) (i : Z) : M A :=
  match (if 0 <=? i then v !! Z.to_nat i else None) with
  | Some x => ret x
  | None => throw_out_of_range
  end.

(** Unsigned division; dividing by zero is undefined. *)
Definition udiv (a b : Z) : M Z :=
  if b =? 0 then undefined else ret (a / b).

(** Range-for and iterator loops over a container, with the locals the body
    updates. *)
Fixpoint foreach {A St} (l : list A) (body : A -> St -> M St) (s : St) : M St :=
  match l with
  | [] => ret s
  | x :: l' => s' <- body x s ;; foreach l' body s'
  end.

(** [for (uintN_t i = start; cond (i); i++) body]: the counter wraps at its
    width. The condition reads only the counter, so a loop that is still
    running after it has tried every value of the counter runs for ever. *)
Fixpoint for_from {St} (wrap : Z -> Z) (fuel : nat) (i : Z) (cond : Z -> bool)
    (body : Z -> St -> M St) (s : St) : M St :=
  match fuel with
  | O => diverge
  | S fuel' =>
      if cond i
      then s' <- body i s ;; for_from wrap fuel' (wrap (i + 1)) cond body s'
      else ret s
  end.

Definition for_uint8_t {St} (start : Z) (cond : Z -> bool)
    (body : Z -> St -> M St) (s : St) : M St :=
  for_from uint8_t 257 start cond body s.

Definition for_uint16_t {St} (start : Z) (cond : Z -> bool)
    (body : Z -> St -> M St) (s : St) : M St :=
  for_from uint16_t (Z.to_nat 65537) start cond body s.

(** ** [std::priority_queue] of (SNR, AWV ids) pairs *)

(** Modelled from the spec: the declaration of the queue type is in the MAC
    header, outside this file. The spec describes the queue as a max-heap
    keyed by the minimum stream SNR: a [std::priority_queue] of (SNR, AWV
    ids) pairs with its default comparison, [operator<] of the pair, which is
    lexicographic on the pair, on the AWV ids, and on the entries of the map
    of receive ids. *)
Definition pair_lt (a b : Z * Z) : bool :=
  (a.1 <? b.1) || (negb (b.1 <? a.1) && (a.2 <? b.2)).

Fixpoint map_lt (a b : list (Z * Z)) : bool :=
  match a, b with
  | _, [] => false
  | [], _ :: _ => true
  | x :: a', y :: b' => pair_lt x y || (negb (pair_lt y x) && map_lt a' b')
  end.

Definition awv_ids_lt (a b : MEASUREMENT_AWV_IDs) : bool :=
  (a.1 <? b.1) || (negb (b.1 <? a.1) && map_lt a.2 b.2).

Definition elt_lt (a b : SNR_MEASUREMENT_AWV_IDs) : bool :=
  double_lt a.1 b.1 || (negb (double_lt b.1 a.1) && awv_ids_lt a.2 b.2).

(** The queue is the collection of its elements; [top] is a greatest one
    and [pop] removes it. *)
Definition SNR_MEASUREMENT_AWV_IDs_QUEUE := list SNR_MEASUREMENT_AWV_IDs.

Fixpoint extract_max (x : SNR_MEASUREMENT_AWV_IDs) (l : list SNR_MEASUREMENT_AWV_IDs)
    : SNR_MEASUREMENT_AWV_IDs * list SNR_MEASUREMENT_AWV_IDs :=
  match l with
  | [] => (x, [])
  | y :: l' =>
      if elt_lt x y
      then let '(m, r) := extract_max y l' in (m, x :: r)
      else let '(m, r) := extract_max x l' in (m, y :: r)
  end.

Definition pq_empty (q : SNR_MEASUREMENT_AWV_IDs_QUEUE) : bool :=
  match q with [] => true | _ => false end.

Definition pq_top (q : SNR_MEASUREMENT_AWV_IDs_QUEUE) : M SNR_MEASUREMENT_AWV_IDs :=
  match q with
  | [] => undefined
  | x :: l => ret (extract_max x l).1
  end.

Definition pq_pop (q : SNR_MEASUREMENT_AWV_IDs_QUEUE) : SNR_MEASUREMENT_AWV_IDs_QUEUE :=
  match q with
  | [] => []
  | x :: l => (extract_max x l).2
  end.

(** [while (!minSnr.empty ()) body]: every turn of the body pops one
    element, so the size of the queue bounds the turns. *)
Fixpoint while_not_empty (fuel : nat) (minSnr : SNR_MEASUREMENT_AWV_IDs_QUEUE)
    (body : SNR_MEASUREMENT_AWV_IDs_QUEUE -> M SNR_MEASUREMENT_AWV_IDs_QUEUE)
    : M unit :=
  match fuel with
  | O => diverge
  | S fuel' =>
      if pq_empty minSnr then ret tt
      else minSnr' <- body minSnr ;; while_not_empty fuel' minSnr' body
  end.

(** ** The callbacks *)

Definition uint64_t (z : Z) : Z := z mod 2 ^ 64.

Definition get0 (k : Z * Z * Z) : Z := k.1.1.
Definition get1 (k : Z * Z * Z) : Z := k.1.2.
Definition get2 (k : Z * Z * Z) : Z := k.2.

(** [m.begin ()->second]: the map must not be empty. *)
Definition begin_second {K V} (m : list (K * V)) : M V :=
  match m with
  | [] => undefined
  | e :: _ => ret e.2
  end.

(** [CalculateThroughput]. [sample] is what [CalculateSingleStreamThroughput]
    returns and leaves in [totalRx] and [throughput]. *)
Definition CalculateThroughput (sim : Simulator) (throughputOutput : string)
    (sample : double * Z * double) : M unit :=
  let thr := sample.1.1 in
  modify (fun w => set_statistics
    {| macTxDataFailed := macTxDataFailed (statistics w);
       transmittedPackets := transmittedPackets (statistics w);
       droppedPackets := droppedPackets (statistics w);
       receivedPackets := receivedPackets (statistics w);
       totalRx := sample.1.2; throughput := sample.2 |} w) ;;
  csv_ <- read (fun w => csv (options w)) ;;
  (if negb csv_
   then print [Prec1 (Now sim) true; Lit " - "; Prec1 (Now sim) false; Dbl thr;
               Num (GetCurrentTraceIndex sim); Endl]
   else print [Prec1 (Now sim) false; Lit ","; Dbl thr; Endl]) ;;
  write throughputOutput [Prec1 (Now sim) false] ;;
  write throughputOutput [Lit ","; Dbl thr; Endl] ;;
  call (Schedule_CalculateThroughput (MilliSeconds 100) throughputOutput).

(** The cells of the row [SLSCompleted] inserts, before its [std::endl]. *)
Definition sls_row (sim : Simulator) (parameters : SLS_PARAMETERS)
    (attributes : SlsCompletionAttrbitutes) : line :=
  [Num (uint32_t (srcNodeID parameters + 1)); Lit ",";
   Num (uint32_t (dstNodeID parameters + 1)); Lit ",";
   Num (GetCurrentTraceIndex sim); Lit ",";
   Num (uint16_t (sectorID attributes)); Lit ",";
   Num (uint16_t (antennaID attributes)); Lit ",";
   Num (GetTypeOfStation (wifiMac parameters)); Lit ",";
   Num (uint32_t (apNodeId sim + 1)); Lit ",";
   Num (Now sim)].

Definition SLSCompleted (sim : Simulator) (stream : string)
    (parameters : SLS_PARAMETERS) (attributes : SlsCompletionAttrbitutes) : M unit :=
  write stream (sls_row sim parameters attributes ++ [Endl]) ;;
  csv_ <- read (fun w => csv (options w)) ;;
  when (negb csv_)
    (print [Lit "EDMG STA "; Addr (GetAddress (wifiMac parameters));
            Lit " completed SLS phase with EDMG STA ";
            Addr (peerStation attributes); Endl] ;;
     print [Lit "Best Tx Antenna Configuration: AntennaID=";
            Num (uint16_t (antennaID attributes));
            Lit ", SectorID="; Num (uint16_t (sectorID attributes)); Endl] ;;
     call (PrintSnrTable (GetAddress (wifiMac parameters))) ;;
     when (is_DTI (accessPeriod attributes))
       (modify (fun w => set_beamformedLinks (uint8_t (beamformedLinks w + 1)) w))).

Inductive WifiMacType := WIFI_MAC_QOSDATA | WIFI_MAC_OTHER.

Definition MacRxOk (sim : Simulator) (stream : string) (macType : WifiMacType)
    (address : Mac48Address) (snrValue : double) : M unit :=
  match macType with
  | WIFI_MAC_QOSDATA => write stream [Num (Now sim); Lit ","; Dbl snrValue; Endl]
  | WIFI_MAC_OTHER => ret tt
  end.

Definition StationAssoicated (staWifiMac : DmgWifiMac) (address : Mac48Address)
    (aid : Z) : M unit :=
  csv_ <- read (fun w => csv (options w)) ;;
  when (negb csv_)
    (print [Lit "EDMG STA "; Addr (GetAddress staWifiMac);
            Lit " associated with EDMG PCP/AP "; Addr address;
            Lit ", Association ID (AID) = "; Num aid; Endl]).

Definition MacTxDataFailed : M unit :=
  modify (fun w => set_statistics
    {| macTxDataFailed := uint64_t (macTxDataFailed (statistics w) + 1);
       transmittedPackets := transmittedPackets (statistics w);
       droppedPackets := droppedPackets (statistics w);
       receivedPackets := receivedPackets (statistics w);
       totalRx := totalRx (statistics w); throughput := throughput (statistics w) |} w).

Definition PhyTxEnd : M unit :=
  modify (fun w => set_statistics
    {| macTxDataFailed := macTxDataFailed (statistics w);
       transmittedPackets := uint64_t (transmittedPackets (statistics w) + 1);
       droppedPackets := droppedPackets (statistics w);
       receivedPackets := receivedPackets (statistics w);
       totalRx := totalRx (statistics w); throughput := throughput (statistics w) |} w).

Definition PhyRxDrop : M unit :=
  modify (fun w => set_statistics
    {| macTxDataFailed := macTxDataFailed (statistics w);
       transmittedPackets := transmittedPackets (statistics w);
       droppedPackets := uint64_t (droppedPackets (statistics w) + 1);
       receivedPackets := receivedPackets (statistics w);
       totalRx := totalRx (statistics w); throughput := throughput (statistics w) |} w).

Definition PhyRxEnd : M unit :=
  modify (fun w => set_statistics
    {| macTxDataFailed := macTxDataFailed (statistics w);
       transmittedPackets := transmittedPackets (statistics w);
       droppedPackets := droppedPackets (statistics w);
       receivedPackets := uint64_t (receivedPackets (statistics w) + 1);
       totalRx := totalRx (statistics w); throughput := throughput (statistics w) |} w).

Definition siso_header : list tok :=
  [Lit "SRC_ID,DST_ID,TRACE_IDX,RX_ANTENNA_ID,TX_ANTENNA_ID,TX_SECTOR_ID,SNR,Timestamp";
   Endl].

Definition siso_measurements_file (folder : string) (parameters : SLS_PARAMETERS) : string :=
  folder +:+ "SuMimoSisoPhaseMeasurements_"
  +:+ pretty (uint32_t (srcNodeID parameters + 1)) +:+ ".csv".

(** The loops of [SuMimoSisoPhaseMeasurements] over the map and over the SNR
    list of each entry: one row for each SNR value. The position of a value
    in its list, [std::distance (start, snrIt)], is paired with it. *)
Definition siso_measurement_rows (sim : Simulator) (parameters : SLS_PARAMETERS)
    (outputSisoPhase : string) (measurementsMap : SU_MIMO_SNR_MAP) (edmgTrnN : Z)
    : M unit :=
  foreach measurementsMap (fun it _ =>
    foreach (zip (seqZ 0 (Z.of_nat (length it.2))) it.2) (fun snrIt _ =>
      let awv := uint32_t (snrIt.1 + 1) in
      sector <- udiv awv edmgTrnN ;;
      write outputSisoPhase
        [Num (uint32_t (srcNodeID parameters + 1)); Lit ",";
         Num (uint32_t (dstNodeID parameters + 1)); Lit ",";
         Num (GetCurrentTraceIndex sim); Lit ",";
         Num (uint16_t (get1 it.1)); Lit ","; Num (uint16_t (get2 it.1)); Lit ",";
         Num (uint16_t sector); Lit ","; Db snrIt.2; Lit ",";
         Num (Now sim); Endl]) tt) tt.

Definition SuMimoSisoPhaseMeasurements (sim : Simulator) (parameters : SLS_PARAMETERS)
    (from : Mac48Address) (measurementsMap : SU_MIMO_SNR_MAP) (edmgTrnN : Z) : M unit :=
  print [Lit "EDMG STA "; Addr (GetAddress (wifiMac parameters));
         Lit " reporting SISO phase measurements of SU-MIMO BFT with EDMG STA ";
         Addr from; Lit " at "; Secs (Now sim); Endl] ;;
  folder <- read (fun w => tracesFolder (options w)) ;;
  outputSisoPhase <- CreateFileStream (siso_measurements_file folder parameters) ios_out ;;
  write outputSisoPhase siso_header ;;
  siso_measurement_rows sim parameters outputSisoPhase measurementsMap edmgTrnN.

Definition siso_results_file (folder : string) (parameters : SLS_PARAMETERS) : string :=
  folder +:+ "SuMimoSisoPhaseResults_"
  +:+ pretty (uint32_t (srcNodeID parameters + 1)) +:+ ".csv".

(** The loop of [SuMimoSisoPhaseComplete] over the feedback map. *)
Definition siso_feedback_rows (sim : Simulator) (parameters : SLS_PARAMETERS)
    (outputSisoPhase : string) (feedbackMap : MIMO_FEEDBACK_MAP) : M unit :=
  foreach feedbackMap (fun it _ =>
    write outputSisoPhase
      [Num (uint32_t (srcNodeID parameters + 1)); Lit ",";
       Num (uint32_t (dstNodeID parameters + 1)); Lit ",";
       Num (GetCurrentTraceIndex sim); Lit ",";
       Num (uint16_t (get1 it.1)); Lit ","; Num (uint16_t (get0 it.1)); Lit ",";
       Num (uint16_t (get2 it.1)); Lit ","; Db it.2; Lit ",";
       Num (Now sim); Endl]) tt.

Definition SuMimoSisoPhaseComplete (sim : Simulator) (parameters : SLS_PARAMETERS)
    (from : Mac48Address) (feedbackMap : MIMO_FEEDBACK_MAP)
    (numberOfTxAntennas numberOfRxAntennas : Z) : M unit :=
  print [Lit "EDMG STA "; Addr (GetAddress (wifiMac parameters));
         Lit " finished SISO phase of SU-MIMO BFT with EDMG STA ";
         Addr from; Lit " at "; Secs (Now sim); Endl] ;;
  folder <- read (fun w => tracesFolder (options w)) ;;
  outputSisoPhase <- CreateFileStream (siso_results_file folder parameters) ios_out ;;
  write outputSisoPhase siso_header ;;
  siso_feedback_rows sim parameters outputSisoPhase feedbackMap ;;
  k <- read (fun w => kBestCombinations (options w)) ;;
  call (Call_FindKBestCombinations (GetAddress (wifiMac parameters)) k
          numberOfTxAntennas numberOfRxAntennas feedbackMap) ;;
  let mimoCandidates :=
    FindKBestCombinations (wifiMac parameters) k numberOfTxAntennas
      numberOfRxAntennas feedbackMap in
  awvs <- read (fun w => useAwvs (options w)) ;;
  when awvs (call (AppendAwvsForSuMimoBFT_27 (GetAddress (wifiMac parameters)))) ;;
  requested <- read (fun w => numberOfTxCombinationsRequested (options w)) ;;
  call (StartSuMimoMimoPhase (GetAddress (wifiMac parameters)) from mimoCandidates
          requested awvs).

Definition mimo_tx_candidates_file (folder : string) (parameters : SLS_PARAMETERS) : string :=
  folder +:+ "SuMimoMimoTxCandidates_"
  +:+ pretty (uint32_t (srcNodeID parameters + 1)) +:+ ".csv".

Definition mimo_rx_candidates_file (folder : string) (parameters : SLS_PARAMETERS) : string :=
  folder +:+ "SuMimoMimoRxCandidates_"
  +:+ pretty (uint32_t (srcNodeID parameters + 1)) +:+ ".csv".

(** The part of [SuMimoMimoCandidatesSelected] that fills one candidates
    table; the callback runs it for the Tx and then for the Rx candidates,
    both times with the number of antennas of the Tx map. *)
Definition candidates_table (sim : Simulator) (parameters : SLS_PARAMETERS)
    (stream : string) (numberOfAntennas : Z) (candidates : Antenna2SectorList) : M unit :=
  write stream [Lit "SRC_ID,DST_ID,TRACE_IDX,"] ;;
  for_uint8_t 1 (fun i => i <=? numberOfAntennas) (fun i _ =>
    write stream [Lit "ANTENNA_ID"; Num (uint16_t i);
                  Lit ",SECTOR_ID"; Num (uint16_t i); Lit ","]) tt ;;
  write stream [Endl] ;;
  first <- begin_second candidates ;;
  let numberOfCandidates := uint16_t (Z.of_nat (length first)) in
  for_uint16_t 0 (fun i => i <? numberOfCandidates) (fun i _ =>
    write stream [Num (uint32_t (srcNodeID parameters + 1)); Lit ",";
                  Num (uint32_t (dstNodeID parameters + 1)); Lit ",";
                  Num (GetCurrentTraceIndex sim); Lit ","] ;;
    foreach candidates (fun it _ =>
      sector <- at_ it.2 i ;;
      write stream [Num (uint16_t it.1); Lit ","; Num (uint16_t sector); Lit ","]) tt ;;
    write stream [Endl]) tt.

Definition SuMimoMimoCandidatesSelected (sim : Simulator) (parameters : SLS_PARAMETERS)
    (from : Mac48Address) (txCandidates rxCandidates : Antenna2SectorList) : M unit :=
  print [Lit "EDMG STA "; Addr (GetAddress (wifiMac parameters));
         Lit " reporting MIMO candidates Selection for SU-MIMO BFT with EDMG STA ";
         Addr from; Lit " at "; Secs (Now sim); Endl] ;;
  folder <- read (fun w => tracesFolder (options w)) ;;
  outputMimoTxCandidates <-
    CreateFileStream (mimo_tx_candidates_file folder parameters) ios_out ;;
  let numberOfAntennas := uint8_t (Z.of_nat (length txCandidates)) in
  candidates_table sim parameters outputMimoTxCandidates numberOfAntennas txCandidates ;;
  outputMimoRxCandidates <-
    CreateFileStream (mimo_rx_candidates_file folder parameters) ios_out ;;
  candidates_table sim parameters outputMimoRxCandidates numberOfAntennas rxCandidates.

Definition mimo_measurements_file (folder : string) (parameters : MIMO_PARAMETERS) : string :=
  folder +:+ "SuMimoMimoPhaseMeasurements_"
  +:+ pretty (uint32_t (mimo_srcNodeID parameters + 1)) +:+ ".csv".

(** The loops that insert the header cells of the MIMO measurements table
    before its last column. *)
Definition mimo_header_cells (stream : string) (nTxAntennas nRxAntennas : Z) : M unit :=
  write stream [Lit "SRC_ID,DST_ID,TRACE_IDX,"] ;;
  for_uint8_t 1 (fun i => i <=? nTxAntennas) (fun i _ =>
    write stream [Lit "TX_ANTENNA_ID"; Num (uint16_t i);
                  Lit ",TX_SECTOR_ID"; Num (uint16_t i);
                  Lit ",TX_AWV_ID"; Num (uint16_t i); Lit ","]) tt ;;
  for_uint8_t 1 (fun i => i <=? nRxAntennas) (fun i _ =>
    write stream [Lit "RX_ANTENNA_ID"; Num (uint16_t i);
                  Lit ",RX_SECTOR_ID"; Num (uint16_t i);
                  Lit ",RX_AWV_ID"; Num (uint16_t i); Lit ","]) tt ;;
  for_uint8_t 0 (fun i => i <? nRxAntennas * nTxAntennas) (fun _ _ =>
    write stream [Lit "SNR,"]) tt.

(** What one turn of the draining loop inserts before the minimum stream
    SNR: the identifiers, the Tx and Rx configurations and the SNR matrix. *)
Definition mimo_row_cells (sim : Simulator) (parameters : MIMO_PARAMETERS)
    (from : Mac48Address) (mimoMeasurements : MIMO_SNR_LIST)
    (nTxAntennas nRxAntennas rxCombinationsTested : Z) (stream : string)
    (awvId : MEASUREMENT_AWV_IDs) : M unit :=
  let rxCombination :=
    GetMimoConfigFromRxAwvId (srcWifiMac parameters) awvId.2 from in
  let txCombination :=
    GetMimoConfigFromTxAwvId (dstWifiMac parameters) awvId.1
      (GetAddress (srcWifiMac parameters)) in
  let txId := uint16_t awvId.1 in
  measurements <- foreach awvId.2 (fun rxId acc =>
    m <- at_ mimoMeasurements ((txId - 1) * rxCombinationsTested + rxId.2 - 1) ;;
    ret (acc ++ [m])) [] ;;
  write stream [Num (uint32_t (mimo_srcNodeID parameters + 1)); Lit ",";
                Num (uint32_t (mimo_dstNodeID parameters + 1)); Lit ",";
                Num (GetCurrentTraceIndex sim); Lit ","] ;;
  for_uint8_t 0 (fun i => i <? nTxAntennas) (fun i _ =>
    c <- at_ txCombination i ;;
    write stream [Num (uint16_t c.1.1); Lit ","; Num (uint16_t c.1.2); Lit ",";
                  Num (uint16_t c.2); Lit ","]) tt ;;
  for_uint8_t 0 (fun i => i <? nRxAntennas) (fun i _ =>
    c <- at_ rxCombination i ;;
    write stream [Num (uint16_t c.1.1); Lit ","; Num (uint16_t c.1.2); Lit ",";
                  Num (uint16_t c.2); Lit ","]) tt ;;
  for_uint8_t 0 (fun i => i <? nTxAntennas) (fun i snrIndex =>
    for_uint8_t 0 (fun j => j <? nRxAntennas) (fun j snrIndex =>
      m <- at_ measurements j ;;
      snr <- at_ m.2 snrIndex ;;
      write stream [Db snr; Lit ","] ;;
      ret (uint8_t (snrIndex + 1))) snrIndex) 0 ;;
  ret tt.

(** One turn of the draining loop: the row of the top of the queue, closed
    by its minimum stream SNR, and the pop. *)
Definition mimo_row (sim : Simulator) (parameters : MIMO_PARAMETERS)
    (from : Mac48Address) (mimoMeasurements : MIMO_SNR_LIST)
    (nTxAntennas nRxAntennas rxCombinationsTested : Z) (stream : string)
    (minSnr : SNR_MEASUREMENT_AWV_IDs_QUEUE) : M SNR_MEASUREMENT_AWV_IDs_QUEUE :=
  top <- pq_top minSnr ;;
  mimo_row_cells sim parameters from mimoMeasurements nTxAntennas nRxAntennas
    rxCombinationsTested stream top.2 ;;
  top' <- pq_top minSnr ;;
  write stream [Db top'.1; Endl] ;;
  ret (pq_pop minSnr).

Definition SuMimoMimoPhaseMeasurements (sim : Simulator) (parameters : MIMO_PARAMETERS)
    (from : Mac48Address) (mimoMeasurements : MIMO_SNR_LIST)
    (minSnr : SNR_MEASUREMENT_AWV_IDs_QUEUE) (differentRxConfigs : bool)
    (nTxAntennas nRxAntennas rxCombinationsTested : Z) : M unit :=
  print [Lit "EDMG STA "; Addr (GetAddress (srcWifiMac parameters));
         Lit " reporting MIMO phase measurements for SU-MIMO BFT with EDMG STA ";
         Addr from; Lit " at "; Secs (Now sim); Endl] ;;
  folder <- read (fun w => tracesFolder (options w)) ;;
  outputMimoPhase <- CreateFileStream (mimo_measurements_file folder parameters) ios_out ;;
  mimo_header_cells outputMimoPhase nTxAntennas nRxAntennas ;;
  write outputMimoPhase [Lit "min_Stream_SNR"; Endl] ;;
  while_not_empty (S (length minSnr)) minSnr
    (mimo_row sim parameters from mimoMeasurements nTxAntennas nRxAntennas
       rxCombinationsTested outputMimoPhase).

(** The order in which the draining loop meets the elements of the queue. *)
Fixpoint drain (fuel : nat) (q : SNR_MEASUREMENT_AWV_IDs_QUEUE)
    : list SNR_MEASUREMENT_AWV_IDs :=
  match fuel with
  | O => []
  | S fuel' =>
      match q with
      | [] => []
      | x :: l => (extract_max x l).1 :: drain fuel' (extract_max x l).2
      end
  end.

Definition drained_keys (q : SNR_MEASUREMENT_AWV_IDs_QUEUE) : list double :=
  map fst (drain (length q) q).

(** A sequence of SNR values that never increases. *)
Definition non_increasing (l : list double) : Prop :=
  forall i j x y, (i <= j)%nat -> l !! i = Some x -> l !! j = Some y -> (y <= x)%Q.

Definition mimo_complete_message (sim : Simulator) (parameters : SLS_PARAMETERS)
    (from : Mac48Address) : list tok :=
  [Lit "EDMG STA "; Addr (GetAddress (wifiMac parameters));
   Lit " finished MIMO phase of SU-MIMO BFT with EDMG STA ";
   Addr from; Lit " at "; Secs (Now sim); Endl].

Definition SuMimoMimoPhaseComplete (sim : Simulator) (parameters : SLS_PARAMETERS)
    (from : Mac48Address) : M unit :=
  print (mimo_complete_message sim parameters from) ;;
  modify (set_suMimoCompleted true).

Definition DataTransmissionIntervalStarted (sim : Simulator) (wifiMac : DmgWifiMac)
    (address : Mac48Address) (dtiDuration : Time) : M unit :=
  first <- read firstDti ;;
  when (IsAssociated wifiMac && first)
    (call (Perform_TXSS_TXOP (GetAddress wifiMac) (GetBssid wifiMac)) ;;
     modify (set_firstDti false)) ;;
  links <- read beamformedLinks ;;
  completed <- read suMimoCompleted ;;
  when ((links =? 2) && (Seconds_0_6 <? Now sim) && negb completed)
    (print [Lit "EDMG STA "; Addr (GetAddress wifiMac);
            Lit " initiating SU-MIMO BFT EDMG STA "; Addr (GetBssid wifiMac);
            Lit " at "; Secs (Now sim); Endl] ;;
     let antennas := GetTotalAntennaIdList wifiMac in
     call (Schedule_StartSuMimoBeamforming (MicroSeconds 3) (GetAddress wifiMac)
             (GetBssid wifiMac) true antennas false)).

(** ** Runs of the simulation *)

(** One callback invocation, with the arguments bound in [main] and those
    the trace source passes. *)
Inductive Event :=
| OnCalculateThroughput (throughputOutput : string) (sample : double * Z * double)
| OnSLSCompleted (stream : string) (parameters : SLS_PARAMETERS)
    (attributes : SlsCompletionAttrbitutes)
| OnMacRxOk (stream : string) (macType : WifiMacType) (address : Mac48Address)
    (snrValue : double)
| OnStationAssoicated (staWifiMac : DmgWifiMac) (address : Mac48Address) (aid : Z)
| OnMacTxDataFailed
| OnPhyTxEnd
| OnPhyRxDrop
| OnPhyRxEnd
| OnSuMimoSisoPhaseMeasurements (parameters : SLS_PARAMETERS) (from : Mac48Address)
    (measurementsMap : SU_MIMO_SNR_MAP) (edmgTrnN : Z)
| OnSuMimoSisoPhaseComplete (parameters : SLS_PARAMETERS) (from : Mac48Address)
    (feedbackMap : MIMO_FEEDBACK_MAP) (numberOfTxAntennas numberOfRxAntennas : Z)
| OnSuMimoMimoCandidatesSelected (parameters : SLS_PARAMETERS) (from : Mac48Address)
    (txCandidates rxCandidates : Antenna2SectorList)
| OnSuMimoMimoPhaseMeasurements (parameters : MIMO_PARAMETERS) (from : Mac48Address)
    (mimoMeasurements : MIMO_SNR_LIST) (minSnr : SNR_MEASUREMENT_AWV_IDs_QUEUE)
    (differentRxConfigs : bool) (nTxAntennas nRxAntennas rxCombinationsTested : Z)
| OnSuMimoMimoPhaseComplete (parameters : SLS_PARAMETERS) (from : Mac48Address)
| OnDataTransmissionIntervalStarted (wifiMac : DmgWifiMac) (address : Mac48Address)
    (dtiDuration : Time).

Definition dispatch (sim : Simulator) (e : Event) : M unit :=
  match e with
  | OnCalculateThroughput out sample => CalculateThroughput sim out sample
  | OnSLSCompleted stream parameters attributes =>
      SLSCompleted sim stream parameters attributes
  | OnMacRxOk stream macType address snrValue =>
      MacRxOk sim stream macType address snrValue
  | OnStationAssoicated mac address aid => StationAssoicated mac address aid
  | OnMacTxDataFailed => MacTxDataFailed
  | OnPhyTxEnd => PhyTxEnd
  | OnPhyRxDrop => PhyRxDrop
  | OnPhyRxEnd => PhyRxEnd
  | OnSuMimoSisoPhaseMeasurements parameters from measurementsMap edmgTrnN =>
      SuMimoSisoPhaseMeasurements sim parameters from measurementsMap edmgTrnN
  | OnSuMimoSisoPhaseComplete parameters from feedbackMap nTx nRx =>
      SuMimoSisoPhaseComplete sim parameters from feedbackMap nTx nRx
  | OnSuMimoMimoCandidatesSelected parameters from txCandidates rxCandidates =>
      SuMimoMimoCandidatesSelected sim parameters from txCandidates rxCandidates
  | OnSuMimoMimoPhaseMeasurements parameters from mimoMeasurements minSnr
      differentRxConfigs nTx nRx rxCombinationsTested =>
      SuMimoMimoPhaseMeasurements sim parameters from mimoMeasurements minSnr
        differentRxConfigs nTx nRx rxCombinationsTested
  | OnSuMimoMimoPhaseComplete parameters from =>
      SuMimoMimoPhaseComplete sim parameters from
  | OnDataTransmissionIntervalStarted mac address dtiDuration =>
      DataTransmissionIntervalStarted sim mac address dtiDuration
  end.

(** The scheduler runs the callbacks one after the other; a callback that
    does not return ends the run. *)
Fixpoint run (evs : list (Simulator * Event)) : M unit :=
  match evs with
  | [] => ret tt
  | (sim, e) :: evs' => dispatch sim e ;; run evs'
  end.

(** The globals as initialised, with the options parsed from the command
    line. *)
Definition initial_world (opts : Options) : World :=
  {| options := opts; beamformedLinks := 0; firstDti := true;
     suMimoCompleted := false;
     statistics := {| macTxDataFailed := 0; transmittedPackets := 0;
                      droppedPackets := 0; receivedPackets := 0;
                      totalRx := 0; throughput := 0%Q |};
     files := ∅; cout := []; calls := [] |}.

Definition sls_header : list tok :=
  [Lit ("SRC_ID,DST_ID,TRACE_IDX,ANTENNA_ID_1,SECTOR_ID_1,AWV_ID_1,"
        +:+ "ANTENNA_ID_2,SECTOR_ID_2,AWV_ID_2,ROLE,BSS_ID,SNR,Timestamp");
   Endl].

Definition sls_file (folder arrayConfig : string) : string :=
  folder +:+ "slsResults" +:+ arrayConfig.

(** The part of [main] that opens the streams bound to callbacks, before
    [Simulator::Run ()]. [CreateSlsTraceStream] comes from the shared helper
    header, outside this file; it is taken to open the trace file its
    argument names, and what it may itself insert is left out. *)
Definition connect_traces (arrayConfig : string) (activateApp : bool) : M unit :=
  folder <- read (fun w => tracesFolder (options w)) ;;
  outputSlsPhase <- CreateFileStream (sls_file folder arrayConfig) ios_out ;;
  write outputSlsPhase sls_header ;;
  snrStream <- CreateFileStream (folder +:+ "snrValues.csv") ios_out ;;
  when activateApp
    (csv_ <- read (fun w => csv (options w)) ;;
     when (negb csv_) (print [Lit "Time [s]"; Lit "Throughput [Mbps]"; Endl]) ;;
     throughputOutput <- CreateFileStream "throughput_SU_MIMO.csv" ios_out ;;
     call (Schedule_CalculateThroughput (MilliSeconds 100) throughputOutput)).

Definition boot (opts : Options) (arrayConfig : string) (activateApp : bool) : World :=
  (connect_traces arrayConfig activateApp (initial_world opts)).1.

(** ** Observations on runs *)

(** The requests a computation adds to those already sent. *)
Definition new_calls {A} (c : M A) (w : World) : list Call :=
  drop (length (calls w)) (calls (c w).1).

(** What a computation prints on the console. *)
Definition new_cout {A} (c : M A) (w : World) : list tok :=
  drop (length (cout w)) (cout (c w).1).

(** Whether a DTI start initiates SU-MIMO beamforming training. *)
Definition initiates (sim : Simulator) (mac : DmgWifiMac) (address : Mac48Address)
    (dtiDuration : Time) (w : World) : bool :=
  existsb is_StartSuMimoBeamforming
    (new_calls (DataTransmissionIntervalStarted sim mac address dtiDuration) w).

Definition is_dti_sweep (e : Simulator * Event) : bool :=
  match e.2 with
  | OnSLSCompleted _ _ attributes => is_DTI (accessPeriod attributes)
  | _ => false
  end.

(** The number of sector sweeps completed in the data transmission interval
    among the events of a run. *)
Definition dti_sweeps (evs : list (Simulator * Event)) : Z :=
  Z.of_nat (length (filter (fun e => is_dti_sweep e = true) evs)).

Definition start_requests (w : World) : list Call :=
  filter (fun c => is_StartSuMimoBeamforming c = true) (calls w).

Definition txss_requests (w : World) : list Call :=
  filter (fun c => is_Perform_TXSS_TXOP c = true) (calls w).

(** The rows of a table: its lines after the header line. *)
Definition rows (name : string) (w : World) : list line :=
  tail (lines_of (file_content name w)).

(** The ratios inserted through [RatioToDb] as the last cell of the lines. *)
Definition min_snr_column (ls : list line) : list double :=
  omap (fun l => match last l with Some (Db r) => Some r | _ => None end) ls.

(** The line a stream has begun and not yet closed. *)
Fixpoint pending_from (cur : line) (ts : list tok) : line :=
  match ts with
  | [] => cur
  | t :: ts' =>
      if is_Endl t then pending_from [] ts' else pending_from (cur ++ [t]) ts'
  end.

(** ** The phase sequencer inside the callbacks

    The globals that decide the training phase and the requests that start
    a phase, and what each callback does to them. *)
Record Sequencer := {
  seq_options : Options;
  seq_links : Z;
  seq_firstDti : bool;
  seq_completed : bool;
  seq_starts : list Call;
  seq_txss : list Call
}.

Definition sequencer (w : World) : Sequencer :=
  {| seq_options := options w; seq_links := beamformedLinks w;
     seq_firstDti := firstDti w; seq_completed := suMimoCompleted w;
     seq_starts := start_requests w; seq_txss := txss_requests w |}.

Definition trigger (sim : Simulator) (s : Sequencer) : bool :=
  (seq_links s =? 2) && (Seconds_0_6 <? Now sim) && negb (seq_completed s).

Definition sequencer_step (sim : Simulator) (e : Event) (s : Sequencer) : Sequencer :=
  match e with
  | OnSLSCompleted _ _ attributes =>
      {| seq_options := seq_options s;
         seq_links := if negb (csv (seq_options s)) && is_DTI (accessPeriod attributes)
                      then uint8_t (seq_links s + 1) else seq_links s;
         seq_firstDti := seq_firstDti s; seq_completed := seq_completed s;
         seq_starts := seq_starts s; seq_txss := seq_txss s |}
  | OnSuMimoMimoPhaseComplete _ _ =>
      {| seq_options := seq_options s; seq_links := seq_links s;
         seq_firstDti := seq_firstDti s; seq_completed := true;
         seq_starts := seq_starts s; seq_txss := seq_txss s |}
  | OnDataTransmissionIntervalStarted mac _ _ =>
      {| seq_options := seq_options s; seq_links := seq_links s;
         seq_firstDti := if IsAssociated mac && seq_firstDti s then false
                         else seq_firstDti s;
         seq_completed := seq_completed s;
         seq_starts := seq_starts s ++
           (if trigger sim s
            then [Schedule_StartSuMimoBeamforming (MicroSeconds 3) (GetAddress mac)
                    (GetBssid mac) true (GetTotalAntennaIdList mac) false]
            else []);
         seq_txss := seq_txss s ++
           (if IsAssociated mac && seq_firstDti s
            then [Perform_TXSS_TXOP (GetAddress mac) (GetBssid mac)] else []) |}
  | _ => s
  end.

(** ** Properties of computations *)

(** [c] leaves the observation [f] of the world as it is. *)
Definition preserves {A B} (f : World -> A) (c : M B) : Prop :=
  forall w, f (c w).1 = f w.

(** [c] always returns. *)
Definition succeeds {A} (c : M A) : Prop :=
  forall w, exists a, (c w).2 = Done a.

(** [c] does nothing but insert into [stream] a sequence of tokens that
    does not depend on the world and satisfies [P]. *)
Definition writes {A} (stream : string) (P : list tok -> Prop) (c : M A) : Prop :=
  exists ts r, P ts /\ forall w, c w = (emit stream ts w, r).

(** Properties of token sequences that loops keep. *)
Class Closed (P : list tok -> Prop) : Prop := {
  closed_nil : P [];
  closed_app : forall a b, P a -> P b -> P (a ++ b)
}.

Definition no_endl (ts : list tok) : Prop := Forall (fun t => is_Endl t = false) ts.

(** Every line completed while inserting [ts] satisfies [R], and the
    insertions stop right after a comma or a line end, provided they began
    there. *)
Definition table_inv (R : line -> Prop) (ts : list tok) : Prop :=
  forall cur, last_column cur = [] ->
    Forall R (lines_from cur ts) /\ last_column (pending_from cur ts) = [].

(** The lines whose trailing column satisfies [Q]. *)
Definition ends_with (Q : line -> Prop) (l : line) : Prop := Q (last_column l).

(** The requests of [SuMimoSisoPhaseComplete], in the order it sends them. *)
Definition siso_complete_requests (parameters : SLS_PARAMETERS) (from : Mac48Address)
    (feedbackMap : MIMO_FEEDBACK_MAP) (nTx nRx : Z) (o : Options) : list Call :=
  let mac := wifiMac parameters in
  let k := kBestCombinations o in
  [Call_FindKBestCombinations (GetAddress mac) k nTx nRx feedbackMap]
  ++ (if useAwvs o then [AppendAwvsForSuMimoBFT_27 (GetAddress mac)] else [])
  ++ [StartSuMimoMimoPhase (GetAddress mac) from
        (FindKBestCombinations mac k nTx nRx feedbackMap)
        (numberOfTxCombinationsRequested o) (useAwvs o)].

(** The trailing column of a table that ends its lines with a timestamp:
    the header cell, or the time of the callback in nanoseconds. *)
Definition timestamp_column (sim : Simulator) (c : line) : Prop :=
  c = [Lit "Timestamp"] \/ c = [Num (Now sim)].


(** The precondition of [SuMimoMimoCandidatesSelected] on one candidates
    map: it is not empty and no sector list is shorter than the first. *)
Definition candidates_ok (candidates : Antenna2SectorList) : Prop :=
  match candidates with
  | [] => False
  | first :: _ =>
      Forall (fun it => (length first.2 <= length it.2)%nat) candidates
  end.

(** What a candidates map must satisfy for its table to be written to the
    end: it is not empty and every sector list has an entry for each row,
    the rows being as many as the first list is long, cut to 16 bits. *)
Definition candidates_fit (candidates : Antenna2SectorList) : Prop :=
  match candidates with
  | [] => False
  | first :: _ =>
      Forall (fun it => uint16_t (Z.of_nat (length first.2)) <= Z.of_nat (length it.2))
        candidates
  end.

(** ** Concrete inputs of the examples *)

Definition ex_mac (addr bssid : Mac48Address) (associated : bool) : DmgWifiMac :=
  {| GetAddress := addr; GetTypeOfStation := 1; IsAssociated := associated;
     GetBssid := bssid; GetTotalAntennaIdList := [1; 2];
     FindKBestCombinations := fun _ _ _ _ => [[(1, 1); (2, 5)]];
     GetMimoConfigFromRxAwvId := fun _ _ => [((1, 3), 0); ((2, 4), 0)];
     GetMimoConfigFromTxAwvId := fun _ _ => [((1, 7), 0); ((2, 9), 0)] |}.

Definition ex_options (csv_ : bool) : Options :=
  {| csv := csv_; kBestCombinations := 10; numberOfTxCombinationsRequested := 10;
     useAwvs := false; tracesFolder := "Traces/" |}.

Definition ex_sim (t : Time) : Simulator :=
  {| Now := t; GetCurrentTraceIndex := 0; apNodeId := 0 |}.

Definition ex_sta : SLS_PARAMETERS :=
  {| srcNodeID := 1; dstNodeID := 0; wifiMac := ex_mac 2 1 true |}.

Definition ex_ap : SLS_PARAMETERS :=
  {| srcNodeID := 0; dstNodeID := 1; wifiMac := ex_mac 1 1 true |}.

Definition ex_mimo_sta : MIMO_PARAMETERS :=
  {| mimo_srcNodeID := 1; mimo_dstNodeID := 0;
     srcWifiMac := ex_mac 2 1 true; dstWifiMac := ex_mac 1 1 true |}.

Definition ex_dti_attributes (peer : Mac48Address) : SlsCompletionAttrbitutes :=
  {| peerStation := peer; accessPeriod := CHANNEL_ACCESS_DTI; sectorID := 3;
     antennaID := 1 |}.

Definition ex_sls_stream : string := sls_file "Traces/" "cfg".

Definition ex_boot (csv_ : bool) : World := boot (ex_options csv_) "cfg" true.

(** Sector sweeps completed in the DTI by the station and by the access
    point, at 0.2 s and 0.3 s, and a third one at 0.4 s. *)
Definition ex_two_sweeps : list (Simulator * Event) :=
  [(ex_sim 200000000, OnSLSCompleted ex_sls_stream ex_sta (ex_dti_attributes 1));
   (ex_sim 300000000, OnSLSCompleted ex_sls_stream ex_ap (ex_dti_attributes 2))].

Definition ex_three_sweeps : list (Simulator * Event) :=
  ex_two_sweeps ++
  [(ex_sim 400000000, OnSLSCompleted ex_sls_stream ex_sta (ex_dti_attributes 1))].

Definition ex_dti (t : Time) : Simulator * Event :=
  (ex_sim t, OnDataTransmissionIntervalStarted (ex_mac 2 1 true) 1 100000000).

Definition ex_snr_map (snr : double) : SU_MIMO_SNR_MAP :=
  [((0, 1, 1), [snr; (3 # 4)%Q]); ((0, 1, 2), [5%Q])].

Definition ex_measurements : MIMO_SNR_LIST :=
  [(0, [1; 2; 3; 4]%Q); (0, [5; 6; 7; 8]%Q); (0, [1; 2; 3; 4]%Q); (0, [5; 6; 7; 8]%Q)].

Definition ex_queue : SNR_MEASUREMENT_AWV_IDs_QUEUE :=
  [(5%Q, (1, [(1, 1); (2, 1)])); (12%Q, (2, [(1, 1); (2, 1)]));
   (7%Q, (1, [(1, 2); (2, 2)]))].

Definition ex_candidates : Antenna2SectorList := [(1, [3; 4]); (2, [5; 6])].

(** A world in which the initial sector sweep has been requested. *)
Definition ex_swept : World := set_firstDti false (initial_world (ex_options false)).

(** A world in which, besides, two sector sweeps were completed in the DTI
    and the MIMO phase has completed. *)
Definition ex_completed : World :=
  set_suMimoCompleted true (set_beamformedLinks 2 ex_swept).

(** ** Cells of a line *)

Fixpoint commas_in (s : string) : nat :=
  match s with
  | EmptyString => 0
  | String c s' => (if Ascii.eqb c ","%char then 1 else 0) + commas_in s'
  end.

(** The commas an insertion adds to its line: those of a literal. Numbers,
    addresses and times are inserted without a comma. *)
Definition tok_commas (t : tok) : nat :=
  match t with Lit s => commas_in s | _ => 0 end.

Definition commas (l : list tok) : nat := sum_list_with tok_commas l.

(** The number of comma-separated cells of a line. *)
Definition columns (l : line) : nat := S (commas l).

(** The insertions that make up whole rows: the cells of each row and its
    [std::endl]. *)
Definition insertions (rs : list line) : list tok :=
  concat (map (fun r => r ++ [Endl]) rs).

(** ** The callbacks as [main] binds them *)

(** The access point and the station, as a callback finds them when it
    runs: what their MAC entities answer, and the identifiers of their
    nodes. *)
Record Network := {
  apWifiMac : DmgWifiMac;
  staWifiMac : DmgWifiMac;
  apWifiNodeId : Z;
  staWifiNodeId : Z
}.

Definition parametersAp (net : Network) : SLS_PARAMETERS :=
  {| srcNodeID := apWifiNodeId net; dstNodeID := staWifiNodeId net;
     wifiMac := apWifiMac net |}.

Definition mimoParametersAp (net : Network) : MIMO_PARAMETERS :=
  {| mimo_srcNodeID := apWifiNodeId net; mimo_dstNodeID := staWifiNodeId net;
     srcWifiMac := apWifiMac net; dstWifiMac := staWifiMac net |}.

Definition parametersSta (net : Network) : SLS_PARAMETERS :=
  {| srcNodeID := staWifiNodeId net; dstNodeID := apWifiNodeId net;
     wifiMac := staWifiMac net |}.

Definition mimoParametersSta (net : Network) : MIMO_PARAMETERS :=
  {| mimo_srcNodeID := staWifiNodeId net; mimo_dstNodeID := apWifiNodeId net;
     srcWifiMac := staWifiMac net; dstWifiMac := apWifiMac net |}.

Inductive Device := AP | STA.

Definition parameters_of (net : Network) (d : Device) : SLS_PARAMETERS :=
  match d with AP => parametersAp net | STA => parametersSta net end.

Definition mimoParameters_of (net : Network) (d : Device) : MIMO_PARAMETERS :=
  match d with AP => mimoParametersAp net | STA => mimoParametersSta net end.

(** A trace source that [main] connects, firing with the arguments the
    source passes, or the scheduler running the throughput sampling. The
    MAC traces are connected on both devices; [PhyRxEnd], [PhyRxDrop] and
    [MacRxOK] on the access point only; [Assoc], [DTIStarted], [PhyTxEnd]
    and [MacTxDataFailed] on the station only. *)
Inductive Firing :=
| Trace_SLSCompleted (d : Device) (attributes : SlsCompletionAttrbitutes)
| Trace_SuMimoSisoPhaseMeasurements (d : Device) (from : Mac48Address)
    (measurementsMap : SU_MIMO_SNR_MAP) (edmgTrnN : Z)
| Trace_SuMimoSisoPhaseCompleted (d : Device) (from : Mac48Address)
    (feedbackMap : MIMO_FEEDBACK_MAP) (numberOfTxAntennas numberOfRxAntennas : Z)
| Trace_SuMimoMimoCandidatesSelected (d : Device) (from : Mac48Address)
    (txCandidates rxCandidates : Antenna2SectorList)
| Trace_SuMimoMimoPhaseMeasurements (d : Device) (from : Mac48Address)
    (mimoMeasurements : MIMO_SNR_LIST) (minSnr : SNR_MEASUREMENT_AWV_IDs_QUEUE)
    (differentRxConfigs : bool) (nTxAntennas nRxAntennas rxCombinationsTested : Z)
| Trace_SuMimoMimoPhaseCompleted (d : Device) (from : Mac48Address)
| Trace_PhyRxEnd
| Trace_PhyRxDrop
| Trace_Assoc (address : Mac48Address) (aid : Z)
| Trace_DTIStarted (address : Mac48Address) (dtiDuration : Time)
| Trace_PhyTxEnd
| Trace_MacTxDataFailed
| Trace_MacRxOK (macType : WifiMacType) (address : Mac48Address) (snrValue : double)
| Scheduled_CalculateThroughput (sample : double * Z * double).

Definition snr_file (folder : string) : string := folder +:+ "snrValues.csv".

Definition throughput_file : string := "throughput_SU_MIMO.csv".

(** The callback [main] has bound to a trace source, with the arguments
    bound by [MakeBoundCallback]. *)
Definition bound_callback (folder arrayConfig : string) (net : Network) (f : Firing)
    : Event :=
  let outputSlsPhase := sls_file folder arrayConfig in
  match f with
  | Trace_SLSCompleted d attributes =>
      OnSLSCompleted outputSlsPhase (parameters_of net d) attributes
  | Trace_SuMimoSisoPhaseMeasurements d from measurementsMap edmgTrnN =>
      OnSuMimoSisoPhaseMeasurements (parameters_of net d) from measurementsMap edmgTrnN
  | Trace_SuMimoSisoPhaseCompleted d from feedbackMap nTx nRx =>
      OnSuMimoSisoPhaseComplete (parameters_of net d) from feedbackMap nTx nRx
  | Trace_SuMimoMimoCandidatesSelected d from txCandidates rxCandidates =>
      OnSuMimoMimoCandidatesSelected (parameters_of net d) from txCandidates
        rxCandidates
  | Trace_SuMimoMimoPhaseMeasurements d from mimoMeasurements minSnr
      differentRxConfigs nTx nRx rxCombinationsTested =>
      OnSuMimoMimoPhaseMeasurements (mimoParameters_of net d) from mimoMeasurements
        minSnr differentRxConfigs nTx nRx rxCombinationsTested
  | Trace_SuMimoMimoPhaseCompleted d from =>
      OnSuMimoMimoPhaseComplete (parameters_of net d) from
  | Trace_PhyRxEnd => OnPhyRxEnd
  | Trace_PhyRxDrop => OnPhyRxDrop
  | Trace_Assoc address aid => OnStationAssoicated (staWifiMac net) address aid
  | Trace_DTIStarted address dtiDuration =>
      OnDataTransmissionIntervalStarted (staWifiMac net) address dtiDuration
  | Trace_PhyTxEnd => OnPhyTxEnd
  | Trace_MacTxDataFailed => OnMacTxDataFailed
  | Trace_MacRxOK macType address snrValue =>
      OnMacRxOk (snr_file folder) macType address snrValue
  | Scheduled_CalculateThroughput sample =>
      OnCalculateThroughput throughput_file sample
  end.

(** [Simulator::Run ()] after the traces are connected: the callbacks
    bound in [main] run in the order in which their sources fire, each with
    what it reads from the simulator and from the two devices at that
    moment. *)
Definition simulate (arrayConfig : string)
    (firings : list (Simulator * Network * Firing)) : M unit :=
  folder <- read (fun w => tracesFolder (options w)) ;;
  run (map (fun sf => (sf.1.1, bound_callback folder arrayConfig sf.1.2 sf.2)) firings).

(** [c] does nothing but insert [ts] into [stream], and ends with [r]. *)
Definition emits {A} (stream : string) (ts : list tok) (r : outcome A) (c : M A)
    : Prop :=
  forall w, c w = (emit stream ts w, r).

(** The cells of the row the loop of [SuMimoSisoPhaseComplete] inserts for an
    entry of the feedback map. *)
Definition siso_feedback_row (sim : Simulator) (parameters : SLS_PARAMETERS)
    (it : (Z * Z * Z) * double) : line :=
  [Num (uint32_t (srcNodeID parameters + 1)); Lit ",";
   Num (uint32_t (dstNodeID parameters + 1)); Lit ",";
   Num (GetCurrentTraceIndex sim); Lit ",";
   Num (uint16_t (get1 it.1)); Lit ","; Num (uint16_t (get0 it.1)); Lit ",";
   Num (uint16_t (get2 it.1)); Lit ","; Db it.2; Lit ",";
   Num (Now sim)].

(** The cells of the row the loops of [SuMimoSisoPhaseMeasurements] insert
    for the SNR value at position [snrIt.1] of the list of the entry [it]. *)
Definition siso_measurement_row (sim : Simulator) (parameters : SLS_PARAMETERS)
    (edmgTrnN : Z) (it : (Z * AntennaID * AntennaID) * SNR_LIST) (snrIt : Z * double)
    : line :=
  [Num (uint32_t (srcNodeID parameters + 1)); Lit ",";
   Num (uint32_t (dstNodeID parameters + 1)); Lit ",";
   Num (GetCurrentTraceIndex sim); Lit ",";
   Num (uint16_t (get1 it.1)); Lit ","; Num (uint16_t (get2 it.1)); Lit ",";
   Num (uint16_t (uint32_t (snrIt.1 + 1) / edmgTrnN)); Lit ","; Db snrIt.2; Lit ",";
   Num (Now sim)].

(** The SNR values of a measurements map, each with its position in its
    list, in the order the loops meet them. *)
Definition siso_measurement_entries (measurementsMap : SU_MIMO_SNR_MAP)
    : list (((Z * AntennaID * AntennaID) * SNR_LIST) * (Z * double)) :=
  it ← measurementsMap;
  (fun snrIt => (it, snrIt)) <$> zip (seqZ 0 (Z.of_nat (length it.2))) it.2.

(** The names under which the callback of an event opens files or inserts
    into them, in a world whose traces folder is [folder]. Files are told
    apart by their names; see [basename] for the names that are different
    entries of their directories. *)
Definition written (folder : string) (e : Event) : list string :=
  match e with
  | OnCalculateThroughput throughputOutput _ => [throughputOutput]
  | OnSLSCompleted stream _ _ => [stream]
  | OnMacRxOk stream _ _ _ => [stream]
  | OnSuMimoSisoPhaseMeasurements parameters _ _ _ =>
      [siso_measurements_file folder parameters]
  | OnSuMimoSisoPhaseComplete parameters _ _ _ _ =>
      [siso_results_file folder parameters]
  | OnSuMimoMimoCandidatesSelected parameters _ _ _ =>
      [mimo_tx_candidates_file folder parameters;
       mimo_rx_candidates_file folder parameters]
  | OnSuMimoMimoPhaseMeasurements parameters _ _ _ _ _ _ _ =>
      [mimo_measurements_file folder parameters]
  | _ => []
  end.

(** The program from the connection of the traces to the end of
    [Simulator::Run ()]. *)
Definition session (arrayConfig : string) (activateApp : bool)
    (firings : list (Simulator * Network * Firing)) : M unit :=
  connect_traces arrayConfig activateApp ;;
  simulate arrayConfig firings.

(** The row a firing adds to the sector-sweep trace, to the SNR trace and
    to the throughput trace. *)
Definition sls_row_of (sf : Simulator * Network * Firing) : option line :=
  match sf.2 with
  | Trace_SLSCompleted d attributes =>
      Some (sls_row sf.1.1 (parameters_of sf.1.2 d) attributes)
  | _ => None
  end.

Definition snr_row_of (sf : Simulator * Network * Firing) : option line :=
  match sf.2 with
  | Trace_MacRxOK WIFI_MAC_QOSDATA _ snrValue =>
      Some [Num (Now sf.1.1); Lit ","; Dbl snrValue]
  | _ => None
  end.

Definition throughput_row_of (sf : Simulator * Network * Firing) : option line :=
  match sf.2 with
  | Scheduled_CalculateThroughput sample =>
      Some [Prec1 (Now sf.1.1) false; Lit ","; Dbl sample.1.1]
  | _ => None
  end.

(** The network of the examples, and a session in which both devices
    complete a sector sweep in the DTI, a data frame and a beacon are
    received, the throughput is sampled and the station starts a DTI. *)
Definition ex_net : Network :=
  {| apWifiMac := ex_mac 1 1 true; staWifiMac := ex_mac 2 1 true;
     apWifiNodeId := 0; staWifiNodeId := 1 |}.

Definition ex_firings : list (Simulator * Network * Firing) :=
  [(ex_sim 100000000, ex_net, Scheduled_CalculateThroughput (0%Q, 0, 0%Q));
   (ex_sim 200000000, ex_net, Trace_SLSCompleted STA (ex_dti_attributes 1));
   (ex_sim 300000000, ex_net, Trace_SLSCompleted AP (ex_dti_attributes 2));
   (ex_sim 400000000, ex_net, Trace_MacRxOK WIFI_MAC_QOSDATA 2 (9 # 2)%Q);
   (ex_sim 500000000, ex_net, Trace_MacRxOK WIFI_MAC_OTHER 2 (7 # 2)%Q);
   (ex_sim 700000000, ex_net, Trace_DTIStarted 1 100000000)].

(** ** The counters and the report at the end of [main] *)

Definition is_Trace_MacTxDataFailed (f : Firing) : bool :=
  match f with Trace_MacTxDataFailed => true | _ => false end.

Definition is_Trace_PhyTxEnd (f : Firing) : bool :=
  match f with Trace_PhyTxEnd => true | _ => false end.

Definition is_Trace_PhyRxDrop (f : Firing) : bool :=
  match f with Trace_PhyRxDrop => true | _ => false end.

Definition is_Trace_PhyRxEnd (f : Firing) : bool :=
  match f with Trace_PhyRxEnd => true | _ => false end.

(** How many of the firings of a session satisfy [p]. *)
Definition fired (p : Firing -> bool) (firings : list (Simulator * Network * Firing)) : Z :=
  Z.of_nat (length (filter (fun sf => p sf.2 = true) firings)).

(** The totals the report reads from the transmitting application and from
    the packet sink. *)
Record Application := {
  GetTotalTxPackets : Z;
  GetTotalTxBytes : Z
}.

Record PacketSink := {
  GetTotalReceivedPackets : Z;
  GetTotalRx : Z
}.

(** The global pointers to the applications; a pointer that was never
    assigned is null. *)
Record Applications := {
  packetSink : option PacketSink;
  onoff : option Application;
  bulk : option Application
}.

(** [p->...]: a null pointer must not be dereferenced. *)
Definition deref {A} (p : option A) : M A :=
  match p with
  | Some a => ret a
  | None => undefined
  end.

(** The part of [main] that installs the applications: the sink, and the
    transmitter that [applicationType] names, if it names one. *)
Definition install_applications (activateApp : bool) (applicationType : string)
    (sink : PacketSink) (source : Application) : Applications :=
  if activateApp
  then {| packetSink := Some sink;
          onoff := if String.eqb applicationType "onoff" then Some source else None;
          bulk := if String.eqb applicationType "onoff" then None
                  else if String.eqb applicationType "bulk" then Some source
                  else None |}
  else {| packetSink := None; onoff := None; bulk := None |}.

(** The lines of the report on the MAC and PHY layers. *)
Definition layer_statistics (failed transmitted received dropped : Z) : list tok :=
  [Lit (String "010" "MAC Layer Statistics:"); Endl;
   Lit "  Number of Failed Tx Data Packets:  "; Num failed; Endl;
   Lit (String "010" "PHY Layer Statistics:"); Endl;
   Lit "  Number of Tx Packets:         "; Num transmitted; Endl;
   Lit "  Number of Rx Packets:         "; Num received; Endl;
   Lit "  Number of Rx Dropped Packets: "; Num dropped; Endl].

(** The part of [main] after [Simulator::Destroy ()]. [flowStatistics] is
    what [PrintFlowMonitorStatistics] prints and [mbps] the value of the
    throughput expression, computed in doubles from the bytes received and
    the simulation time. *)
Definition report (activateApp : bool) (applicationType : string)
    (apps : Applications) (flowStatistics : list tok) (mbps : double) : M unit :=
  csv_ <- read (fun w => csv (options w)) ;;
  when (negb csv_)
    (when activateApp
       (print flowStatistics ;;
        print [Lit (String "010" "Application Layer Statistics:"); Endl] ;;
        source <- (if String.eqb applicationType "onoff"
                   then deref (onoff apps) else deref (bulk apps)) ;;
        print [Lit "  Tx Packets: "; Num (GetTotalTxPackets source); Endl] ;;
        print [Lit "  Tx Bytes:   "; Num (GetTotalTxBytes source); Endl] ;;
        sink <- deref (packetSink apps) ;;
        print [Lit "  Rx Packets: "; Num (GetTotalReceivedPackets sink); Endl] ;;
        print [Lit "  Rx Bytes:   "; Num (GetTotalRx sink); Endl] ;;
        print [Lit "  Throughput: "; Dbl mbps; Lit " Mbps"; Endl]) ;;
     st <- read statistics ;;
     print (layer_statistics (macTxDataFailed st) (transmittedPackets st)
              (receivedPackets st) (droppedPackets st))).

(** [main] from the installation of the applications on. *)
Definition main (arrayConfig : string) (activateApp : bool) (applicationType : string)
    (sink : PacketSink) (source : Application)
    (flowStatistics : list tok) (mbps : double)
    (firings : list (Simulator * Network * Firing)) : M unit :=
  let apps := install_applications activateApp applicationType sink source in
  session arrayConfig activateApp firings ;;
  report activateApp applicationType apps flowStatistics mbps.

(** The lines of the report on the applications, with the totals of the
    transmitter and of the sink; nothing when no application is
    installed. *)
Definition application_statistics (activateApp : bool) (sink : PacketSink)
    (source : Application) (flowStatistics : list tok) (mbps : double) : list tok :=
  if activateApp
  then flowStatistics
       ++ [Lit (String "010" "Application Layer Statistics:"); Endl;
           Lit "  Tx Packets: "; Num (GetTotalTxPackets source); Endl;
           Lit "  Tx Bytes:   "; Num (GetTotalTxBytes source); Endl;
           Lit "  Rx Packets: "; Num (GetTotalReceivedPackets sink); Endl;
           Lit "  Rx Bytes:   "; Num (GetTotalRx sink); Endl;
           Lit "  Throughput: "; Dbl mbps; Lit " Mbps"; Endl]
  else [].



(** ** Names of files and the entries of a directory *)

(** The text of a file name after its last ['/'], if it has one. *)
Fixpoint after_last_slash (s : string) : option string :=
  match s with
  | EmptyString => None
  | String c s' =>
      match after_last_slash s' with
      | Some r => Some r
      | None => if Ascii.eqb c "/"%char then Some s' else None
      end
  end.


(** A text that adds no directory to a file name: it holds no ['/']. *)
Definition plain_name (s : string) : Prop := after_last_slash s = None.

(** The header line of a candidates table for [n] antennas, and the cells
    of its row [i]: the sector at position [i] of the list of each antenna. *)
Definition candidates_header (n : Z) : line :=
  Lit "SRC_ID,DST_ID,TRACE_IDX,"
  :: concat (map (fun i => [Lit "ANTENNA_ID"; Num (uint16_t i);
                            Lit ",SECTOR_ID"; Num (uint16_t i); Lit ","])
               (seqZ 1 n)).

Definition candidates_row (sim : Simulator) (parameters : SLS_PARAMETERS)
    (candidates : Antenna2SectorList) (i : Z) : line :=
  [Num (uint32_t (srcNodeID parameters + 1)); Lit ",";
   Num (uint32_t (dstNodeID parameters + 1)); Lit ",";
   Num (GetCurrentTraceIndex sim); Lit ","]
  ++ concat (map (fun it => [Num (uint16_t it.1); Lit ",";
                             Num (uint16_t (default 0 (it.2 !! Z.to_nat i)));
                             Lit ","])
               candidates).

(** [candidates.begin ()->second.size ()] in 16 bits, for the maps that
    have a first entry. *)
Definition numberOfCandidates (candidates : Antenna2SectorList) : Z :=
  uint16_t (Z.of_nat (length (default [] (snd <$> head candidates)))).

(** [c] never runs for ever. *)
Definition halts {A} (c : M A) : Prop :=
  forall w, (c w).2 <> Diverges.

(** [c] does nothing but insert into [stream], and what it has inserted
    when it returns satisfies [P]. *)
Definition completes {A} (stream : string) (P : list tok -> Prop) (c : M A) : Prop :=
  exists ts r, emits stream ts r c /\ (forall a, r = Done a -> P ts).

(** Cells of one line, with [k] commas among them. *)
Definition cells (k : nat) (ts : list tok) : Prop :=
  no_endl ts /\ commas ts = k.

(** Whole lines, each of [k] cells. *)
Definition table_of (k : nat) (ts : list tok) : Prop :=
  exists rs, ts = insertions rs /\ Forall (fun r => no_endl r /\ columns r = k) rs.

(** What the MIMO measurements callback needs of its arguments to write
    its table to the end: counts of antennas for which the header loops end;
    for every element of the queue, a Tx and an Rx configuration with an
    entry for each antenna, an Rx identifier for each Rx antenna, and for
    each Rx identifier a measurement at the index computed from it, with an
    SNR value for each pair of antennas. *)
Definition mimo_measurements_ok (parameters : MIMO_PARAMETERS) (from : Mac48Address)
    (mimoMeasurements : MIMO_SNR_LIST) (minSnr : SNR_MEASUREMENT_AWV_IDs_QUEUE)
    (nTxAntennas nRxAntennas rxCombinationsTested : Z) : Prop :=
  0 <= nTxAntennas <= 254 /\ 0 <= nRxAntennas <= 254
  /\ nRxAntennas * nTxAntennas <= 255
  /\ Forall (fun e : SNR_MEASUREMENT_AWV_IDs =>
       nTxAntennas
       <= Z.of_nat (length (GetMimoConfigFromTxAwvId (dstWifiMac parameters) e.2.1
                              (GetAddress (srcWifiMac parameters))))
       /\ nRxAntennas
          <= Z.of_nat (length (GetMimoConfigFromRxAwvId (srcWifiMac parameters)
                                 e.2.2 from))
       /\ (0 < nTxAntennas -> nRxAntennas <= Z.of_nat (length e.2.2))
       /\ Forall (fun rxId : Z * Z =>
            let index := (uint16_t e.2.1 - 1) * rxCombinationsTested + rxId.2 - 1 in
            0 <= index
            /\ exists m, mimoMeasurements !! Z.to_nat index = Some m
                         /\ nRxAntennas * nTxAntennas <= Z.of_nat (length m.2))
            e.2.2)
       minSnr.

(** ** The initial sector sweep and the console in CSV mode *)

(** The initial sector sweep a DTI start asks for while [firstDti] holds. *)
Definition dti_txss (e : Simulator * Event) : option Call :=
  match e.2 with
  | OnDataTransmissionIntervalStarted wifiMac _ _ =>
      if IsAssociated wifiMac
      then Some (Perform_TXSS_TXOP (GetAddress wifiMac) (GetBssid wifiMac))
      else None
  | _ => None
  end.

(** The message with which each SU-MIMO callback begins. *)
Definition phase_message (sim : Simulator) (who : Mac48Address) (what : string)
    (from : Mac48Address) : list tok :=
  [Lit "EDMG STA "; Addr who; Lit what; Addr from; Lit " at "; Secs (Now sim); Endl].

(** What the callback of an event prints when CSV output is on. *)
Definition csv_console (e : Simulator * Event) : list tok :=
  match e.2 with
  | OnCalculateThroughput _ sample =>
      [Prec1 (Now e.1) false; Lit ","; Dbl sample.1.1; Endl]
  | OnSuMimoSisoPhaseMeasurements parameters from _ _ =>
      phase_message e.1 (GetAddress (wifiMac parameters))
        " reporting SISO phase measurements of SU-MIMO BFT with EDMG STA " from
  | OnSuMimoSisoPhaseComplete parameters from _ _ _ =>
      phase_message e.1 (GetAddress (wifiMac parameters))
        " finished SISO phase of SU-MIMO BFT with EDMG STA " from
  | OnSuMimoMimoCandidatesSelected parameters from _ _ =>
      phase_message e.1 (GetAddress (wifiMac parameters))
        " reporting MIMO candidates Selection for SU-MIMO BFT with EDMG STA " from
  | OnSuMimoMimoPhaseMeasurements parameters from _ _ _ _ _ _ =>
      phase_message e.1 (GetAddress (srcWifiMac parameters))
        " reporting MIMO phase measurements for SU-MIMO BFT with EDMG STA " from
  | OnSuMimoMimoPhaseComplete parameters from =>
      phase_message e.1 (GetAddress (wifiMac parameters))
        " finished MIMO phase of SU-MIMO BFT with EDMG STA " from
  | _ => []
  end.

(** * Lemmas *)

(** ** The monad *)



(** ** Observations kept by a computation *)

Section Preserves.
Context {T : Type} (f : World -> T).

Lemma preserves_ret {A} (a : A) : preserves f (ret a).
Proof. by intros w. Qed.

Lemma preserves_read {A} (g : World -> A) : preserves f (read g).
Proof. by intros w. Qed.

Lemma preserves_fail {A} :
  preserves f (@throw_out_of_range A) /\ preserves f (@undefined A)
  /\ preserves f (@diverge A).
Proof. by repeat split. Qed.

Lemma preserves_bind {A B} (c : M A) (k : A -> M B) :
  preserves f c -> (forall a, preserves f (k a)) -> preserves f (bind c k).
Proof.
  intros Hc Hk w. unfold bind. specialize (Hc w).
  destruct (c w) as [w' [a| | |]]; simpl in *; try done.
  by rewrite Hk.
Qed.

Lemma preserves_when b (c : M unit) : preserves f c -> preserves f (when b c).
Proof. intros Hc. destruct b; [done | apply preserves_ret]. Qed.

Lemma preserves_at {A} (v : list A) i : preserves f (at_ v i).
Proof. unfold at_. by destruct (if 0 <=? i then v !! Z.to_nat i else None). Qed.

Lemma preserves_udiv a b : preserves f (udiv a b).
Proof. unfold udiv. by destruct (b =? 0). Qed.

Lemma preserves_begin_second {K V} (m : list (K * V)) : preserves f (begin_second m).
Proof. by destruct m. Qed.

Lemma preserves_pq_top q : preserves f (pq_top q).
Proof. by destruct q. Qed.

Lemma preserves_foreach {A St} (l : list A) (body : A -> St -> M St) s :
  (forall x s, preserves f (body x s)) -> preserves f (foreach l body s).
Proof.
  intros Hb. revert s. induction l as [|x l IH]; intros s; simpl.
  - apply preserves_ret.
  - apply preserves_bind; [apply Hb | intros; apply IH].
Qed.

Lemma preserves_for_from {St} wrap fuel i cond (body : Z -> St -> M St) s :
  (forall i s, preserves f (body i s)) -> preserves f (for_from wrap fuel i cond body s).
Proof.
  intros Hb. revert i s. induction fuel as [|fuel IH]; intros i s; simpl.
  - apply preserves_fail.
  - destruct (cond i); [| apply preserves_ret].
    apply preserves_bind; [apply Hb | intros; apply IH].
Qed.

Lemma preserves_while fuel q body :
  (forall q, preserves f (body q)) -> preserves f (while_not_empty fuel q body).
Proof.
  intros Hb. revert q. induction fuel as [|fuel IH]; intros q; simpl.
  - apply preserves_fail.
  - destruct (pq_empty q); [apply preserves_ret |].
    apply preserves_bind; [apply Hb | intros; apply IH].
Qed.
End Preserves.

Lemma preserves_write stream ts : preserves sequencer (write stream ts).
Proof. by intros w. Qed.

Lemma preserves_print ts : preserves sequencer (print ts).
Proof. by intros w. Qed.

Lemma preserves_create name mode : preserves sequencer (CreateFileStream name mode).
Proof. intros w. by destruct mode. Qed.

Lemma start_requests_call c w :
  start_requests (set_calls (calls w ++ [c]) w)
  = start_requests w ++ (if is_StartSuMimoBeamforming c then [c] else []).
Proof.
  unfold start_requests. simpl. rewrite filter_app. f_equal.
  destruct c; reflexivity.
Qed.

Lemma txss_requests_call c w :
  txss_requests (set_calls (calls w ++ [c]) w)
  = txss_requests w ++ (if is_Perform_TXSS_TXOP c then [c] else []).
Proof.
  unfold txss_requests. simpl. rewrite filter_app. f_equal.
  destruct c; reflexivity.
Qed.

Lemma preserves_call c :
  is_StartSuMimoBeamforming c = false -> is_Perform_TXSS_TXOP c = false ->
  preserves sequencer (call c).
Proof.
  intros H1 H2 w. unfold sequencer, call, modify. cbn [fst].
  rewrite start_requests_call, txss_requests_call, H1, H2, !app_nil_r.
  reflexivity.
Qed.

Lemma preserves_for_uint8_t {T St} (f : World -> T) i cond (body : Z -> St -> M St) s :
  (forall i s, preserves f (body i s)) -> preserves f (for_uint8_t i cond body s).
Proof. apply preserves_for_from. Qed.

Lemma preserves_for_uint16_t {T St} (f : World -> T) i cond (body : Z -> St -> M St) s :
  (forall i s, preserves f (body i s)) -> preserves f (for_uint16_t i cond body s).
Proof. apply preserves_for_from. Qed.

Ltac preserves_tac :=
  repeat match goal with
    | |- forall _, _ => intro
    | |- preserves _ (bind _ _) => apply preserves_bind
    | |- preserves _ (ret _) => apply preserves_ret
    | |- preserves _ (read _) => apply preserves_read
    | |- preserves _ (when _ _) => apply preserves_when
    | |- preserves _ (at_ _ _) => apply preserves_at
    | |- preserves _ (udiv _ _) => apply preserves_udiv
    | |- preserves _ (begin_second _) => apply preserves_begin_second
    | |- preserves _ (pq_top _) => apply preserves_pq_top
    | |- preserves _ (foreach _ _ _) => apply preserves_foreach
    | |- preserves _ (for_uint8_t _ _ _ _) => apply preserves_for_uint8_t
    | |- preserves _ (for_uint16_t _ _ _ _) => apply preserves_for_uint16_t
    | |- preserves _ (while_not_empty _ _ _) => apply preserves_while
    | |- preserves sequencer (write _ _) => apply preserves_write
    | |- preserves sequencer (print _) => apply preserves_print
    | |- preserves sequencer (CreateFileStream _ _) => apply preserves_create
    | |- preserves sequencer (call _) => apply preserves_call; reflexivity
    | |- preserves _ _ => progress cbv zeta
    end.

(** ** What each callback does to the sequencer *)

Lemma SuMimoSisoPhaseMeasurements_sequencer sim parameters from measurementsMap edmgTrnN :
  preserves sequencer
    (SuMimoSisoPhaseMeasurements sim parameters from measurementsMap edmgTrnN).
Proof.
  unfold SuMimoSisoPhaseMeasurements, siso_measurement_rows. preserves_tac.
Qed.

Lemma SuMimoSisoPhaseComplete_sequencer sim parameters from feedbackMap nTx nRx :
  preserves sequencer (SuMimoSisoPhaseComplete sim parameters from feedbackMap nTx nRx).
Proof. unfold SuMimoSisoPhaseComplete, siso_feedback_rows. preserves_tac. Qed.

Lemma candidates_table_sequencer sim parameters stream n candidates :
  preserves sequencer (candidates_table sim parameters stream n candidates).
Proof. unfold candidates_table. preserves_tac. Qed.

Lemma SuMimoMimoCandidatesSelected_sequencer sim parameters from tx rx :
  preserves sequencer (SuMimoMimoCandidatesSelected sim parameters from tx rx).
Proof.
  unfold SuMimoMimoCandidatesSelected. preserves_tac;
    apply candidates_table_sequencer.
Qed.

Lemma SuMimoMimoPhaseMeasurements_sequencer sim parameters from mm q d nTx nRx rct :
  preserves sequencer
    (SuMimoMimoPhaseMeasurements sim parameters from mm q d nTx nRx rct).
Proof.
  unfold SuMimoMimoPhaseMeasurements, mimo_header_cells, mimo_row, mimo_row_cells.
  preserves_tac.
Qed.

Lemma CalculateThroughput_sequencer sim out sample :
  preserves sequencer (CalculateThroughput sim out sample).
Proof.
  unfold CalculateThroughput. preserves_tac; try (intros w; reflexivity).
  destruct (negb _); preserves_tac.
Qed.

Lemma SLSCompleted_sequencer sim stream parameters attributes w :
  sequencer (SLSCompleted sim stream parameters attributes w).1
  = sequencer_step sim (OnSLSCompleted stream parameters attributes) (sequencer w).
Proof.
  unfold SLSCompleted, sequencer_step, bind, write, read, modify, when, print,
    call, ret. cbn [fst snd seq_options sequencer options emit set_files].
  destruct (csv (options w)); cbn [negb andb fst]; [by destruct w |].
  destruct (is_DTI (accessPeriod attributes)); cbn [fst];
    unfold sequencer; cbn -[uint8_t];
    unfold start_requests, txss_requests; cbn -[uint8_t];
    rewrite !filter_app; cbn -[uint8_t]; rewrite !app_nil_r; reflexivity.
Qed.

Lemma SuMimoMimoPhaseComplete_sequencer sim parameters from w :
  sequencer (SuMimoMimoPhaseComplete sim parameters from w).1
  = sequencer_step sim (OnSuMimoMimoPhaseComplete parameters from) (sequencer w).
Proof. reflexivity. Qed.

Lemma DataTransmissionIntervalStarted_sequencer sim mac address dtiDuration w :
  sequencer (DataTransmissionIntervalStarted sim mac address dtiDuration w).1
  = sequencer_step sim (OnDataTransmissionIntervalStarted mac address dtiDuration)
      (sequencer w).
Proof.
  destruct w as [o links first completed st fl co ca].
  unfold DataTransmissionIntervalStarted, sequencer_step, trigger, bind, read,
    modify, when, print, call, ret, sequencer, start_requests, txss_requests.
  cbn -[Seconds_0_6 Z.ltb Z.eqb].
  destruct (IsAssociated mac), first; cbn -[Seconds_0_6 Z.ltb Z.eqb];
    destruct (links =? 2), (Seconds_0_6 <? Now sim), completed;
    cbn -[Seconds_0_6 Z.ltb Z.eqb];
    rewrite ?filter_app; cbn; rewrite ?app_nil_r; reflexivity.
Qed.

Lemma dispatch_sequencer sim e w :
  sequencer (dispatch sim e w).1 = sequencer_step sim e (sequencer w).
Proof.
  destruct e; cbn [dispatch sequencer_step].
  - apply CalculateThroughput_sequencer.
  - apply SLSCompleted_sequencer.
  - destruct macType; reflexivity.
  - unfold StationAssoicated, bind, read, when, print, modify.
    cbn [fst snd]. by destruct (negb _).
  - reflexivity.
  - reflexivity.
  - reflexivity.
  - reflexivity.
  - apply SuMimoSisoPhaseMeasurements_sequencer.
  - apply SuMimoSisoPhaseComplete_sequencer.
  - apply SuMimoMimoCandidatesSelected_sequencer.
  - apply SuMimoMimoPhaseMeasurements_sequencer.
  - apply SuMimoMimoPhaseComplete_sequencer.
  - apply DataTransmissionIntervalStarted_sequencer.
Qed.

(** ** Computations that return *)

Lemma succeeds_ret {A} (a : A) : succeeds (ret a).
Proof. intros w. by exists a. Qed.


Lemma succeeds_modify g : succeeds (modify g).
Proof. intros w. by exists tt. Qed.


Lemma succeeds_bind {A B} (c : M A) (k : A -> M B) :
  succeeds c -> (forall a, succeeds (k a)) -> succeeds (bind c k).
Proof.
  intros Hc Hk w. unfold bind. destruct (Hc w) as [a Ha].
  destruct (c w) as [w' r]; simpl in Ha; subst r. apply Hk.
Qed.


Lemma succeeds_foreach {A St} (l : list A) (body : A -> St -> M St) s :
  (forall x s, x ∈ l -> succeeds (body x s)) -> succeeds (foreach l body s).
Proof.
  revert s. induction l as [|x l IH]; intros s Hb; simpl.
  - apply succeeds_ret.
  - apply succeeds_bind; [apply Hb; left |].
    intros s'. apply IH. intros y s'' Hy. apply Hb. by right.
Qed.

(** ** Counted loops *)

(** A counted loop whose counter does not wrap before the condition fails
    runs its body on the successive values of the counter. *)
Lemma for_from_seqZ {St} wrap (k : nat) :
  forall fuel i cond (body : Z -> St -> M St) s w,
  (k < fuel)%nat ->
  (forall j, i <= j < i + Z.of_nat k -> cond j = true /\ wrap (j + 1) = j + 1) ->
  cond (i + Z.of_nat k) = false ->
  for_from wrap fuel i cond body s w = foreach (seqZ i (Z.of_nat k)) body s w.
Proof.
  induction k as [|k IH]; intros fuel i cond body s w Hfuel Hrun Hstop.
  - destruct fuel as [|fuel]; [lia |]. simpl.
    replace (i + Z.of_nat 0) with i in Hstop by lia. by rewrite Hstop.
  - destruct fuel as [|fuel]; [lia |].
    rewrite seqZ_cons by lia. simpl.
    destruct (Hrun i ltac:(lia)) as [-> ->].
    unfold bind. destruct (body i s w) as [w' [s'| | |]]; try reflexivity.
    replace (Z.pred (Z.of_nat (S k))) with (Z.of_nat k) by lia.
    replace (Z.succ i) with (i + 1) by lia.
    apply IH; [lia | |].
    + intros j Hj. apply Hrun. lia.
    + rewrite <- Hstop. f_equal. lia.
Qed.

Lemma uint8_t_small z : 0 <= z < 256 -> uint8_t z = z.
Proof. intros. unfold uint8_t. apply Z.mod_small. lia. Qed.

Lemma uint16_t_small z : 0 <= z < 65536 -> uint16_t z = z.
Proof. intros. unfold uint16_t. apply Z.mod_small. lia. Qed.

Lemma uint8_t_range z : 0 <= uint8_t z < 256.
Proof. unfold uint8_t. apply Z.mod_pos_bound. lia. Qed.

Lemma uint16_t_range z : 0 <= uint16_t z < 65536.
Proof. unfold uint16_t. apply Z.mod_pos_bound. lia. Qed.

Lemma seqZ_to_nat m n : seqZ m n = seqZ m (Z.of_nat (Z.to_nat n)).
Proof. unfold seqZ. by rewrite Nat2Z.id. Qed.


Lemma for_uint8_t_le {St} n (body : Z -> St -> M St) s w :
  n <= 254 ->
  for_uint8_t 1 (fun i => i <=? n) body s w = foreach (seqZ 1 n) body s w.
Proof.
  intros Hn. unfold for_uint8_t. rewrite (seqZ_to_nat 1 n).
  apply for_from_seqZ; [lia | |].
  - intros j Hj. split; [apply Z.leb_le; lia | apply uint8_t_small; lia].
  - apply Z.leb_gt. lia.
Qed.

Lemma for_uint16_t_lt {St} n (body : Z -> St -> M St) s w :
  n <= 65535 ->
  for_uint16_t 0 (fun i => i <? n) body s w = foreach (seqZ 0 n) body s w.
Proof.
  intros Hn. unfold for_uint16_t. rewrite (seqZ_to_nat 0 n).
  apply for_from_seqZ; [lia | |].
  - intros j Hj. split; [apply Z.ltb_lt; lia | apply uint16_t_small; lia].
  - apply Z.ltb_ge. lia.
Qed.

(** A counted loop whose condition holds at every value of the counter
    never ends, unless its body stops it. *)
Lemma for_from_diverges {St} wrap cond (body : Z -> St -> M St) :
  (forall j, cond (wrap j) = true) ->
  (forall j s, succeeds (body j s)) ->
  forall fuel i s w, cond i = true ->
  (for_from wrap fuel i cond body s w).2 = Diverges.
Proof.
  intros Hcond Hbody. induction fuel as [|fuel IH]; intros i s w Hi; simpl.
  - reflexivity.
  - rewrite Hi. unfold bind. destruct (Hbody i s w) as [s' Hs'].
    destruct (body i s w) as [w' r]; simpl in Hs'; subst r.
    apply IH, Hcond.
Qed.

(** ** Insertions into a stream *)

Lemma emit_nil stream w : emit stream [] w = w.
Proof.
  unfold emit. rewrite alter_id; [by destruct w |].
  intros x _. apply app_nil_r.
Qed.

Lemma emit_emit stream ts1 ts2 w :
  emit stream ts2 (emit stream ts1 w) = emit stream (ts1 ++ ts2) w.
Proof.
  unfold emit, set_files. destruct w; cbn. f_equal.
  rewrite alter_alter_eq. apply alter_ext. intros x _. cbn.
  by rewrite <- app_assoc.
Qed.

Lemma file_content_emit stream ts w :
  is_Some (files w !! stream) ->
  file_content stream (emit stream ts w) = file_content stream w ++ ts.
Proof.
  intros [c Hc]. unfold file_content, emit. cbn [files set_files].
  by rewrite lookup_alter_eq, Hc.
Qed.

Lemma file_content_emit_ne stream other ts w :
  stream <> other -> file_content other (emit stream ts w) = file_content other w.
Proof.
  intros Hne. unfold file_content, emit. cbn [files set_files].
  by rewrite lookup_alter_ne.
Qed.

Global Instance Closed_True : Closed (fun _ => True).
Proof. by split. Qed.

Global Instance Closed_no_endl : Closed no_endl.
Proof. split; [constructor | apply Forall_app_2]. Qed.

Global Instance Closed_and P Q : Closed P -> Closed Q -> Closed (fun ts => P ts /\ Q ts).
Proof.
  intros HP HQ. split.
  - split; apply closed_nil.
  - intros a b [? ?] [? ?]. split; by apply closed_app.
Qed.

Section Writes.
Context (stream : string) (P : list tok -> Prop) `{!Closed P}.

Lemma writes_ret {A} (a : A) : writes stream P (ret a).
Proof.
  exists [], (Done a). split; [apply closed_nil |].
  intros w. by rewrite emit_nil.
Qed.

Lemma writes_stop {A} (c : M A) (r : outcome A) :
  (forall w, c w = (w, r)) -> writes stream P c.
Proof.
  intros Hc. exists [], r. split; [apply closed_nil |].
  intros w. by rewrite emit_nil.
Qed.

Lemma writes_write ts : P ts -> writes stream P (write stream ts).
Proof. intros Hts. by exists ts, (Done tt). Qed.

Lemma writes_bind {A B} (c : M A) (k : A -> M B) :
  writes stream P c -> (forall a, writes stream P (k a)) ->
  writes stream P (bind c k).
Proof.
  intros (ts & r & Hts & Hc) Hk. destruct r as [a| | |].
  - destruct (Hk a) as (ts' & r' & Hts' & Hka).
    exists (ts ++ ts'), r'. split; [by apply closed_app |].
    intros w. unfold bind. by rewrite Hc, Hka, emit_emit.
  - exists ts, Throws_out_of_range. split; [done |].
    intros w. unfold bind. by rewrite Hc.
  - exists ts, Undefined. split; [done |].
    intros w. unfold bind. by rewrite Hc.
  - exists ts, Diverges. split; [done |].
    intros w. unfold bind. by rewrite Hc.
Qed.

Lemma writes_at {A} (v : list A) i : writes stream P (at_ v i).
Proof.
  unfold at_. destruct (if 0 <=? i then v !! Z.to_nat i else None);
    [apply writes_ret | by eapply writes_stop].
Qed.

Lemma writes_udiv a b : writes stream P (udiv a b).
Proof.
  unfold udiv. destruct (b =? 0); [by eapply writes_stop | apply writes_ret].
Qed.

Lemma writes_begin_second {K V} (m : list (K * V)) :
  writes stream P (begin_second m).
Proof. destruct m; [by eapply writes_stop | apply writes_ret]. Qed.

Lemma writes_pq_top q : writes stream P (pq_top q).
Proof. destruct q; [by eapply writes_stop | apply writes_ret]. Qed.

Lemma writes_foreach {A St} (l : list A) (body : A -> St -> M St) s :
  (forall x s, writes stream P (body x s)) -> writes stream P (foreach l body s).
Proof.
  intros Hb. revert s. induction l as [|x l IH]; intros s; simpl.
  - apply writes_ret.
  - apply writes_bind; [apply Hb | intros; apply IH].
Qed.

Lemma writes_for_from {St} wrap fuel i cond (body : Z -> St -> M St) s :
  (forall i s, writes stream P (body i s)) ->
  writes stream P (for_from wrap fuel i cond body s).
Proof.
  intros Hb. revert i s. induction fuel as [|fuel IH]; intros i s; simpl.
  - by eapply writes_stop.
  - destruct (cond i); [| apply writes_ret].
    apply writes_bind; [apply Hb | intros; apply IH].
Qed.

Lemma writes_for_uint8_t {St} i cond (body : Z -> St -> M St) s :
  (forall i s, writes stream P (body i s)) ->
  writes stream P (for_uint8_t i cond body s).
Proof. apply writes_for_from. Qed.

Lemma writes_for_uint16_t {St} i cond (body : Z -> St -> M St) s :
  (forall i s, writes stream P (body i s)) ->
  writes stream P (for_uint16_t i cond body s).
Proof. apply writes_for_from. Qed.

Lemma writes_while fuel q body :
  (forall q, writes stream P (body q)) ->
  writes stream P (while_not_empty fuel q body).
Proof.
  intros Hb. revert q. induction fuel as [|fuel IH]; intros q; simpl.
  - by eapply writes_stop.
  - destruct (pq_empty q); [apply writes_ret |].
    apply writes_bind; [apply Hb | intros; apply IH].
Qed.
End Writes.

(** The loops of a callback insert into its stream; [tac] proves the
    property of what one statement inserts. *)
Ltac writes_tac tac :=
  repeat match goal with
    | |- forall _, _ => intro
    | |- writes _ _ (bind _ _) => apply writes_bind
    | |- writes _ _ (ret _) => apply writes_ret
    | |- writes _ _ (at_ _ _) => apply writes_at
    | |- writes _ _ (udiv _ _) => apply writes_udiv
    | |- writes _ _ (begin_second _) => apply writes_begin_second
    | |- writes _ _ (pq_top _) => apply writes_pq_top
    | |- writes _ _ (foreach _ _ _) => apply writes_foreach
    | |- writes _ _ (for_uint8_t _ _ _ _) => apply writes_for_uint8_t
    | |- writes _ _ (for_uint16_t _ _ _ _) => apply writes_for_uint16_t
    | |- writes _ _ (while_not_empty _ _ _) => apply writes_while
    | |- writes _ _ (write _ _) => apply writes_write; tac
    | |- writes _ _ _ => progress cbv zeta
    | |- Closed _ => solve [typeclasses eauto]
    end.

Lemma writes_succeeds {A} stream P (c : M A) :
  writes stream P c -> succeeds c ->
  exists ts a, P ts /\ forall w, c w = (emit stream ts w, Done a).
Proof.
  intros (ts & r & Hts & Hc) Hs.
  destruct (Hs (initial_world
    {| csv := false; kBestCombinations := 0; numberOfTxCombinationsRequested := 0;
       useAwvs := false; tracesFolder := EmptyString |})) as [a Ha].
  rewrite Hc in Ha. simpl in Ha. subst r. by exists ts, a.
Qed.

(** ** Lines and columns *)

Lemma lines_from_app cur a b :
  lines_from cur (a ++ b) = lines_from cur a ++ lines_from (pending_from cur a) b.
Proof.
  revert cur. induction a as [|t a IH]; intros cur; simpl; [done |].
  destruct (is_Endl t); simpl; by rewrite IH.
Qed.

Lemma pending_from_app cur a b :
  pending_from cur (a ++ b) = pending_from (pending_from cur a) b.
Proof.
  revert cur. induction a as [|t a IH]; intros cur; simpl; [done |].
  destruct (is_Endl t); by rewrite IH.
Qed.

Lemma lines_from_no_endl cur ts : no_endl ts -> lines_from cur ts = [].
Proof.
  intros H. revert cur. induction H as [|t ts Ht _ IH]; intros cur; simpl; [done |].
  by rewrite Ht.
Qed.

Lemma pending_from_no_endl cur ts : no_endl ts -> pending_from cur ts = cur ++ ts.
Proof.
  intros H. revert cur. induction H as [|t ts Ht _ IH]; intros cur; simpl.
  - by rewrite app_nil_r.
  - rewrite Ht, IH. by rewrite <- app_assoc.
Qed.

Lemma lines_from_row cur l : no_endl l -> lines_from cur (l ++ [Endl]) = [cur ++ l].
Proof.
  intros H.
  rewrite lines_from_app, (lines_from_no_endl cur l), (pending_from_no_endl cur l)
    by done.
  reflexivity.
Qed.

Lemma pending_from_row cur l : no_endl l -> pending_from cur (l ++ [Endl]) = [].
Proof.
  intros H. rewrite pending_from_app, (pending_from_no_endl cur l) by done.
  reflexivity.
Qed.

Lemma last_column_app a b :
  last_column (a ++ b) = fold_left last_column_step b (last_column a).
Proof. unfold last_column. apply fold_left_app. Qed.

Lemma last_column_after_comma cur l :
  last_column cur = [] -> last_column (cur ++ l) = last_column l.
Proof. intros H. by rewrite last_column_app, H. Qed.

Global Instance Closed_table_inv R : Closed (table_inv R).
Proof.
  split.
  - intros cur Hcur. simpl. by split; [constructor |].
  - intros a b Ha Hb cur Hcur.
    destruct (Ha cur Hcur) as [Ha1 Ha2].
    destruct (Hb _ Ha2) as [Hb1 Hb2].
    rewrite lines_from_app, pending_from_app. split; [by apply Forall_app_2 | done].
Qed.

Lemma table_inv_row Q l :
  no_endl l -> Q (last_column l) -> table_inv (ends_with Q) (l ++ [Endl]).
Proof.
  intros Hl HQ cur Hcur. rewrite lines_from_row, pending_from_row by done.
  split; [| done]. constructor; [| constructor].
  unfold ends_with. by rewrite last_column_after_comma.
Qed.

Lemma table_inv_cells R l :
  no_endl l -> last_column l = [] -> table_inv R l.
Proof.
  intros Hl Hc cur Hcur. rewrite lines_from_no_endl, pending_from_no_endl by done.
  split; [constructor |]. by rewrite last_column_after_comma.
Qed.


(** ** Stepping through a callback *)

Lemma bind_print ts {B} (k : unit -> M B) w :
  bind (print ts) k w = k tt (set_cout (cout w ++ ts) w).
Proof. reflexivity. Qed.

Lemma bind_read {A B} (g : World -> A) (k : A -> M B) w :
  bind (read g) k w = k (g w) w.
Proof. reflexivity. Qed.

Lemma bind_create_out name {B} (k : string -> M B) w :
  bind (CreateFileStream name ios_out) k w
  = k name (set_files (<[name := []]> (files w)) w).
Proof. reflexivity. Qed.

Lemma bind_write stream ts {B} (k : unit -> M B) w :
  bind (write stream ts) k w = k tt (emit stream ts w).
Proof. reflexivity. Qed.

Lemma bind_call c {B} (k : unit -> M B) w :
  bind (call c) k w = k tt (set_calls (calls w ++ [c]) w).
Proof. reflexivity. Qed.

Lemma bind_emits {A B} (c : M A) (k : A -> M B) stream ts a w :
  (forall w, c w = (emit stream ts w, Done a)) ->
  bind c k w = k a (emit stream ts w).
Proof. intros H. unfold bind. by rewrite H. Qed.

Ltac mstep :=
  first [ rewrite bind_print | rewrite bind_read | rewrite bind_create_out
        | rewrite bind_write | rewrite bind_call ];
  cbv beta.

(** ** Runs and the sequencer *)

Lemma run_invariant (P : Sequencer -> Prop) :
  (forall sim e s, P s -> P (sequencer_step sim e s)) ->
  forall evs w, P (sequencer w) -> P (sequencer (run evs w).1).
Proof.
  intros Hstep. induction evs as [|[sim e] evs IH]; intros w Hw; simpl; [done |].
  unfold bind. pose proof (dispatch_sequencer sim e w) as Hd.
  destruct (dispatch sim e w) as [w1 r]; simpl in Hd.
  assert (P (sequencer w1)) by (rewrite Hd; by apply Hstep).
  destruct r; simpl; auto.
Qed.

Lemma boot_sequencer opts arrayConfig activateApp :
  sequencer (boot opts arrayConfig activateApp)
  = {| seq_options := opts; seq_links := 0; seq_firstDti := true;
       seq_completed := false; seq_starts := []; seq_txss := [] |}.
Proof.
  unfold boot.
  assert (preserves sequencer (connect_traces arrayConfig activateApp)) as ->.
  { unfold connect_traces. preserves_tac. }
  reflexivity.
Qed.

Lemma dti_sweeps_cons e evs :
  dti_sweeps (e :: evs) = (if is_dti_sweep e then 1 else 0) + dti_sweeps evs.
Proof.
  unfold dti_sweeps. rewrite filter_cons. case_decide as H.
  - rewrite H. simpl length. lia.
  - destruct (is_dti_sweep e); [done | lia].
Qed.

Lemma uint8_t_succ_add a n : uint8_t (uint8_t (a + 1) + n) = uint8_t (a + (1 + n)).
Proof.
  unfold uint8_t. rewrite Z.add_mod_idemp_l by lia. f_equal. lia.
Qed.

(** With CSV output off, the counter of a run whose callbacks all returned
    is the number of sector sweeps completed in the DTI, modulo 256. *)
Lemma run_beamformedLinks evs :
  forall w,
  csv (options w) = false -> 0 <= beamformedLinks w < 256 ->
  (run evs w).2 = Done tt ->
  beamformedLinks (run evs w).1 = uint8_t (beamformedLinks w + dti_sweeps evs).
Proof.
  induction evs as [|[sim e] evs IH]; intros w Hcsv Hrange Hdone.
  - simpl. change (dti_sweeps []) with 0. rewrite uint8_t_small; lia.
  - simpl in *. unfold bind in *.
    pose proof (dispatch_sequencer sim e w) as Hd.
    destruct (dispatch sim e w) as [w1 r]; simpl in Hd.
    destruct r; simpl in Hdone; try discriminate.
    assert (options w1 = options w) as Ho.
    { change (seq_options (sequencer w1) = options w). rewrite Hd. by destruct e. }
    assert (beamformedLinks w1
            = if is_dti_sweep (sim, e) then uint8_t (beamformedLinks w + 1)
              else beamformedLinks w) as Hl.
    { change (beamformedLinks w1) with (seq_links (sequencer w1)). rewrite Hd.
      destruct e; try reflexivity. cbn -[uint8_t]. by rewrite Hcsv. }
    rewrite dti_sweeps_cons, IH; [| by rewrite Ho | | done].
    + rewrite Hl. destruct (is_dti_sweep (sim, e)).
      * apply uint8_t_succ_add.
      * f_equal.
    + rewrite Hl. destruct (is_dti_sweep (sim, e)); [apply uint8_t_range | done].
Qed.

Lemma DataTransmissionIntervalStarted_calls sim mac address dtiDuration w :
  new_calls (DataTransmissionIntervalStarted sim mac address dtiDuration) w
  = (if IsAssociated mac && firstDti w
     then [Perform_TXSS_TXOP (GetAddress mac) (GetBssid mac)] else [])
    ++ (if trigger sim (sequencer w)
        then [Schedule_StartSuMimoBeamforming (MicroSeconds 3) (GetAddress mac)
                (GetBssid mac) true (GetTotalAntennaIdList mac) false]
        else []).
Proof.
  destruct w as [o links first completed st fl co ca].
  unfold new_calls, DataTransmissionIntervalStarted, trigger, bind, read,
    modify, when, print, call, ret, sequencer.
  cbn -[Seconds_0_6 Z.ltb Z.eqb].
  destruct (IsAssociated mac), first; cbn -[Seconds_0_6 Z.ltb Z.eqb];
    destruct (links =? 2), (Seconds_0_6 <? Now sim), completed;
    cbn -[Seconds_0_6 Z.ltb Z.eqb];
    rewrite <- ?app_assoc, ?drop_app_length, ?drop_all; reflexivity.
Qed.

Lemma initiates_trigger sim mac address dtiDuration w :
  initiates sim mac address dtiDuration w = trigger sim (sequencer w).
Proof.
  unfold initiates. rewrite DataTransmissionIntervalStarted_calls.
  rewrite existsb_app.
  destruct (IsAssociated mac && firstDti w), (trigger sim (sequencer w)); reflexivity.
Qed.

Lemma trigger_spec sim s :
  trigger sim s = true
  <-> seq_links s = 2 /\ Seconds_0_6 < Now sim /\ seq_completed s = false.
Proof.
  unfold trigger.
  rewrite !andb_true_iff, Z.eqb_eq, Z.ltb_lt, negb_true_iff. tauto.
Qed.

(** ** The tables the callbacks write *)

Ltac no_endl_tac := repeat constructor.

(** Cells inserted inside a line, the last of them ending with a comma. *)
Ltac cells_tac := apply table_inv_cells; [no_endl_tac | reflexivity].

(** A whole line, closed by [std::endl], with the property of its trailing
    column. *)
Ltac column_tac :=
  first [ reflexivity | left; reflexivity | right; reflexivity
        | right; eexists; reflexivity ].

Ltac row_tac :=
  match goal with
  | |- table_inv _ ?ts =>
      let l := eval cbn [removelast] in (removelast ts) in
      apply (table_inv_row _ l); [no_endl_tac | column_tac]
  end.

Ltac table_tac := first [cells_tac | row_tac].

Ltac cells_only_tac := split; [no_endl_tac | cells_tac].



Lemma siso_feedback_rows_writes sim parameters stream feedbackMap :
  writes stream (table_inv (ends_with (timestamp_column sim)))
    (siso_feedback_rows sim parameters stream feedbackMap).
Proof. unfold siso_feedback_rows. writes_tac table_tac. Qed.


Lemma mimo_header_cells_writes R stream nTx nRx :
  writes stream (fun ts => no_endl ts /\ table_inv R ts)
    (mimo_header_cells stream nTx nRx).
Proof. unfold mimo_header_cells. writes_tac cells_only_tac. Qed.

Lemma mimo_row_cells_writes R sim parameters from mm nTx nRx rct stream awvId :
  writes stream (fun ts => no_endl ts /\ table_inv R ts)
    (mimo_row_cells sim parameters from mm nTx nRx rct stream awvId).
Proof. unfold mimo_row_cells. writes_tac cells_only_tac. Qed.



(** ** What a callback leaves in its table *)

Lemma file_content_fresh stream ts w :
  file_content stream (emit stream ts (set_files (<[stream := []]> (files w)) w)) = ts.
Proof.
  rewrite file_content_emit.
  - unfold file_content. cbn [files set_files]. by rewrite lookup_insert_eq.
  - cbn [files set_files]. rewrite lookup_insert_eq. by eexists.
Qed.







Lemma SLSCompleted_files sim stream parameters attributes w :
  files (SLSCompleted sim stream parameters attributes w).1
  = files (emit stream (sls_row sim parameters attributes ++ [Endl]) w).
Proof.
  unfold SLSCompleted. mstep. mstep.
  cbn [options emit set_files]. destruct (csv (options w)); [reflexivity |].
  cbn [negb when]. do 3 mstep.
  destruct (is_DTI (accessPeriod attributes)); reflexivity.
Qed.


(** ** The candidates tables *)

Lemma bind_snd_Done {A B} (c : M A) (k : A -> M B) w a :
  (c w).2 = Done a -> bind c k w = k a (c w).1.
Proof. unfold bind. destruct (c w) as [w' r]. simpl. by intros ->. Qed.

Lemma bind_snd_Diverges {A B} (c : M A) (k : A -> M B) w :
  (c w).2 = Diverges -> (bind c k w).2 = Diverges.
Proof. unfold bind. destruct (c w) as [w' r]. simpl. by intros ->. Qed.

Lemma succeeds_at {A} (v : list A) i :
  0 <= i < Z.of_nat (length v) -> succeeds (at_ v i).
Proof.
  intros Hi w. unfold at_. destruct (Z.leb_spec 0 i); [| lia].
  destruct (lookup_lt_is_Some_2 v (Z.to_nat i)) as [x ->]; [lia |].
  by exists x.
Qed.

Lemma at_Done_inv {A} (v : list A) i w x :
  (at_ v i w).2 = Done x -> 0 <= i < Z.of_nat (length v).
Proof.
  unfold at_. destruct (Z.leb_spec 0 i); [| done].
  destruct (v !! Z.to_nat i) eqn:Hl; [| done].
  apply lookup_lt_Some in Hl. lia.
Qed.

Lemma succeeds_for_uint8_t_le {St} n (body : Z -> St -> M St) s :
  n <= 254 -> (forall i s, succeeds (body i s)) ->
  succeeds (for_uint8_t 1 (fun i => i <=? n) body s).
Proof.
  intros Hn Hb w. rewrite for_uint8_t_le by done.
  apply succeeds_foreach. auto.
Qed.

Lemma succeeds_for_uint16_t_lt {St} n (body : Z -> St -> M St) s :
  n <= 65535 -> (forall i s, 0 <= i < n -> succeeds (body i s)) ->
  succeeds (for_uint16_t 0 (fun i => i <? n) body s).
Proof.
  intros Hn Hb w. rewrite for_uint16_t_lt by done.
  apply succeeds_foreach. intros i s' Hi. apply Hb.
  apply elem_of_seqZ in Hi. lia.
Qed.

Lemma succeeds_bind_ret {A B} (a : A) (k : A -> M B) :
  succeeds (k a) -> succeeds (bind (ret a) k).
Proof. intros Hk w. apply Hk. Qed.

Lemma uint16_t_le z : 0 <= z -> uint16_t z <= z.
Proof. intros. unfold uint16_t. apply Z.mod_le; lia. Qed.

Lemma candidates_table_returns sim parameters stream n candidates :
  candidates_ok candidates -> n <= 254 ->
  succeeds (candidates_table sim parameters stream n candidates).
Proof.
  intros Hok Hn. destruct candidates as [|first rest]; [done |].
  unfold candidates_ok in Hok. unfold candidates_table.
  apply succeeds_bind; [apply succeeds_modify | intros _].
  apply succeeds_bind.
  { apply succeeds_for_uint8_t_le; [done |]. intros. apply succeeds_modify. }
  intros _. apply succeeds_bind; [apply succeeds_modify | intros _].
  apply succeeds_bind_ret. cbv zeta.
  apply succeeds_for_uint16_t_lt;
    [pose proof (uint16_t_range (Z.of_nat (length first.2))); lia |].
  intros i [] Hi.
  apply succeeds_bind; [apply succeeds_modify | intros _].
  apply succeeds_bind; [| intros _; apply succeeds_modify].
  apply succeeds_foreach. intros it [] Hit.
  apply succeeds_bind; [| intros; apply succeeds_modify].
  apply succeeds_at.
  rewrite Forall_forall in Hok. specialize (Hok it Hit).
  pose proof (uint16_t_le (Z.of_nat (length first.2))). lia.
Qed.

Lemma candidates_table_diverges sim parameters stream n candidates w :
  255 <= n ->
  (candidates_table sim parameters stream n candidates w).2 = Diverges.
Proof.
  intros Hn. unfold candidates_table. rewrite bind_write.
  apply bind_snd_Diverges. unfold for_uint8_t. apply for_from_diverges.
  - intros j. apply Z.leb_le. pose proof (uint8_t_range j). lia.
  - intros. apply succeeds_modify.
  - apply Z.leb_le. lia.
Qed.

Lemma candidates_table_empty sim parameters stream n w :
  n <= 254 ->
  (candidates_table sim parameters stream n [] w).2 = Undefined.
Proof.
  intros Hn. unfold candidates_table. rewrite bind_write.
  destruct (succeeds_for_uint8_t_le n
    (fun i (_ : unit) =>
       write stream [Lit "ANTENNA_ID"; Num (uint16_t i);
                     Lit ",SECTOR_ID"; Num (uint16_t i); Lit ","]) tt Hn
    ltac:(intros; apply succeeds_modify)
    (emit stream [Lit "SRC_ID,DST_ID,TRACE_IDX,"] w)) as [[] Hloop].
  rewrite (bind_snd_Done _ _ _ tt) by done.
  reflexivity.
Qed.

(** If the table is written to its end, the map is not empty and every
    sector list has an entry for every row. *)
Lemma foreach_Done_inv {A St} (l : list A) (body : A -> St -> M St) :
  forall s w s', (foreach l body s w).2 = Done s' ->
  forall x, x ∈ l -> exists s1 w1 s2, (body x s1 w1).2 = Done s2.
Proof.
  induction l as [|y l IH]; intros s w s' Hdone x Hx; [by apply elem_of_nil in Hx |].
  simpl in Hdone. unfold bind in Hdone.
  destruct (body y s w) as [w1 r] eqn:Hy. destruct r as [s1| | |]; try done.
  apply elem_of_cons in Hx as [-> | Hx].
  - exists s, w, s1. by rewrite Hy.
  - by eapply IH.
Qed.

Lemma bind_Done_inv {A B} (c : M A) (k : A -> M B) w b :
  (bind c k w).2 = Done b ->
  exists a, (c w).2 = Done a /\ (k a (c w).1).2 = Done b.
Proof.
  unfold bind. destruct (c w) as [w' r]. destruct r as [a| | |]; try done.
  intros H. by exists a.
Qed.

Lemma candidates_table_Done_inv sim parameters stream n candidates w :
  (candidates_table sim parameters stream n candidates w).2 = Done tt ->
  candidates_fit candidates.
Proof.
  unfold candidates_table, candidates_fit. intros H.
  apply bind_Done_inv in H as ([] & _ & H).
  apply bind_Done_inv in H as ([] & _ & H).
  apply bind_Done_inv in H as ([] & _ & H).
  apply bind_Done_inv in H as (sectors & Hb & H).
  destruct candidates as [|first rest]; [done |].
  simpl in Hb. injection Hb as <-. cbv zeta in H.
  pose proof (uint16_t_range (Z.of_nat (length first.2))) as Hr.
  rewrite for_uint16_t_lt in H by lia.
  apply Forall_forall. intros it Hit.
  destruct (Z.eq_dec (uint16_t (Z.of_nat (length first.2))) 0) as [-> | Hnz]; [lia |].
  destruct (foreach_Done_inv _ _ _ _ _ H (uint16_t (Z.of_nat (length first.2)) - 1))
    as ([] & w1 & [] & Hrow).
  { apply elem_of_seqZ. lia. }
  apply bind_Done_inv in Hrow as ([] & _ & Hrow).
  apply bind_Done_inv in Hrow as ([] & Hcells & _).
  destruct (foreach_Done_inv _ _ _ _ _ Hcells it Hit) as ([] & w2 & [] & Hcell).
  apply bind_Done_inv in Hcell as (sector & Hat & _).
  apply at_Done_inv in Hat. lia.
Qed.

Lemma bind_eq {A B} (c : M A) (k : A -> M B) w w' r :
  c w = (w', r) ->
  bind c k w = match r with
               | Done a => k a w'
               | Throws_out_of_range => (w', Throws_out_of_range)
               | Undefined => (w', Undefined)
               | Diverges => (w', Diverges)
               end.
Proof. intros H. unfold bind. by rewrite H. Qed.

Lemma bind_snd_Undefined {A B} (c : M A) (k : A -> M B) w :
  (c w).2 = Undefined -> (bind c k w).2 = Undefined.
Proof. unfold bind. destruct (c w) as [w' r]. simpl. by intros ->. Qed.

Lemma candidates_files_differ folder parameters :
  mimo_tx_candidates_file folder parameters <> mimo_rx_candidates_file folder parameters.
Proof.
  unfold mimo_tx_candidates_file, mimo_rx_candidates_file. intros H.
  apply String.app_inj in H. discriminate H.
Qed.



Lemma file_content_set_files_ne stream other c w :
  stream <> other ->
  file_content other (set_files (<[stream := c]> (files w)) w) = file_content other w.
Proof.
  intros Hne. unfold file_content. cbn [files set_files]. by rewrite lookup_insert_ne.
Qed.






(** ** Draining the priority queue *)

Lemma elt_lt_true_le a b : elt_lt a b = true -> (a.1 <= b.1)%Q.
Proof.
  unfold elt_lt, double_lt. intros H.
  apply orb_true_iff in H as [H | H].
  - apply negb_true_iff in H. apply Qlt_le_weak, Qnot_le_lt.
    intros Hle. apply Qle_bool_iff in Hle. congruence.
  - apply andb_true_iff in H as [H _]. rewrite negb_involutive in H.
    by apply Qle_bool_iff.
Qed.

Lemma elt_lt_false_le a b : elt_lt a b = false -> (b.1 <= a.1)%Q.
Proof.
  unfold elt_lt, double_lt. intros H.
  apply orb_false_iff in H as [H _]. apply negb_false_iff in H.
  by apply Qle_bool_iff.
Qed.

Lemma extract_max_length x l : length (extract_max x l).2 = length l.
Proof.
  revert x. induction l as [|y l IH]; intros x; simpl; [done |].
  destruct (elt_lt x y).
  - specialize (IH y). destruct (extract_max y l). simpl in *. by rewrite IH.
  - specialize (IH x). destruct (extract_max x l). simpl in *. by rewrite IH.
Qed.

Lemma extract_max_perm x l : (extract_max x l).1 :: (extract_max x l).2 ≡ₚ x :: l.
Proof.
  revert x. induction l as [|y l IH]; intros x; simpl; [done |].
  destruct (elt_lt x y).
  - specialize (IH y). destruct (extract_max y l) as [m r]. simpl in *.
    etrans; [apply Permutation_swap |]. by f_equiv.
  - specialize (IH x). destruct (extract_max x l) as [m r]. simpl in *.
    etrans; [apply Permutation_swap |]. etrans; [| apply Permutation_swap].
    by f_equiv.
Qed.

(** The top of the queue has the greatest key. *)
Lemma extract_max_ge x l y :
  y ∈ x :: l -> (y.1 <= (extract_max x l).1.1)%Q.
Proof.
  revert x y. induction l as [|z l IH]; intros x y Hy; simpl.
  - apply list_elem_of_singleton in Hy as ->. apply Qle_refl.
  - destruct (elt_lt x z) eqn:Hlt.
    + pose proof (IH z) as IHz. destruct (extract_max z l) as [m r]. simpl in *.
      apply elem_of_cons in Hy as [-> | Hy]; [| by apply IHz].
      eapply Qle_trans; [by apply elt_lt_true_le |]. apply IHz. left.
    + pose proof (IH x) as IHx. destruct (extract_max x l) as [m r]. simpl in *.
      apply elem_of_cons in Hy as [-> | Hy]; [apply IHx; left |].
      apply elem_of_cons in Hy as [-> | Hy]; [| apply IHx; by right].
      eapply Qle_trans; [by apply elt_lt_false_le |]. apply IHx. left.
Qed.

Lemma drain_perm fuel : forall q, (length q <= fuel)%nat -> drain fuel q ≡ₚ q.
Proof.
  induction fuel as [|fuel IH]; intros q Hq.
  - destruct q; [done | simpl in Hq; lia].
  - destruct q as [|x l]; [done |]. simpl.
    rewrite IH by (rewrite extract_max_length; simpl in Hq; lia).
    apply extract_max_perm.
Qed.

Lemma non_increasing_nil : non_increasing [].
Proof. intros i j x y _ Hi. by rewrite lookup_nil in Hi. Qed.

Lemma non_increasing_cons x l :
  (forall y, y ∈ l -> (y <= x)%Q) -> non_increasing l -> non_increasing (x :: l).
Proof.
  intros Hx Hl i j a b Hij Hi Hj. destruct i as [|i], j as [|j]; simpl in *.
  - injection Hi as <-. injection Hj as <-. apply Qle_refl.
  - injection Hi as <-. apply Hx. by eapply list_elem_of_lookup_2.
  - lia.
  - eapply Hl; [| done | done]. lia.
Qed.

Lemma non_increasing_take n l : non_increasing l -> non_increasing (take n l).
Proof.
  intros Hl i j a b Hij Hi Hj.
  apply lookup_take_Some in Hi as [Hi _]. apply lookup_take_Some in Hj as [Hj _].
  by eapply Hl.
Qed.

Lemma non_increasing_map (f : double -> double) l :
  (forall x y, (x <= y)%Q -> (f x <= f y)%Q) ->
  non_increasing l -> non_increasing (map f l).
Proof.
  intros Hf Hl i j a b Hij Hi Hj.
  apply list_lookup_fmap_Some in Hi as (a' & -> & Hi).
  apply list_lookup_fmap_Some in Hj as (b' & -> & Hj).
  apply Hf. by eapply Hl.
Qed.

(** The keys come out of the queue in an order that never increases. *)
Lemma drain_non_increasing fuel :
  forall q, (length q <= fuel)%nat -> non_increasing (map fst (drain fuel q)).
Proof.
  induction fuel as [|fuel IH]; intros q Hq; [apply non_increasing_nil |].
  destruct q as [|x l]; [apply non_increasing_nil |]. simpl.
  assert (length (extract_max x l).2 <= fuel)%nat as Hlen
    by (rewrite extract_max_length; simpl in Hq; lia).
  apply non_increasing_cons; [| by apply IH].
  intros k Hk. apply list_elem_of_fmap in Hk as (y & -> & Hy).
  apply extract_max_ge. rewrite <- extract_max_perm. right.
  by rewrite <- (drain_perm fuel).
Qed.

Lemma drained_keys_cons x l :
  drained_keys (x :: l) = (extract_max x l).1.1 :: drained_keys (extract_max x l).2.
Proof. unfold drained_keys. simpl. by rewrite extract_max_length. Qed.

(** One turn of the draining loop writes the row of the greatest element
    and closes it with the key of that element, or stops inside the row. *)
Lemma mimo_row_spec sim parameters from mm nTx nRx rct stream x l :
  exists cells (r : outcome unit),
    no_endl cells /\
    forall w,
      mimo_row sim parameters from mm nTx nRx rct stream (x :: l) w
      = match r with
        | Done _ =>
            (emit stream (cells ++ [Db (extract_max x l).1.1; Endl]) w,
             Done (extract_max x l).2)
        | Throws_out_of_range => (emit stream cells w, Throws_out_of_range)
        | Undefined => (emit stream cells w, Undefined)
        | Diverges => (emit stream cells w, Diverges)
        end.
Proof.
  destruct (mimo_row_cells_writes (fun _ => True) sim parameters from mm nTx nRx rct
              stream (extract_max x l).1.2) as (cells & r & [Hcells _] & Hc).
  exists cells, r. split; [done |]. intros w.
  unfold mimo_row.
  change (pq_top (x :: l)) with (@ret SNR_MEASUREMENT_AWV_IDs (extract_max x l).1).
  change (bind (ret ?a) ?k w) with (k a w). cbv beta.
  rewrite (bind_eq _ _ _ _ _ (Hc w)). destruct r; try reflexivity.
  change (bind (ret ?a) ?k ?w') with (k a w'). cbv beta.
  rewrite bind_write. unfold ret. by rewrite emit_emit.
Qed.

Lemma lines_of_row cells k ts :
  no_endl cells ->
  lines_of ((cells ++ [Db k; Endl]) ++ ts) = (cells ++ [Db k]) :: lines_of ts.
Proof.
  intros Hc. unfold lines_of.
  assert (no_endl (cells ++ [Db k])) as Hrow
    by (apply Forall_app_2; [done | repeat constructor]).
  change [Db k; Endl] with ([Db k] ++ [Endl]).
  rewrite (app_assoc cells), lines_from_app, lines_from_row, pending_from_row by done.
  reflexivity.
Qed.

Lemma min_snr_column_row cells k ls :
  min_snr_column ((cells ++ [Db k]) :: ls) = k :: min_snr_column ls.
Proof. unfold min_snr_column. simpl. by rewrite last_snoc. Qed.

(** The draining loop writes the rows in the order of [drain]: all of them
    if it ends, a first part of them if a row stops it. *)
Lemma mimo_rows_spec sim parameters from mm nTx nRx rct stream fuel :
  forall q, (length q < fuel)%nat ->
  exists ts r,
    (forall w,
       while_not_empty fuel q (mimo_row sim parameters from mm nTx nRx rct stream) w
       = (emit stream ts w, r))
    /\ (exists n, min_snr_column (lines_of ts) = take n (drained_keys q))
    /\ (r = Done tt -> min_snr_column (lines_of ts) = drained_keys q).
Proof.
  induction fuel as [|fuel IH]; intros q Hq; [lia |].
  destruct q as [|x l].
  - exists [], (Done tt). split; [| split].
    + intros w. simpl. by rewrite emit_nil.
    + by exists 0%nat.
    + done.
  - destruct (mimo_row_spec sim parameters from mm nTx nRx rct stream x l)
      as (cells & r & Hcells & Hrow).
    destruct r as [[]| | |].
    + destruct (IH (extract_max x l).2) as (ts & r & Hloop & [n Hn] & Hall).
      { rewrite extract_max_length. simpl in Hq. lia. }
      exists ((cells ++ [Db (extract_max x l).1.1; Endl]) ++ ts), r.
      rewrite lines_of_row, min_snr_column_row, drained_keys_cons by done.
      split; [| split].
      * intros w. simpl. rewrite (bind_eq _ _ _ _ _ (Hrow w)).
        by rewrite Hloop, emit_emit.
      * exists (S n). simpl. by rewrite Hn.
      * intros Hr. by rewrite Hall.
    + exists cells, Throws_out_of_range. split; [| split].
      * intros w. simpl. by rewrite (bind_eq _ _ _ _ _ (Hrow w)).
      * exists 0%nat. unfold lines_of. by rewrite lines_from_no_endl.
      * done.
    + exists cells, Undefined. split; [| split].
      * intros w. simpl. by rewrite (bind_eq _ _ _ _ _ (Hrow w)).
      * exists 0%nat. unfold lines_of. by rewrite lines_from_no_endl.
      * done.
    + exists cells, Diverges. split; [| split].
      * intros w. simpl. by rewrite (bind_eq _ _ _ _ _ (Hrow w)).
      * exists 0%nat. unfold lines_of. by rewrite lines_from_no_endl.
      * done.
Qed.

Lemma lines_of_header pre ts :
  no_endl pre ->
  lines_of ((pre ++ [Lit "min_Stream_SNR"; Endl]) ++ ts)
  = (pre ++ [Lit "min_Stream_SNR"]) :: lines_of ts.
Proof.
  intros Hc. unfold lines_of.
  assert (no_endl (pre ++ [Lit "min_Stream_SNR"])) as Hrow
    by (apply Forall_app_2; [done | repeat constructor]).
  change [Lit "min_Stream_SNR"; Endl] with ([Lit "min_Stream_SNR"] ++ [Endl]).
  rewrite (app_assoc pre), lines_from_app, lines_from_row, pending_from_row by done.
  reflexivity.
Qed.

(** The rows [SuMimoMimoPhaseMeasurements] leaves in its table. *)
Lemma SuMimoMimoPhaseMeasurements_rows sim parameters from mm minSnr d nTx nRx rct w :
  exists ls,
    rows (mimo_measurements_file (tracesFolder (options w)) parameters)
      (SuMimoMimoPhaseMeasurements sim parameters from mm minSnr d nTx nRx rct w).1
    = ls
    /\ (exists n, min_snr_column ls = take n (drained_keys minSnr))
    /\ ((SuMimoMimoPhaseMeasurements sim parameters from mm minSnr d nTx nRx rct w).2
        = Done tt -> min_snr_column ls = drained_keys minSnr).
Proof.
  set (h := mimo_measurements_file (tracesFolder (options w)) parameters).
  destruct (mimo_header_cells_writes (fun _ => True) h nTx nRx)
    as (pre & r0 & [Hpre _] & Hheader).
  destruct (mimo_rows_spec sim parameters from mm nTx nRx rct h (S (length minSnr))
              minSnr ltac:(lia)) as (ts & r & Hloop & Hn & Hall).
  eexists. split; [reflexivity |].
  unfold SuMimoMimoPhaseMeasurements, rows. do 3 mstep. cbn [options files set_cout].
  fold h. rewrite (bind_eq _ _ _ _ _ (Hheader _)).
  destruct r0 as [[]| | |].
  - rewrite bind_write, Hloop, !emit_emit. cbn [fst snd].
    rewrite (file_content_fresh h _ (set_cout _ w)), app_assoc, lines_of_header by done.
    by split.
  - cbn [fst snd]. rewrite (file_content_fresh h _ (set_cout _ w)).
    unfold lines_of. rewrite lines_from_no_endl by done. split; [by exists 0%nat | done].
  - cbn [fst snd]. rewrite (file_content_fresh h _ (set_cout _ w)).
    unfold lines_of. rewrite lines_from_no_endl by done. split; [by exists 0%nat | done].
  - cbn [fst snd]. rewrite (file_content_fresh h _ (set_cout _ w)).
    unfold lines_of. rewrite lines_from_no_endl by done. split; [by exists 0%nat | done].
Qed.

(** * The claims *)

(** ** C1: when a DTI start initiates SU-MIMO training *)

(** C1, as stated, fails. With CSV output off, three sector sweeps
    completed in the DTI, a time past 0.6 s and training not completed, the
    count has reached the threshold of 2 and the DTI start initiates nothing;
    with CSV output on and exactly two such sweeps, it initiates nothing
    either. *)
Lemma C1_counterexample :
  (let run3 := run ex_three_sweeps (ex_boot false) in
   run3.2 = Done tt /\ 2 <= dti_sweeps ex_three_sweeps
   /\ Seconds_0_6 < Now (ex_sim 700000000)
   /\ suMimoCompleted run3.1 = false
   /\ initiates (ex_sim 700000000) (ex_mac 2 1 true) 1 100000000 run3.1 = false)
  /\
  (let run2 := run ex_two_sweeps (ex_boot true) in
   run2.2 = Done tt /\ dti_sweeps ex_two_sweeps = 2
   /\ Seconds_0_6 < Now (ex_sim 700000000)
   /\ suMimoCompleted run2.1 = false
   /\ initiates (ex_sim 700000000) (ex_mac 2 1 true) 1 100000000 run2.1 = false).
Proof. by vm_compute. Qed.

(** C1, amended: with CSV output off, after a run whose callbacks all
    returned, a DTI start initiates SU-MIMO training if and only if the
    number of sector sweeps completed in the DTI is exactly 2 in the 8-bit
    counter, the time is past 0.6 s and training has not completed. *)
Theorem C1_trigger_on_exact_count opts arrayConfig activateApp evs sim mac
    address dtiDuration :
  csv opts = false ->
  (run evs (boot opts arrayConfig activateApp)).2 = Done tt ->
  initiates sim mac address dtiDuration (run evs (boot opts arrayConfig activateApp)).1
    = true
  <-> uint8_t (dti_sweeps evs) = 2 /\ Seconds_0_6 < Now sim
      /\ suMimoCompleted (run evs (boot opts arrayConfig activateApp)).1 = false.
Proof.
  intros Hcsv Hdone.
  pose proof (boot_sequencer opts arrayConfig activateApp) as Hb.
  rewrite initiates_trigger, trigger_spec. cbn [sequencer seq_links seq_completed].
  rewrite run_beamformedLinks; [| | | done].
  - change (beamformedLinks (boot opts arrayConfig activateApp))
      with (seq_links (sequencer (boot opts arrayConfig activateApp))).
    rewrite Hb. cbn [seq_links]. by rewrite Z.add_0_l.
  - change (options (boot opts arrayConfig activateApp))
      with (seq_options (sequencer (boot opts arrayConfig activateApp))).
    by rewrite Hb.
  - change (beamformedLinks (boot opts arrayConfig activateApp))
      with (seq_links (sequencer (boot opts arrayConfig activateApp))).
    rewrite Hb. cbn. lia.
Qed.

(** Scenario A: two sweeps and a time past 0.6 s initiate training. *)
Lemma C1_trigger_on_exact_count_witness :
  initiates (ex_sim 700000000) (ex_mac 2 1 true) 1 100000000
    (run ex_two_sweeps (boot (ex_options false) "cfg" true)).1 = true
  <-> uint8_t (dti_sweeps ex_two_sweeps) = 2
      /\ Seconds_0_6 < Now (ex_sim 700000000)
      /\ suMimoCompleted (run ex_two_sweeps (boot (ex_options false) "cfg" true)).1
         = false.
Proof.
  apply (C1_trigger_on_exact_count (ex_options false) "cfg" true ex_two_sweeps).
  - reflexivity.
  - vm_compute. reflexivity.
Defined.

(** ** C4: a second MIMO-phase-complete event *)

(** C4, as stated, fails: a completion event for a session already complete
    prints what the first completion prints and nothing else, sends no
    request and returns as the first completion does. *)
Lemma C4_counterexample :
  let first := SuMimoMimoPhaseComplete (ex_sim 800000000) ex_sta 1 in
  let second := SuMimoMimoPhaseComplete (ex_sim 900000000) ex_sta 1 in
  let w1 := (first (ex_boot false)).1 in
  suMimoCompleted w1 = true
  /\ new_cout second w1 = new_cout second (ex_boot false)
  /\ new_calls second w1 = []
  /\ (second w1).2 = Done tt.
Proof.
  cbv zeta. split; [| split; [| split]]; vm_compute; reflexivity.
Qed.

(** C4, amended: a MIMO-phase-complete event for a session already marked
    complete leaves the globals, the files and the requests as they are; it
    is handled as the first completion is, printing the same completion
    message, and nothing reports it as unexpected. *)
Theorem C4_second_completion sim parameters from w :
  suMimoCompleted w = true ->
  SuMimoMimoPhaseComplete sim parameters from w
  = (set_cout (cout w ++ mimo_complete_message sim parameters from) w, Done tt).
Proof.
  intros H. destruct w; simpl in H; subst. reflexivity.
Qed.

Lemma C4_second_completion_witness :
  SuMimoMimoPhaseComplete (ex_sim 900000000) ex_sta 1
    (set_suMimoCompleted true (initial_world (ex_options false)))
  = (set_cout
       (cout (set_suMimoCompleted true (initial_world (ex_options false)))
        ++ mimo_complete_message (ex_sim 900000000) ex_sta 1)
       (set_suMimoCompleted true (initial_world (ex_options false))),
     Done tt).
Proof. apply C4_second_completion. reflexivity. Defined.

(** ** C6: the requests to begin SU-MIMO training *)

(** C6, as stated, fails: two DTI starts past 0.6 s, after two sector
    sweeps in the DTI and before the MIMO phase completes, send two requests
    to begin SU-MIMO training. *)
Lemma C6_counterexample :
  let evs := ex_two_sweeps ++ [ex_dti 700000000; ex_dti 800000000] in
  (run evs (ex_boot false)).2 = Done tt
  /\ length (start_requests (run evs (ex_boot false)).1) = 2%nat.
Proof. cbv zeta. split; vm_compute; reflexivity. Qed.

(** C6, amended: a DTI start sends one request to begin SU-MIMO training
    when the trigger condition holds and none otherwise; the request names
    the station as initiator and passes the whole list of antenna
    identifiers of its codebook; no other callback sends such a request, and
    once the session is marked complete no run sends one. *)
Theorem C6_start_requests :
  (forall sim mac address dtiDuration w,
     start_requests (DataTransmissionIntervalStarted sim mac address dtiDuration w).1
     = start_requests w ++
       (if trigger sim (sequencer w)
        then [Schedule_StartSuMimoBeamforming (MicroSeconds 3) (GetAddress mac)
                (GetBssid mac) true (GetTotalAntennaIdList mac) false]
        else []))
  /\ (forall sim e w,
        start_requests (dispatch sim e w).1
        = match e with
          | OnDataTransmissionIntervalStarted mac address dtiDuration =>
              start_requests
                (DataTransmissionIntervalStarted sim mac address dtiDuration w).1
          | _ => start_requests w
          end)
  /\ (forall evs w,
        suMimoCompleted w = true ->
        start_requests (run evs w).1 = start_requests w).
Proof.
  split; [| split].
  - intros sim mac address dtiDuration w.
    change (start_requests ?x) with (seq_starts (sequencer x)).
    by rewrite DataTransmissionIntervalStarted_sequencer.
  - intros sim e w.
    change (start_requests ?x) with (seq_starts (sequencer x)).
    rewrite dispatch_sequencer. destruct e; try done.
    by rewrite DataTransmissionIntervalStarted_sequencer.
  - intros evs w Hc.
    refine (proj2 (run_invariant
      (fun s => seq_completed s = true /\ seq_starts s = start_requests w)
      _ evs w _)); [| done].
    intros sim e s [Hs1 Hs2]. destruct e; cbn; try done.
    unfold trigger. rewrite Hs1, andb_false_r, app_nil_r. done.
Qed.

Lemma C6_start_requests_witness :
  start_requests
    (run [ex_dti 700000000]
       (set_suMimoCompleted true
          (set_beamformedLinks 2 (initial_world (ex_options false))))).1
  = start_requests
      (set_suMimoCompleted true
         (set_beamformedLinks 2 (initial_world (ex_options false)))).
Proof. apply (proj2 (proj2 C6_start_requests)). reflexivity. Defined.

(** ** C7: the SISO-phase-complete callback *)

Lemma SuMimoSisoPhaseComplete_run sim parameters from feedbackMap nTx nRx w :
  exists ts,
    table_inv (ends_with (timestamp_column sim)) ts /\
    SuMimoSisoPhaseComplete sim parameters from feedbackMap nTx nRx w
    = (set_calls
         (calls w ++ siso_complete_requests parameters from feedbackMap nTx nRx
                       (options w))
         (emit (siso_results_file (tracesFolder (options w)) parameters)
            (siso_header ++ ts)
            (set_files
               (<[siso_results_file (tracesFolder (options w)) parameters := []]>
                  (files w))
               (set_cout
                  (cout w ++
                   [Lit "EDMG STA "; Addr (GetAddress (wifiMac parameters));
                    Lit " finished SISO phase of SU-MIMO BFT with EDMG STA ";
                    Addr from; Lit " at "; Secs (Now sim); Endl]) w))),
       Done tt).
Proof.
  set (h := siso_results_file (tracesFolder (options w)) parameters).
  assert (exists ts, table_inv (ends_with (timestamp_column sim)) ts /\ forall w',
    siso_feedback_rows sim parameters h feedbackMap w' = (emit h ts w', Done tt))
    as (ts & Hinv & Hrows).
  { destruct (writes_succeeds h _ _
                (siso_feedback_rows_writes sim parameters h feedbackMap))
      as (ts & [] & Hinv & Hts).
    - apply succeeds_foreach. intros. apply succeeds_modify.
    - by exists ts. }
  exists ts. split; [done |]. unfold SuMimoSisoPhaseComplete.
  do 4 mstep. cbn [options files set_cout]. fold h.
  rewrite (bind_emits _ _ h ts tt) by apply Hrows.
  rewrite emit_emit.
  match goal with |- _ (emit h ?ts' ?w') = _ => remember (emit h ts' w') as w2 end.
  assert (options w2 = options w) as <- by (by subst w2).
  assert (calls w2 = calls w) as <- by (by subst w2).
  clear Heqw2 Hrows. unfold siso_complete_requests, bind, read, call, modify, when, ret.
  destruct w2 as [o links first completed st fl co ca]. cbn.
  destruct (useAwvs o); cbn; rewrite <- ?app_assoc; reflexivity.
Qed.

(** C7: on a SISO-phase-complete event the callback asks the MAC for the
    K best combinations of the delivered feedback map with the global
    [kBestCombinations], and starts the MIMO phase with the list it gets,
    unmodified; the callback returns, and no callback changes
    [kBestCombinations]. *)
Theorem C7_siso_complete_requests sim parameters from feedbackMap nTx nRx w :
  let mac := wifiMac parameters in
  let k := kBestCombinations (options w) in
  let shortlist := FindKBestCombinations mac k nTx nRx feedbackMap in
  new_calls (SuMimoSisoPhaseComplete sim parameters from feedbackMap nTx nRx) w
  = [Call_FindKBestCombinations (GetAddress mac) k nTx nRx feedbackMap]
    ++ (if useAwvs (options w)
        then [AppendAwvsForSuMimoBFT_27 (GetAddress mac)] else [])
    ++ [StartSuMimoMimoPhase (GetAddress mac) from shortlist
          (numberOfTxCombinationsRequested (options w)) (useAwvs (options w))]
  /\ (SuMimoSisoPhaseComplete sim parameters from feedbackMap nTx nRx w).2 = Done tt
  /\ forall evs w0, options (run evs w0).1 = options w0.
Proof.
  cbv zeta.
  destruct (SuMimoSisoPhaseComplete_run sim parameters from feedbackMap nTx nRx w)
    as (ts & _ & Hrun).
  split; [| split].
  - unfold new_calls. rewrite Hrun. cbn [fst calls set_calls].
    by rewrite drop_app_length.
  - by rewrite Hrun.
  - intros evs w0.
    apply (run_invariant (fun s => seq_options s = options w0)); [| done].
    intros sim' e s Hs. by destruct e.
Qed.

(** ** C8: the phase flags never go back *)

(** C8, as stated, fails: after the MIMO phase has completed, a DTI start
    still requests the initial sector sweep and a SISO-phase-complete event
    still starts the MIMO phase, so earlier phases are entered again. *)
Lemma C8_counterexample :
  let completed :=
    run [(ex_sim 900000000, OnSuMimoMimoPhaseComplete ex_sta 1)] (ex_boot false) in
  let later :=
    [ex_dti 1000000000;
     (ex_sim 1100000000, OnSuMimoSisoPhaseComplete ex_sta 1 [] 2 2)] in
  suMimoCompleted completed.1 = true
  /\ (run later completed.1).2 = Done tt
  /\ new_calls (run later) completed.1
     = [Perform_TXSS_TXOP 2 1; Call_FindKBestCombinations 2 10 2 2 [];
        StartSuMimoMimoPhase 2 1 [[(1, 1); (2, 5)]] 10 false].
Proof. cbv zeta. repeat split; vm_compute; reflexivity. Qed.

(** C8, amended: over every sequence of callbacks, [firstDti] once false
    stays false and the initial sector sweep is requested at most once and
    never again after the flag is cleared; [suMimoCompleted] once true stays
    true and no request to begin SU-MIMO training follows. The completed
    flag guards nothing else: whatever it holds, a DTI start requests the
    initial sector sweep when the station is associated and [firstDti]
    holds, and a SISO-phase-complete event asks for the best combinations
    and starts the MIMO phase. *)
Theorem C8_flags_never_regress evs w :
  (firstDti w = false ->
   firstDti (run evs w).1 = false /\ txss_requests (run evs w).1 = txss_requests w)
  /\ (suMimoCompleted w = true ->
      suMimoCompleted (run evs w).1 = true
      /\ start_requests (run evs w).1 = start_requests w)
  /\ (length (txss_requests (run evs w).1)
      <= length (txss_requests w) + (if firstDti w then 1 else 0))%nat
  /\ (forall sim mac address dtiDuration,
        txss_requests (DataTransmissionIntervalStarted sim mac address dtiDuration w).1
        = txss_requests w ++
          (if IsAssociated mac && firstDti w
           then [Perform_TXSS_TXOP (GetAddress mac) (GetBssid mac)] else []))
  /\ (forall sim parameters from feedbackMap nTx nRx,
        new_calls (SuMimoSisoPhaseComplete sim parameters from feedbackMap nTx nRx) w
        = siso_complete_requests parameters from feedbackMap nTx nRx (options w)).
Proof.
  pose (P := fun s : Sequencer =>
    (exists new, seq_txss s = txss_requests w ++ new
       /\ (seq_firstDti s = true -> firstDti w = true /\ new = [])
       /\ (length new <= if firstDti w then 1 else 0)%nat)
    /\ (suMimoCompleted w = true ->
        seq_completed s = true /\ seq_starts s = start_requests w)).
  assert (P (sequencer (run evs w).1)) as [(new & Hnew & Hfirst & Hlen) Hdone].
  { apply run_invariant.
    - intros sim e s [(new & Hnew & Hfirst & Hlen) Hdone].
      destruct e; try (split; [by exists new | done]).
      + split; [by exists new |]. intros Hc. by destruct (Hdone Hc).
      + split.
        * cbn. destruct (IsAssociated wifiMac0), (seq_firstDti s) eqn:Hs; cbn.
          -- destruct Hfirst as [Hw ->]; [done |].
             exists [Perform_TXSS_TXOP (GetAddress wifiMac0) (GetBssid wifiMac0)].
             rewrite Hnew, Hw, app_nil_r. split; [done |]. split; [done | simpl; lia].
          -- exists new. by rewrite app_nil_r.
          -- exists new. by rewrite app_nil_r.
          -- exists new. by rewrite app_nil_r.
        * intros Hc. destruct (Hdone Hc) as [Hd1 Hd2]. cbn.
          unfold trigger. by rewrite Hd1, andb_false_r, app_nil_r.
    - split; [| done]. exists []. rewrite app_nil_r.
      split; [done |]. split; [done | simpl; lia]. }
  cbn [sequencer seq_txss seq_firstDti seq_completed seq_starts] in *.
  split; [| split; [| split; [| split]]].
  - intros Hw. rewrite Hw in Hlen. destruct new; [| simpl in Hlen; lia].
    rewrite app_nil_r in Hnew. split; [| done].
    destruct (firstDti (run evs w).1); [| done].
    destruct Hfirst as [Hw' _]; [done | congruence].
  - done.
  - rewrite Hnew, length_app. lia.
  - intros sim mac address dtiDuration.
    change (txss_requests ?x) with (seq_txss (sequencer x)).
    by rewrite DataTransmissionIntervalStarted_sequencer.
  - intros sim parameters from feedbackMap nTx nRx.
    destruct (SuMimoSisoPhaseComplete_run sim parameters from feedbackMap nTx nRx w)
      as (ts & _ & Hrun).
    unfold new_calls. rewrite Hrun. cbn [fst calls set_calls].
    by rewrite drop_app_length.
Qed.

Lemma C8_flags_never_regress_witness :
  (firstDti (run [ex_dti 700000000] ex_completed).1 = false
   /\ txss_requests (run [ex_dti 700000000] ex_completed).1
      = txss_requests ex_completed)
  /\ (suMimoCompleted (run [ex_dti 700000000] ex_completed).1 = true
      /\ start_requests (run [ex_dti 700000000] ex_completed).1
         = start_requests ex_completed).
Proof.
  destruct (C8_flags_never_regress [ex_dti 700000000] ex_completed)
    as (Hfirst & Hcompleted & _).
  split; [apply Hfirst | apply Hcompleted]; reflexivity.
Defined.

(** ** C9: CSV output mode *)

(** C9: when CSV output is on, the counter of beamformed links stays at 0
    whatever callbacks run, and no request to begin SU-MIMO training is
    sent. *)
Theorem C9_csv_never_trains opts arrayConfig activateApp evs :
  csv opts = true ->
  beamformedLinks (run evs (boot opts arrayConfig activateApp)).1 = 0
  /\ start_requests (run evs (boot opts arrayConfig activateApp)).1 = [].
Proof.
  intros Hcsv.
  pose (P := fun s : Sequencer =>
    csv (seq_options s) = true /\ seq_links s = 0 /\ seq_starts s = []).
  assert (P (sequencer (run evs (boot opts arrayConfig activateApp)).1))
    as (_ & Hlinks & Hstarts); [| done].
  apply run_invariant.
  - intros sim e s (Ho & Hl & Hs). destruct e; try done.
    + cbn. by rewrite Ho.
    + cbn. unfold trigger. rewrite Hl, Hs. done.
  - by rewrite boot_sequencer.
Qed.

Lemma C9_csv_never_trains_witness :
  beamformedLinks
    (run (ex_two_sweeps ++ [ex_dti 700000000]) (boot (ex_options true) "cfg" true)).1
  = 0
  /\ start_requests
       (run (ex_two_sweeps ++ [ex_dti 700000000])
          (boot (ex_options true) "cfg" true)).1 = [].
Proof. apply C9_csv_never_trains. reflexivity. Defined.

(** ** C10: the MIMO-candidates-selected callback and its maps *)

(** C10, as stated, fails on both sides. The callback returns on a Tx map
    that breaks the precondition: the first sector list has 65536 entries,
    which the 16-bit count of rows takes for none, and the second list is
    shorter. And with an empty Rx map its behaviour can be defined: after a
    Tx map whose second list is shorter than the first, the callback throws
    [std::out_of_range] before it reaches the Rx map. *)
Lemma C10_counterexample :
  let w := initial_world (ex_options false) in
  let wide : Antenna2SectorList := [(1, replicate (Z.to_nat 65536) 0); (2, [5])] in
  let ragged : Antenna2SectorList := [(1, [3; 4]); (2, [5])] in
  (SuMimoMimoCandidatesSelected (ex_sim 900000000) ex_sta 1 wide ex_candidates w).2
  = Done tt
  /\ ~ candidates_ok wide
  /\ (SuMimoMimoCandidatesSelected (ex_sim 900000000) ex_sta 1 ragged [] w).2
     = Throws_out_of_range.
Proof.
  cbv zeta. split; [vm_compute; reflexivity |]. split; [| vm_compute; reflexivity].
  unfold candidates_ok. intros H.
  apply Forall_cons in H as [_ H]. apply Forall_cons in H as [H _].
  cbn [snd] in H. rewrite length_replicate in H. cbn [length] in H. lia.
Qed.

(** C10, amended: when both candidate maps are non-empty and no sector list is
    shorter than the first of its map, the callback never throws
    [std::out_of_range] and has no undefined behaviour: it returns, unless
    the Tx map has 255 antennas, in which case the header loop never ends.
    With an empty Tx map, or an empty Rx map after a well-formed Tx map, its
    behaviour is undefined. If it returns, both maps are non-empty and every
    sector list has an entry for each row written. *)
Theorem C10_candidates_safety sim parameters from txCandidates rxCandidates w :
  (candidates_ok txCandidates -> candidates_ok rxCandidates ->
   (SuMimoMimoCandidatesSelected sim parameters from txCandidates rxCandidates w).2
   = if uint8_t (Z.of_nat (length txCandidates)) =? 255 then Diverges else Done tt)
  /\ (txCandidates = [] ->
      (SuMimoMimoCandidatesSelected sim parameters from txCandidates rxCandidates w).2
      = Undefined)
  /\ (candidates_ok txCandidates ->
      uint8_t (Z.of_nat (length txCandidates)) <> 255 -> rxCandidates = [] ->
      (SuMimoMimoCandidatesSelected sim parameters from txCandidates rxCandidates w).2
      = Undefined)
  /\ ((SuMimoMimoCandidatesSelected sim parameters from txCandidates rxCandidates w).2
      = Done tt ->
      candidates_fit txCandidates /\ candidates_fit rxCandidates).
Proof.
  pose proof (uint8_t_range (Z.of_nat (length txCandidates))) as Hn.
  unfold SuMimoMimoCandidatesSelected. do 3 mstep. cbv zeta.
  cbn [options files set_cout].
  set (n := uint8_t (Z.of_nat (length txCandidates))) in *.
  set (htx := mimo_tx_candidates_file (tracesFolder (options w)) parameters).
  set (hrx := mimo_rx_candidates_file (tracesFolder (options w)) parameters).
  match goal with |- context [bind _ _ ?w'] => set (w0 := w') end.
  split; [| split; [| split]].
  - intros Htx Hrx. destruct (Z.eqb_spec n 255) as [H255 | H255].
    + apply bind_snd_Diverges, candidates_table_diverges. lia.
    + destruct (candidates_table_returns sim parameters htx n txCandidates Htx
                  ltac:(lia) w0) as [[] Ht].
      rewrite (bind_snd_Done _ _ _ tt Ht). mstep.
      match goal with |- (candidates_table _ _ _ _ _ ?w').2 = _ =>
        destruct (candidates_table_returns sim parameters hrx n rxCandidates Hrx
                    ltac:(lia) w') as [[] Hr]
      end.
      exact Hr.
  - intros ->. apply bind_snd_Undefined, candidates_table_empty.
    subst n. change (uint8_t (Z.of_nat (length []))) with 0. lia.
  - intros Htx H255 ->.
    destruct (candidates_table_returns sim parameters htx n txCandidates Htx
                ltac:(lia) w0) as [[] Ht].
    rewrite (bind_snd_Done _ _ _ tt Ht). mstep.
    apply candidates_table_empty. lia.
  - intros Hdone. apply bind_Done_inv in Hdone as ([] & Ht & Hdone).
    cbv beta in Hdone. rewrite bind_create_out in Hdone.
    split.
    + exact (candidates_table_Done_inv _ _ _ _ _ _ Ht).
    + exact (candidates_table_Done_inv _ _ _ _ _ _ Hdone).
Qed.

Lemma C10_candidates_safety_witness :
  (SuMimoMimoCandidatesSelected (ex_sim 900000000) ex_sta 1 ex_candidates
     ex_candidates (initial_world (ex_options false))).2
  = if uint8_t (Z.of_nat (length ex_candidates)) =? 255 then Diverges else Done tt.
Proof.
  apply (proj1 (C10_candidates_safety (ex_sim 900000000) ex_sta 1 ex_candidates
                  ex_candidates (initial_world (ex_options false))));
    repeat constructor.
Defined.

(** ** C3: the trailing column of the tables *)




(** ** C2: what an event leaves of the rows of an earlier event *)




(** ** C5: the order of the rows of the MIMO measurements table *)

(** C5: whatever queue the callback is handed, the minimum stream SNR
    values of the rows it writes, from top to bottom, never increase. The
    rows follow the order in which the queue gives up its elements, which
    are those handed in; there is one row for each element when the
    callback returns, and rows for a first part of them when a row stops
    it. The values are the ratios inserted through [RatioToDb]; the order
    carries over to their conversion by any function that keeps the order,
    as the conversion to dB does. *)
Theorem C5_rows_non_increasing sim parameters from mm minSnr d nTx nRx rct w :
  non_increasing
    (min_snr_column
       (rows (mimo_measurements_file (tracesFolder (options w)) parameters)
          (SuMimoMimoPhaseMeasurements sim parameters from mm minSnr d nTx nRx rct
             w).1))
  /\ (exists n,
        min_snr_column
          (rows (mimo_measurements_file (tracesFolder (options w)) parameters)
             (SuMimoMimoPhaseMeasurements sim parameters from mm minSnr d nTx nRx rct
                w).1)
        = take n (drained_keys minSnr))
  /\ ((SuMimoMimoPhaseMeasurements sim parameters from mm minSnr d nTx nRx rct w).2
      = Done tt ->
      min_snr_column
        (rows (mimo_measurements_file (tracesFolder (options w)) parameters)
           (SuMimoMimoPhaseMeasurements sim parameters from mm minSnr d nTx nRx rct
              w).1)
      = drained_keys minSnr)
  /\ drain (length minSnr) minSnr ≡ₚ minSnr
  /\ (forall RatioToDb : double -> double,
        (forall x y, (x <= y)%Q -> (RatioToDb x <= RatioToDb y)%Q) ->
        non_increasing
          (map RatioToDb
             (min_snr_column
                (rows (mimo_measurements_file (tracesFolder (options w)) parameters)
                   (SuMimoMimoPhaseMeasurements sim parameters from mm minSnr d nTx
                      nRx rct w).1)))).
Proof.
  destruct (SuMimoMimoPhaseMeasurements_rows sim parameters from mm minSnr d nTx nRx
              rct w) as (ls & -> & [n Hn] & Hall).
  assert (non_increasing (min_snr_column ls)) as Hsorted.
  { rewrite Hn. apply non_increasing_take. by apply drain_non_increasing. }
  split; [| split; [| split; [| split]]].
  - done.
  - by exists n.
  - done.
  - by apply drain_perm.
  - intros RatioToDb Hmono. by apply non_increasing_map.
Qed.

Lemma C5_rows_non_increasing_witness :
  min_snr_column
    (rows
       (mimo_measurements_file
          (tracesFolder (options (initial_world (ex_options false)))) ex_mimo_sta)
       (SuMimoMimoPhaseMeasurements (ex_sim 900000000) ex_mimo_sta 1 ex_measurements
          ex_queue false 2 2 2 (initial_world (ex_options false))).1)
  = drained_keys ex_queue.
Proof.
  apply (proj1 (proj2 (proj2 (C5_rows_non_increasing (ex_sim 900000000) ex_mimo_sta 1
    ex_measurements ex_queue false 2 2 2 (initial_world (ex_options false)))))).
  vm_compute. reflexivity.
Defined.

(** * Further properties of the callbacks and of [main] *)

(** ** What a computation inserts *)

Lemma emits_ret {A} stream (a : A) : emits stream [] (Done a) (ret a).
Proof. intros w. by rewrite emit_nil. Qed.

Lemma emits_write stream ts : emits stream ts (Done tt) (write stream ts).
Proof. by intros w. Qed.

Lemma emits_bind {A B} stream ts1 ts2 a r (c : M A) (k : A -> M B) :
  emits stream ts1 (Done a) c -> emits stream ts2 r (k a) ->
  emits stream (ts1 ++ ts2) r (bind c k).
Proof. intros Hc Hk w. unfold bind. by rewrite Hc, Hk, emit_emit. Qed.

Lemma emits_bind_Undefined {A B} stream ts (c : M A) (k : A -> M B) :
  emits stream ts Undefined c -> emits stream ts Undefined (bind c k).
Proof. intros Hc w. unfold bind. by rewrite Hc. Qed.

Lemma emits_bind_Throws {A B} stream ts (c : M A) (k : A -> M B) :
  emits stream ts Throws_out_of_range c ->
  emits stream ts Throws_out_of_range (bind c k).
Proof. intros Hc w. unfold bind. by rewrite Hc. Qed.

Lemma emits_bind_Diverges {A B} stream ts (c : M A) (k : A -> M B) :
  emits stream ts Diverges c -> emits stream ts Diverges (bind c k).
Proof. intros Hc w. unfold bind. by rewrite Hc. Qed.

(** A loop whose body inserts the row of its element inserts the rows of
    the elements, in order. *)
Lemma emits_foreach {A} stream (f : A -> list tok) (l : list A)
    (body : A -> unit -> M unit) :
  (forall x, x ∈ l -> emits stream (f x) (Done tt) (body x tt)) ->
  emits stream (concat (map f l)) (Done tt) (foreach l body tt).
Proof.
  induction l as [|x l IH]; intros Hb; simpl.
  - apply emits_ret.
  - eapply emits_bind; [apply Hb; left |].
    apply IH. intros y Hy. apply Hb. by right.
Qed.

(** ** Whole rows *)

Lemma insertions_app a b : insertions (a ++ b) = insertions a ++ insertions b.
Proof. unfold insertions. by rewrite map_app, concat_app. Qed.

Lemma insertions_map {A} (f : A -> line) l :
  concat (map (fun x => f x ++ [Endl]) l) = insertions (map f l).
Proof. unfold insertions. by rewrite map_map. Qed.

Lemma lines_from_insertions rs ts :
  Forall no_endl rs ->
  lines_from [] (insertions rs ++ ts) = rs ++ lines_from [] ts.
Proof.
  induction 1 as [|r rs Hr _ IH]; [done |].
  unfold insertions in *. cbn [map concat].
  rewrite <- (app_assoc (r ++ [Endl])), lines_from_app, lines_from_row,
    pending_from_row by done.
  cbn [app]. by rewrite IH.
Qed.

Lemma lines_of_insertions rs : Forall no_endl rs -> lines_of (insertions rs) = rs.
Proof.
  intros H. unfold lines_of.
  rewrite <- (app_nil_r (insertions rs)), lines_from_insertions by done.
  apply app_nil_r.
Qed.

Lemma lines_of_table header rs :
  no_endl header -> Forall no_endl rs ->
  lines_of (header ++ [Endl] ++ insertions rs) = header :: rs.
Proof.
  intros Hh Hrs. unfold lines_of.
  rewrite app_assoc, lines_from_app, lines_from_row, pending_from_row by done.
  cbn [app]. f_equal.
  rewrite <- (app_nil_r (insertions rs)), lines_from_insertions by done.
  apply app_nil_r.
Qed.

(** ** The SISO tables *)

Lemma preserves_files_call c : preserves files (call c).
Proof. by intros w. Qed.

Lemma preserves_files_print ts : preserves files (print ts).
Proof. by intros w. Qed.

Lemma siso_feedback_rows_emits sim parameters stream feedbackMap :
  emits stream (insertions (map (siso_feedback_row sim parameters) feedbackMap))
    (Done tt) (siso_feedback_rows sim parameters stream feedbackMap).
Proof.
  unfold siso_feedback_rows. rewrite <- insertions_map.
  apply emits_foreach. intros x _. apply emits_write.
Qed.

Lemma SuMimoSisoPhaseComplete_table sim parameters from feedbackMap nTx nRx w :
  let table := siso_results_file (tracesFolder (options w)) parameters in
  let after := SuMimoSisoPhaseComplete sim parameters from feedbackMap nTx nRx w in
  after.2 = Done tt
  /\ file_content table after.1
     = siso_header ++ insertions (map (siso_feedback_row sim parameters) feedbackMap).
Proof.
  cbv zeta. unfold SuMimoSisoPhaseComplete. do 4 mstep.
  cbn [options files set_cout].
  set (h := siso_results_file (tracesFolder (options w)) parameters).
  rewrite (bind_emits _ _ h _ tt) by apply siso_feedback_rows_emits.
  rewrite emit_emit.
  match goal with |- context [emit h ?ts ?w'] => set (w2 := emit h ts w') end.
  assert (file_content h w2
          = siso_header ++ insertions (map (siso_feedback_row sim parameters) feedbackMap))
    as <-.
  { subst w2. apply (file_content_fresh _ _ (set_cout _ w)). }
  clearbody w2. unfold bind, read, call, modify, when, ret.
  destruct w2 as [o links first completed st fl co ca]. cbn.
  destruct (useAwvs o); cbn; by split.
Qed.

Lemma siso_header_lines rs :
  Forall no_endl rs ->
  lines_of (siso_header ++ insertions rs)
  = [Lit "SRC_ID,DST_ID,TRACE_IDX,RX_ANTENNA_ID,TX_ANTENNA_ID,TX_SECTOR_ID,SNR,Timestamp"]
    :: rs.
Proof. intros H. apply (lines_of_table [_] rs); [repeat constructor | done]. Qed.

Lemma siso_measurement_rows_emits sim parameters stream measurementsMap edmgTrnN :
  edmgTrnN <> 0 ->
  emits stream
    (insertions
       (map (fun e => siso_measurement_row sim parameters edmgTrnN e.1 e.2)
          (siso_measurement_entries measurementsMap)))
    (Done tt) (siso_measurement_rows sim parameters stream measurementsMap edmgTrnN).
Proof.
  intros Hn. unfold siso_measurement_rows, siso_measurement_entries.
  induction measurementsMap as [|it m IH]; [apply emits_ret |].
  rewrite bind_cons, map_app, insertions_app. cbn [foreach].
  eapply emits_bind; [| apply IH].
  rewrite <- list_fmap_compose, <- insertions_map.
  apply emits_foreach. intros snrIt _. unfold udiv.
  destruct (Z.eqb_spec edmgTrnN 0) as [|_]; [done |].
  apply (emits_bind _ [] _ (uint32_t (snrIt.1 + 1) / edmgTrnN)); [apply emits_ret |].
  apply emits_write.
Qed.

Lemma siso_measurement_entries_length measurementsMap :
  length (siso_measurement_entries measurementsMap)
  = sum_list_with (fun it => length it.2) measurementsMap.
Proof.
  unfold siso_measurement_entries.
  induction measurementsMap as [|it m IH]; [done |].
  rewrite bind_cons, length_app. cbn [sum_list_with]. f_equal; [| exact IH].
  rewrite length_fmap, length_zip, length_seqZ. lia.
Qed.

(** With [edmgTrnN] zero the first SNR value met makes the callback divide
    by zero, before any row is written. *)
Lemma siso_measurement_rows_zero sim parameters stream measurementsMap :
  (Forall (fun it => it.2 = []) measurementsMap ->
   emits stream [] (Done tt)
     (siso_measurement_rows sim parameters stream measurementsMap 0))
  /\ (Exists (fun it => it.2 <> []) measurementsMap ->
      emits stream [] Undefined
        (siso_measurement_rows sim parameters stream measurementsMap 0)).
Proof.
  unfold siso_measurement_rows.
  induction measurementsMap as [|[key l] m [IH1 IH2]];
    (split; [intros Hall | intros Hex]).
  - apply emits_ret.
  - by apply Exists_nil in Hex.
  - apply Forall_cons in Hall as [Hit Hm]. cbn in Hit. subst l. cbn [foreach].
    apply (emits_bind _ [] [] tt); [apply emits_ret | by apply IH1].
  - cbn [foreach snd]. destruct l as [|snr l].
    + apply Exists_cons in Hex as [Hex | Hex]; [done |]. cbn [foreach].
      apply (emits_bind _ [] [] tt); [apply emits_ret | by apply IH2].
    + apply emits_bind_Undefined.
      rewrite length_cons, seqZ_cons by lia. cbn [zip zip_with foreach].
      apply emits_bind_Undefined, emits_bind_Undefined.
      intros w. by rewrite emit_nil.
Qed.

(** What a callback leaves in the table it has just created, when the rest
    of it only inserts into that table. *)
Lemma fresh_table {A} h header ts (r : outcome A) (c : M A) co w :
  emits h ts r c ->
  let after := c (emit h header (set_files (<[h := []]> (files w)) (set_cout co w))) in
  after.2 = r /\ file_content h after.1 = header ++ ts.
Proof.
  intros Hc. cbv zeta. rewrite Hc, emit_emit. cbn [fst snd]. split; [done |].
  apply (file_content_fresh _ _ (set_cout co w)).
Qed.

Lemma siso_measurement_row_no_endl sim parameters edmgTrnN l :
  Forall no_endl
    (map (fun e => siso_measurement_row sim parameters edmgTrnN e.1 e.2) l).
Proof. apply Forall_map, Forall_forall. intros e _. repeat constructor. Qed.

Lemma siso_feedback_row_no_endl sim parameters l :
  Forall no_endl (map (siso_feedback_row sim parameters) l).
Proof. apply Forall_map, Forall_forall. intros e _. repeat constructor. Qed.

(** X1: The SISO measurements table, when [edmgTrnN] is not zero: the callback
    returns; under the header the table has one row for each SNR value of
    the map, in the order of the map and of its lists, with the position of
    the value, counted from 1 and divided by [edmgTrnN], as its sector; the
    header and every row have 8 cells. *)
Theorem SuMimoSisoPhaseMeasurements_table sim parameters from measurementsMap
    edmgTrnN w :
  let table := siso_measurements_file (tracesFolder (options w)) parameters in
  let after :=
    SuMimoSisoPhaseMeasurements sim parameters from measurementsMap edmgTrnN w in
  edmgTrnN <> 0 ->
  after.2 = Done tt
  /\ rows table after.1
     = map (fun e => siso_measurement_row sim parameters edmgTrnN e.1 e.2)
         (siso_measurement_entries measurementsMap)
  /\ length (rows table after.1)
     = sum_list_with (fun it => length it.2) measurementsMap
  /\ Forall (fun l => columns l = 8%nat) (lines_of (file_content table after.1)).
Proof.
  cbv zeta. intros Hn. unfold SuMimoSisoPhaseMeasurements. do 4 mstep.
  cbn [options files set_cout].
  set (h := siso_measurements_file (tracesFolder (options w)) parameters).
  destruct (fresh_table h siso_header _ _ _
              (cout w ++
               [Lit "EDMG STA "; Addr (GetAddress (wifiMac parameters));
                Lit " reporting SISO phase measurements of SU-MIMO BFT with EDMG STA ";
                Addr from; Lit " at "; Secs (Now sim); Endl]) w
              (siso_measurement_rows_emits sim parameters h measurementsMap edmgTrnN Hn))
    as [Hr Hf].
  unfold rows. rewrite Hr, Hf, siso_header_lines by apply siso_measurement_row_no_endl.
  cbn [tail]. split; [done |]. split; [done |]. split.
  - by rewrite length_map, siso_measurement_entries_length.
  - constructor; [reflexivity |].
    apply Forall_map, Forall_forall. intros e _. reflexivity.
Qed.

Lemma SuMimoSisoPhaseMeasurements_table_witness :
  (SuMimoSisoPhaseMeasurements (ex_sim 800000000) ex_sta 1 (ex_snr_map (1 # 2)%Q) 2
     (initial_world (ex_options false))).2 = Done tt.
Proof.
  apply (SuMimoSisoPhaseMeasurements_table (ex_sim 800000000) ex_sta 1
           (ex_snr_map (1 # 2)%Q) 2 (initial_world (ex_options false))).
  discriminate.
Defined.

(** X2: The SISO measurements callback with [edmgTrnN] zero: it divides by zero
    at the first SNR value it meets, so it returns only when every list of
    the map is empty, and in either case leaves the table with its header
    and no row. *)
Theorem SuMimoSisoPhaseMeasurements_zero sim parameters from measurementsMap w :
  let table := siso_measurements_file (tracesFolder (options w)) parameters in
  let after := SuMimoSisoPhaseMeasurements sim parameters from measurementsMap 0 w in
  (Forall (fun it => it.2 = []) measurementsMap -> after.2 = Done tt)
  /\ (Exists (fun it => it.2 <> []) measurementsMap ->
      after.2 = Undefined /\ file_content table after.1 = siso_header).
Proof.
  cbv zeta. unfold SuMimoSisoPhaseMeasurements. do 4 mstep.
  cbn [options files set_cout].
  set (h := siso_measurements_file (tracesFolder (options w)) parameters).
  destruct (siso_measurement_rows_zero sim parameters h measurementsMap) as [H1 H2].
  split; intros H.
  - by rewrite (H1 H).
  - rewrite (H2 H), emit_nil. cbn [fst snd]. split; [done |].
    apply (file_content_fresh _ _ (set_cout _ w)).
Qed.

Lemma SuMimoSisoPhaseMeasurements_zero_witness :
  (SuMimoSisoPhaseMeasurements (ex_sim 800000000) ex_sta 1 (ex_snr_map (1 # 2)%Q) 0
     (initial_world (ex_options false))).2 = Undefined.
Proof.
  apply (SuMimoSisoPhaseMeasurements_zero (ex_sim 800000000) ex_sta 1
           (ex_snr_map (1 # 2)%Q) (initial_world (ex_options false))).
  left. discriminate.
Defined.

(** X3: The SISO results table: the callback always returns; under the header
    the table has one row for each entry of the feedback map, in the order
    of the map, and the header and every row have 8 cells. *)
Theorem SuMimoSisoPhaseComplete_rows sim parameters from feedbackMap nTx nRx w :
  let table := siso_results_file (tracesFolder (options w)) parameters in
  let after := SuMimoSisoPhaseComplete sim parameters from feedbackMap nTx nRx w in
  after.2 = Done tt
  /\ rows table after.1 = map (siso_feedback_row sim parameters) feedbackMap
  /\ Forall (fun l => columns l = 8%nat) (lines_of (file_content table after.1)).
Proof.
  cbv zeta.
  destruct (SuMimoSisoPhaseComplete_table sim parameters from feedbackMap nTx nRx w)
    as [Hr Hf].
  unfold rows. rewrite Hf, siso_header_lines by apply siso_feedback_row_no_endl.
  cbn [tail]. split; [done |]. split; [done |].
  constructor; [reflexivity |].
  apply Forall_map, Forall_forall. intros e _. reflexivity.
Qed.

(** ** Files a callback leaves alone *)

Lemma lookup_emit_ne stream name ts w :
  stream <> name -> files (emit stream ts w) !! name = files w !! name.
Proof. intros H. unfold emit. cbn [files set_files]. by rewrite lookup_alter_ne. Qed.

Lemma preserves_lookup_write name stream ts :
  stream <> name -> preserves (fun w => files w !! name) (write stream ts).
Proof. intros H w. by apply lookup_emit_ne. Qed.

Lemma preserves_lookup_print name ts : preserves (fun w => files w !! name) (print ts).
Proof. by intros w. Qed.

Lemma preserves_lookup_call name c : preserves (fun w => files w !! name) (call c).
Proof. by intros w. Qed.

Lemma preserves_lookup_create name stream {B} (k : string -> M B) :
  stream <> name -> preserves (fun w => files w !! name) (k stream) ->
  preserves (fun w => files w !! name) (bind (CreateFileStream stream ios_out) k).
Proof.
  intros Hne Hk w. rewrite bind_create_out, Hk. cbn [files set_files].
  by rewrite lookup_insert_ne.
Qed.

Ltac files_tac :=
  repeat match goal with
    | |- forall _, _ => intro
    | |- preserves _ (bind (CreateFileStream _ ios_out) _) =>
        apply preserves_lookup_create; [first [assumption | done] |]
    | |- preserves _ (bind _ _) => apply preserves_bind
    | |- preserves _ (ret _) => apply preserves_ret
    | |- preserves _ (read _) => apply preserves_read
    | |- preserves _ (when _ _) => apply preserves_when
    | |- preserves _ (at_ _ _) => apply preserves_at
    | |- preserves _ (udiv _ _) => apply preserves_udiv
    | |- preserves _ (begin_second _) => apply preserves_begin_second
    | |- preserves _ (pq_top _) => apply preserves_pq_top
    | |- preserves _ (foreach _ _ _) => apply preserves_foreach
    | |- preserves _ (for_uint8_t _ _ _ _) => apply preserves_for_uint8_t
    | |- preserves _ (for_uint16_t _ _ _ _) => apply preserves_for_uint16_t
    | |- preserves _ (while_not_empty _ _ _) => apply preserves_while
    | |- preserves _ (write _ _) =>
        apply preserves_lookup_write; first [assumption | done]
    | |- preserves _ (print _) => apply preserves_lookup_print
    | |- preserves _ (call _) => apply preserves_lookup_call
    | |- preserves _ _ => progress cbv zeta
    end.

(** After the first statements of a callback have been stepped through, the
    rest keeps the file [name]. *)
Ltac files_rest :=
  match goal with
  | |- files (?c ?w').1 !! ?n = _ =>
      transitivity (files w' !! n);
      [ apply (fun H : preserves (fun w => files w !! n) c => H w') | reflexivity ]
  end.

Lemma candidates_table_files name sim parameters stream n candidates :
  stream <> name ->
  preserves (fun w => files w !! name)
    (candidates_table sim parameters stream n candidates).
Proof. intros H. unfold candidates_table. files_tac. Qed.

(** A callback changes no file but those it opens or inserts into. *)
Lemma dispatch_other_files sim e w name :
  name ∉ written (tracesFolder (options w)) e ->
  files (dispatch sim e w).1 !! name = files w !! name.
Proof.
  intros Hname. destruct e; cbn [dispatch written] in *;
    rewrite ?not_elem_of_cons in Hname.
  - destruct Hname as [Hne _]. unfold CalculateThroughput.
    files_rest. files_tac; try (by intros ?).
    destruct (negb _); files_tac.
  - destruct Hname as [Hne _]. rewrite SLSCompleted_files. by apply lookup_emit_ne.
  - destruct Hname as [Hne _]. destruct macType; [| done].
    by apply lookup_emit_ne.
  - unfold StationAssoicated. files_rest. files_tac.
  - done.
  - done.
  - done.
  - done.
  - destruct Hname as [Hne _].
    unfold SuMimoSisoPhaseMeasurements, siso_measurement_rows. do 2 mstep. cbn [options set_cout].
    files_rest. files_tac.
  - destruct Hname as [Hne _].
    unfold SuMimoSisoPhaseComplete, siso_feedback_rows. do 2 mstep. cbn [options set_cout].
    files_rest. files_tac.
  - destruct Hname as (Htx & Hrx & _).
    unfold SuMimoMimoCandidatesSelected. do 2 mstep. cbv zeta. cbn [options set_cout].
    files_rest. files_tac; by apply candidates_table_files.
  - destruct Hname as [Hne _].
    unfold SuMimoMimoPhaseMeasurements, mimo_header_cells, mimo_row, mimo_row_cells.
    do 2 mstep. cbn [options set_cout]. files_rest. files_tac.
  - done.
  - unfold DataTransmissionIntervalStarted. files_rest. files_tac; by intros ?.
Qed.

(** ** The names of the trace files *)

Lemma same_folder folder a b : a <> b -> folder +:+ a <> folder +:+ b.
Proof. intros Hne H. by apply String.app_inj in H. Qed.

(** No traces folder makes a name whose text after the folder begins with
    [c1 c2], where [c1 c2] does not occur in the name of the throughput
    trace, equal to that name. *)
Ltac not_throughput :=
  let H := fresh in
  intros H; unfold throughput_file in H;
  repeat match type of H with
    | ?folder +:+ _ = _ =>
        destruct folder as [|? folder]; cbn in H; [discriminate H |];
        first [injection H as _ H | discriminate H]
    end.

Lemma sls_not_throughput folder arrayConfig :
  sls_file folder arrayConfig <> throughput_file.
Proof. unfold sls_file. not_throughput. Qed.

Lemma snr_not_throughput folder : snr_file folder <> throughput_file.
Proof. unfold snr_file. not_throughput. Qed.

Lemma table_not_throughput folder kind rest :
  folder +:+ String "S" (String "u" kind) +:+ rest <> throughput_file.
Proof. not_throughput. Qed.

Lemma sls_not_snr folder arrayConfig : sls_file folder arrayConfig <> snr_file folder.
Proof. apply same_folder. discriminate. Qed.

Lemma sls_not_table folder arrayConfig kind rest :
  sls_file folder arrayConfig <> folder +:+ String "S" kind +:+ rest.
Proof. apply same_folder. discriminate. Qed.

Lemma snr_not_table folder kind rest :
  snr_file folder <> folder +:+ String "S" kind +:+ rest.
Proof. apply same_folder. discriminate. Qed.

(** ** The traces of a session *)

Lemma dispatch_options sim e w : options (dispatch sim e w).1 = options w.
Proof.
  pose proof (f_equal seq_options (dispatch_sequencer sim e w)) as H.
  by destruct e.
Qed.

Lemma insertions_omap_cons {A} (row : A -> option line) x l :
  insertions (option_list (row x)) ++ insertions (omap row l)
  = insertions (omap row (x :: l)).
Proof.
  simpl. destruct (row x); [| done].
  unfold insertions. cbn. by rewrite app_nil_r.
Qed.

(** A trace file to which every callback adds at most one row, when it
    runs, holds after a run the rows of the callbacks that ran, in order. *)
Lemma run_rows folder arrayConfig name
    (row : Simulator * Network * Firing -> option line) :
  (forall sf w c,
     tracesFolder (options w) = folder -> files w !! name = Some c ->
     files (dispatch sf.1.1 (bound_callback folder arrayConfig sf.1.2 sf.2) w).1 !! name
     = Some (c ++ insertions (option_list (row sf)))) ->
  forall firings w c,
    tracesFolder (options w) = folder -> files w !! name = Some c ->
    (run (map (fun sf => (sf.1.1, bound_callback folder arrayConfig sf.1.2 sf.2)) firings)
       w).2 = Done tt ->
    files
      (run (map (fun sf => (sf.1.1, bound_callback folder arrayConfig sf.1.2 sf.2)) firings)
         w).1 !! name
    = Some (c ++ insertions (omap row firings)).
Proof.
  intros Hstep. induction firings as [|sf firings IH]; intros w c Hw Hc Hdone.
  - cbn. by rewrite app_nil_r.
  - cbn [map run] in *. apply bind_Done_inv in Hdone as ([] & Hd & Hrest).
    rewrite (bind_snd_Done _ _ _ _ Hd).
    rewrite (IH _ (c ++ insertions (option_list (row sf)))); [| | | done].
    + by rewrite <- app_assoc, insertions_omap_cons.
    + by rewrite dispatch_options.
    + by apply Hstep.
Qed.

Lemma connect_traces_returns arrayConfig activateApp opts :
  connect_traces arrayConfig activateApp (initial_world opts)
  = (boot opts arrayConfig activateApp, Done tt).
Proof.
  unfold boot. rewrite (surjective_pairing (connect_traces _ _ _)) at 1. f_equal.
  unfold connect_traces. do 4 mstep.
  destruct activateApp; [| reflexivity]. cbn [when]. mstep.
  by destruct (csv _).
Qed.

Lemma session_run arrayConfig activateApp firings opts :
  session arrayConfig activateApp firings (initial_world opts)
  = run (map (fun sf => (sf.1.1, bound_callback (tracesFolder opts) arrayConfig sf.1.2 sf.2))
           firings)
      (boot opts arrayConfig activateApp).
Proof.
  unfold session.
  rewrite (bind_eq _ _ _ _ _ (connect_traces_returns arrayConfig activateApp opts)).
  unfold simulate. rewrite bind_read.
  change (options (boot opts arrayConfig activateApp))
    with (seq_options (sequencer (boot opts arrayConfig activateApp))).
  by rewrite boot_sequencer.
Qed.

Lemma boot_options opts arrayConfig activateApp :
  options (boot opts arrayConfig activateApp) = opts.
Proof. exact (f_equal seq_options (boot_sequencer opts arrayConfig activateApp)). Qed.

(** The files [main] has opened when the simulation starts. *)
Lemma boot_files opts arrayConfig activateApp :
  let w := boot opts arrayConfig activateApp in
  files w !! sls_file (tracesFolder opts) arrayConfig = Some sls_header
  /\ files w !! snr_file (tracesFolder opts) = Some []
  /\ (activateApp = true -> files w !! throughput_file = Some []).
Proof.
  cbv zeta. unfold boot, connect_traces. do 4 mstep.
  pose proof (sls_not_snr (tracesFolder opts) arrayConfig) as H1.
  pose proof (sls_not_throughput (tracesFolder opts) arrayConfig) as H2.
  pose proof (snr_not_throughput (tracesFolder opts)) as H3.
  unfold throughput_file in *.
  fold (snr_file (tracesFolder opts)). cbn [options initial_world].
  match goal with |- context [when activateApp ?c ?w1] =>
    set (rest := when activateApp c); set (w' := w1)
  end.
  assert (files w' !! sls_file (tracesFolder opts) arrayConfig = Some sls_header) as Hs.
  { subst w'. cbn [files set_files emit].
    by rewrite lookup_insert_ne, lookup_alter_eq, lookup_insert_eq by done. }
  assert (files w' !! snr_file (tracesFolder opts) = Some []) as Hn.
  { subst w'. cbn [files set_files]. by rewrite lookup_insert_eq. }
  split; [| split].
  - rewrite <- Hs. files_rest. subst rest. files_tac.
  - rewrite <- Hn. files_rest. subst rest. files_tac.
  - intros ->. subst rest. cbn [when]. mstep.
    destruct (csv _);
      cbv [bind ret when print call modify CreateFileStream negb fst snd files
           set_files set_calls set_cout];
      by rewrite lookup_insert_eq.
Qed.

Ltac names_tac :=
  unfold siso_measurements_file, siso_results_file, mimo_tx_candidates_file,
    mimo_rx_candidates_file, mimo_measurements_file;
  first
    [ apply sls_not_table | apply sls_not_snr | apply sls_not_throughput
    | apply snr_not_table | apply snr_not_throughput
    | apply not_eq_sym;
      first [ apply sls_not_snr | apply sls_not_throughput
            | apply snr_not_throughput | apply table_not_throughput ] ].

(** A callback bound to another trace leaves the file as it is. *)
Ltac other_file Hw Hc :=
  rewrite dispatch_other_files;
  [ rewrite Hc; unfold insertions; cbn [option_list map concat];
    by rewrite app_nil_r
  | cbn [written]; rewrite ?Hw, ?not_elem_of_cons;
    repeat split; try apply not_elem_of_nil; names_tac ].

Lemma sls_trace_step folder arrayConfig sf w c :
  tracesFolder (options w) = folder ->
  files w !! sls_file folder arrayConfig = Some c ->
  files (dispatch sf.1.1 (bound_callback folder arrayConfig sf.1.2 sf.2) w).1
    !! sls_file folder arrayConfig
  = Some (c ++ insertions (option_list (sls_row_of sf))).
Proof.
  intros Hw Hc. destruct sf as [sim f].
  destruct f; cbn [fst snd bound_callback sls_row_of];
    try (other_file Hw Hc).
  cbn [dispatch]. rewrite SLSCompleted_files. unfold emit, insertions. cbn [files set_files].
    rewrite lookup_alter_eq, Hc. cbn. by rewrite ?app_nil_r.
Qed.

Lemma snr_trace_step folder arrayConfig sf w c :
  tracesFolder (options w) = folder ->
  files w !! snr_file folder = Some c ->
  files (dispatch sf.1.1 (bound_callback folder arrayConfig sf.1.2 sf.2) w).1
    !! snr_file folder
  = Some (c ++ insertions (option_list (snr_row_of sf))).
Proof.
  intros Hw Hc. destruct sf as [sim f].
  destruct f; cbn [fst snd bound_callback snr_row_of];
    try (other_file Hw Hc).
  cbn [dispatch]. destruct macType; cbn [MacRxOk option_list].
  - unfold write, modify, emit, insertions. cbn [fst files set_files].
    rewrite lookup_alter_eq, Hc. cbn. done.
  - cbn. by rewrite Hc, app_nil_r.
Qed.

Lemma throughput_trace_step folder arrayConfig sf w c :
  tracesFolder (options w) = folder ->
  files w !! throughput_file = Some c ->
  files (dispatch sf.1.1 (bound_callback folder arrayConfig sf.1.2 sf.2) w).1
    !! throughput_file
  = Some (c ++ insertions (option_list (throughput_row_of sf))).
Proof.
  intros Hw Hc. destruct sf as [sim f].
  destruct f; cbn [fst snd bound_callback throughput_row_of];
    try (other_file Hw Hc).
  cbn [dispatch]. unfold CalculateThroughput.
  cbv [bind ret when print call modify write read].
  cbn [options set_statistics]. destruct (csv (options w)); cbn [negb fst];
    cbn [files set_calls]; rewrite emit_emit; unfold emit;
    cbn [files set_files set_cout set_statistics];
    by rewrite lookup_alter_eq, Hc.
Qed.

Lemma Forall_omap_Some {A B} (P : B -> Prop) (f : A -> option B) l :
  (forall x y, f x = Some y -> P y) -> Forall P (omap f l).
Proof.
  intros H. apply Forall_forall. intros y Hy.
  apply list_elem_of_omap in Hy as (x & _ & Hx). by eapply H.
Qed.

Lemma session_file arrayConfig activateApp firings opts name row c :
  (forall sf w c,
     tracesFolder (options w) = tracesFolder opts -> files w !! name = Some c ->
     files (dispatch sf.1.1 (bound_callback (tracesFolder opts) arrayConfig sf.1.2 sf.2) w).1
       !! name
     = Some (c ++ insertions (option_list (row sf)))) ->
  files (boot opts arrayConfig activateApp) !! name = Some c ->
  (session arrayConfig activateApp firings (initial_world opts)).2 = Done tt ->
  file_content name (session arrayConfig activateApp firings (initial_world opts)).1
  = c ++ insertions (omap row firings).
Proof.
  intros Hstep Hboot Hdone. rewrite session_run in *. unfold file_content.
  rewrite (run_rows _ _ _ _ Hstep firings _ c); [done | | done | done].
  by rewrite boot_options.
Qed.

(** X4: The sector-sweep trace of a session that ran to its end, when the
    name of the array configuration holds no ['/'], so that the sweep trace
    is an entry of its own beside the other traces: to what the stream held
    when the simulation started, the session adds one row for each sector
    sweep completed by either device, in the order of completion, and
    nothing else. Each row has 8 cells; the header [main] writes names 13
    columns. *)
Theorem session_sls_trace opts arrayConfig activateApp firings :
  let after := session arrayConfig activateApp firings (initial_world opts) in
  plain_name arrayConfig -> after.2 = Done tt ->
  file_content (sls_file (tracesFolder opts) arrayConfig) after.1
  = file_content (sls_file (tracesFolder opts) arrayConfig)
      (boot opts arrayConfig activateApp)
    ++ insertions (omap sls_row_of firings)
  /\ Forall no_endl (omap sls_row_of firings)
  /\ Forall (fun l => columns l = 8%nat) (omap sls_row_of firings)
  /\ Forall (fun l => columns l = 13%nat) (lines_of sls_header).
Proof.
  cbv zeta. intros _ Hdone.
  destruct (boot_files opts arrayConfig activateApp) as (Hsls & _ & _).
  rewrite (session_file _ _ _ _ _ sls_row_of sls_header
             ltac:(intros; by apply sls_trace_step) Hsls Hdone).
  unfold file_content. rewrite Hsls. cbn [default from_option].
  split; [done |]. split; [| split].
  - apply Forall_omap_Some. intros [sim f] y Hy. destruct f; try done.
    cbn in Hy. injection Hy as <-. repeat constructor.
  - apply Forall_omap_Some. intros [sim f] y Hy. destruct f; try done.
    cbn in Hy. by injection Hy as <-.
  - repeat constructor.
Qed.

Lemma session_sls_trace_witness :
  file_content (sls_file (tracesFolder (ex_options false)) "cfg")
    (session "cfg" true ex_firings (initial_world (ex_options false))).1
  = file_content (sls_file (tracesFolder (ex_options false)) "cfg")
      (boot (ex_options false) "cfg" true)
    ++ insertions (omap sls_row_of ex_firings).
Proof.
  apply (session_sls_trace (ex_options false) "cfg" true ex_firings);
    [reflexivity | vm_compute; reflexivity].
Defined.

(** X5: The SNR trace of a session that ran to its end, when the name of
    the array configuration holds no ['/'], so that the sweep trace is not
    the same file: no header, and one line, the time in nanoseconds and the
    SNR, for each QoS data frame the access point received, in the order of
    reception; frames of other types add nothing. *)
Theorem session_snr_trace opts arrayConfig activateApp firings :
  let after := session arrayConfig activateApp firings (initial_world opts) in
  plain_name arrayConfig -> after.2 = Done tt ->
  lines_of (file_content (snr_file (tracesFolder opts)) after.1)
  = omap snr_row_of firings.
Proof.
  cbv zeta. intros _ Hdone.
  destruct (boot_files opts arrayConfig activateApp) as (_ & Hsnr & _).
  rewrite (session_file _ _ _ _ _ snr_row_of []
             ltac:(intros; by apply snr_trace_step) Hsnr Hdone).
  apply lines_of_insertions, Forall_omap_Some.
  intros [sim f] y Hy. destruct f; try done. destruct macType; [| done].
  cbn in Hy. injection Hy as <-. repeat constructor.
Qed.

Lemma session_snr_trace_witness :
  lines_of
    (file_content (snr_file (tracesFolder (ex_options false)))
       (session "cfg" true ex_firings (initial_world (ex_options false))).1)
  = omap snr_row_of ex_firings.
Proof.
  apply (session_snr_trace (ex_options false) "cfg" true ex_firings);
    [reflexivity | vm_compute; reflexivity].
Defined.

(** X6: The throughput trace of a session with the applications installed
    that ran to its end, when the name of the array configuration holds no
    ['/'], so that the sweep trace is not the same file: one line, the time
    and the throughput, for each run of the throughput sampling, whether CSV
    output is on or off. *)
Theorem session_throughput_trace opts arrayConfig firings :
  let after := session arrayConfig true firings (initial_world opts) in
  plain_name arrayConfig -> after.2 = Done tt ->
  lines_of (file_content throughput_file after.1) = omap throughput_row_of firings.
Proof.
  cbv zeta. intros _ Hdone.
  destruct (boot_files opts arrayConfig true) as (_ & _ & Hthr).
  rewrite (session_file _ _ _ _ _ throughput_row_of []
             ltac:(intros; by apply throughput_trace_step) (Hthr eq_refl) Hdone).
  apply lines_of_insertions, Forall_omap_Some.
  intros [sim f] y Hy. destruct f; try done.
  cbn in Hy. injection Hy as <-. repeat constructor.
Qed.

Lemma session_throughput_trace_witness :
  lines_of
    (file_content throughput_file
       (session "cfg" true ex_firings (initial_world (ex_options false))).1)
  = omap throughput_row_of ex_firings.
Proof.
  apply (session_throughput_trace (ex_options false) "cfg" ex_firings);
    [reflexivity | vm_compute; reflexivity].
Defined.

(** ** The counters *)

(** Observations that no callback but the counters' own touches. *)
Ltac keeps_tac :=
  repeat match goal with
    | |- forall _, _ => intro
    | |- preserves _ (bind _ _) => apply preserves_bind
    | |- preserves _ (ret _) => apply preserves_ret
    | |- preserves _ (read _) => apply preserves_read
    | |- preserves _ (when _ _) => apply preserves_when
    | |- preserves _ (at_ _ _) => apply preserves_at
    | |- preserves _ (udiv _ _) => apply preserves_udiv
    | |- preserves _ (begin_second _) => apply preserves_begin_second
    | |- preserves _ (pq_top _) => apply preserves_pq_top
    | |- preserves _ (foreach _ _ _) => apply preserves_foreach
    | |- preserves _ (for_uint8_t _ _ _ _) => apply preserves_for_uint8_t
    | |- preserves _ (for_uint16_t _ _ _ _) => apply preserves_for_uint16_t
    | |- preserves _ (while_not_empty _ _ _) => apply preserves_while
    | |- preserves _ _ => first [progress cbv zeta | by intros ?]
    end.

Ltac as_preserves :=
  match goal with
  | |- ?f (?c ?w).1 = ?f ?w => generalize w; change (preserves f c)
  end.

Lemma dispatch_statistics sim e w :
  match e with
  | OnCalculateThroughput _ _ | OnMacTxDataFailed | OnPhyTxEnd | OnPhyRxDrop
  | OnPhyRxEnd => True
  | _ => statistics (dispatch sim e w).1 = statistics w
  end.
Proof.
  destruct e; try done; cbn [dispatch]; try as_preserves.
  - unfold SLSCompleted. keeps_tac.
  - by destruct macType.
  - unfold StationAssoicated. keeps_tac.
  - unfold SuMimoSisoPhaseMeasurements, siso_measurement_rows. keeps_tac.
  - unfold SuMimoSisoPhaseComplete, siso_feedback_rows. keeps_tac.
  - unfold SuMimoMimoCandidatesSelected, candidates_table. keeps_tac.
  - unfold SuMimoMimoPhaseMeasurements, mimo_header_cells, mimo_row, mimo_row_cells.
    keeps_tac.
  - unfold DataTransmissionIntervalStarted. keeps_tac.
Qed.

Lemma CalculateThroughput_statistics sim out sample w :
  let st := statistics (CalculateThroughput sim out sample w).1 in
  macTxDataFailed st = macTxDataFailed (statistics w)
  /\ transmittedPackets st = transmittedPackets (statistics w)
  /\ droppedPackets st = droppedPackets (statistics w)
  /\ receivedPackets st = receivedPackets (statistics w).
Proof.
  cbv zeta. unfold CalculateThroughput.
  cbv [bind ret when print call modify write read].
  cbn [options set_statistics]. by destruct (csv (options w)).
Qed.

Lemma fired_cons p sf firings :
  fired p (sf :: firings) = (if p sf.2 then 1 else 0) + fired p firings.
Proof.
  unfold fired. rewrite filter_cons. destruct (p sf.2).
  - rewrite decide_True by done. cbn [length]. lia.
  - rewrite decide_False by done. lia.
Qed.

Lemma uint64_t_range z : 0 <= uint64_t z < 2 ^ 64.
Proof. unfold uint64_t. apply Z.mod_pos_bound. lia. Qed.

(** A counter that each callback of a kind increments, and no other
    callback changes, counts the callbacks of that kind. *)
Lemma run_counter folder arrayConfig (g : World -> Z) (p : Firing -> bool) :
  (forall sim net f w,
     g (dispatch sim (bound_callback folder arrayConfig net f) w).1
     = if p f then uint64_t (g w + 1) else g w) ->
  forall firings w,
    0 <= g w < 2 ^ 64 ->
    (run (map (fun sf => (sf.1.1, bound_callback folder arrayConfig sf.1.2 sf.2)) firings)
       w).2 = Done tt ->
    g (run (map (fun sf => (sf.1.1, bound_callback folder arrayConfig sf.1.2 sf.2)) firings)
         w).1
    = uint64_t (g w + fired p firings).
Proof.
  intros Hstep. induction firings as [|sf firings IH]; intros w Hw Hdone.
  - cbn. unfold fired. cbn. rewrite Z.add_0_r. unfold uint64_t.
    by rewrite Z.mod_small.
  - cbn [map run] in *. apply bind_Done_inv in Hdone as ([] & Hd & Hrest).
    rewrite (bind_snd_Done _ _ _ _ Hd), IH, Hstep, fired_cons; [| | done].
    + destruct (p sf.2).
      * unfold uint64_t. rewrite Zplus_mod_idemp_l. f_equal. lia.
      * done.
    + rewrite Hstep. destruct (p sf.2); [apply uint64_t_range | done].
Qed.

Lemma bound_counters folder arrayConfig net sim f w :
  let st := statistics w in
  let st' := statistics (dispatch sim (bound_callback folder arrayConfig net f) w).1 in
  macTxDataFailed st'
  = (if is_Trace_MacTxDataFailed f then uint64_t (macTxDataFailed st + 1)
     else macTxDataFailed st)
  /\ transmittedPackets st'
     = (if is_Trace_PhyTxEnd f then uint64_t (transmittedPackets st + 1)
        else transmittedPackets st)
  /\ droppedPackets st'
     = (if is_Trace_PhyRxDrop f then uint64_t (droppedPackets st + 1)
        else droppedPackets st)
  /\ receivedPackets st'
     = (if is_Trace_PhyRxEnd f then uint64_t (receivedPackets st + 1)
        else receivedPackets st).
Proof.
  cbv zeta.
  pose proof (dispatch_statistics sim (bound_callback folder arrayConfig net f) w) as H.
  destruct f; cbn [bound_callback] in *;
    cbn [is_Trace_MacTxDataFailed is_Trace_PhyTxEnd is_Trace_PhyRxDrop
         is_Trace_PhyRxEnd];
    try (by rewrite H); try done.
  apply CalculateThroughput_statistics.
Qed.

Lemma session_statistics opts arrayConfig activateApp firings :
  let after := session arrayConfig activateApp firings (initial_world opts) in
  after.2 = Done tt ->
  macTxDataFailed (statistics after.1)
  = uint64_t (fired is_Trace_MacTxDataFailed firings)
  /\ transmittedPackets (statistics after.1)
     = uint64_t (fired is_Trace_PhyTxEnd firings)
  /\ droppedPackets (statistics after.1)
     = uint64_t (fired is_Trace_PhyRxDrop firings)
  /\ receivedPackets (statistics after.1)
     = uint64_t (fired is_Trace_PhyRxEnd firings).
Proof.
  cbv zeta. intros Hdone. rewrite session_run in *.
  assert (statistics (boot opts arrayConfig activateApp)
          = statistics (initial_world opts)) as Hboot.
  { unfold boot. as_preserves. unfold connect_traces. keeps_tac. }
  split; [| split; [| split]].
  - rewrite (run_counter _ _ (fun w => macTxDataFailed (statistics w))
               is_Trace_MacTxDataFailed); [by rewrite Hboot | | by rewrite Hboot | done].
    intros. apply bound_counters.
  - rewrite (run_counter _ _ (fun w => transmittedPackets (statistics w))
               is_Trace_PhyTxEnd); [by rewrite Hboot | | by rewrite Hboot | done].
    intros. apply bound_counters.
  - rewrite (run_counter _ _ (fun w => droppedPackets (statistics w))
               is_Trace_PhyRxDrop); [by rewrite Hboot | | by rewrite Hboot | done].
    intros. apply bound_counters.
  - rewrite (run_counter _ _ (fun w => receivedPackets (statistics w))
               is_Trace_PhyRxEnd); [by rewrite Hboot | | by rewrite Hboot | done].
    intros. apply bound_counters.
Qed.

(** X7: The four counters after a session that ran to its end: each holds,
    modulo 2^64, the number of times its trace source fired, and nothing
    else changes it. *)
Theorem session_counters opts arrayConfig activateApp firings :
  let after := session arrayConfig activateApp firings (initial_world opts) in
  after.2 = Done tt ->
  macTxDataFailed (statistics after.1)
  = uint64_t (fired is_Trace_MacTxDataFailed firings)
  /\ transmittedPackets (statistics after.1)
     = uint64_t (fired is_Trace_PhyTxEnd firings)
  /\ droppedPackets (statistics after.1)
     = uint64_t (fired is_Trace_PhyRxDrop firings)
  /\ receivedPackets (statistics after.1)
     = uint64_t (fired is_Trace_PhyRxEnd firings).
Proof. apply session_statistics. Qed.

Lemma session_counters_witness :
  transmittedPackets
    (statistics
       (session "cfg" true
          ((ex_sim 100000000, ex_net, Trace_PhyTxEnd) :: ex_firings
           ++ [(ex_sim 800000000, ex_net, Trace_PhyTxEnd); (ex_sim 900000000, ex_net, Trace_PhyRxEnd)])
          (initial_world (ex_options false))).1)
  = uint64_t
      (fired is_Trace_PhyTxEnd
         ((ex_sim 100000000, ex_net, Trace_PhyTxEnd) :: ex_firings
          ++ [(ex_sim 800000000, ex_net, Trace_PhyTxEnd); (ex_sim 900000000, ex_net, Trace_PhyRxEnd)])).
Proof.
  apply (session_counters (ex_options false) "cfg" true).
  vm_compute. reflexivity.
Defined.

(** ** The report *)

Lemma run_options evs w : options (run evs w).1 = options w.
Proof.
  apply (run_invariant (fun s => seq_options s = options w)); [| done].
  intros sim e s Hs. by destruct e.
Qed.

Lemma session_options arrayConfig activateApp firings opts :
  options (session arrayConfig activateApp firings (initial_world opts)).1 = opts.
Proof. by rewrite session_run, run_options, boot_options. Qed.

(** X8: How [main] ends after a session that ran to its end. With CSV output
    off and the applications installed, an application type that is
    neither [onoff] nor [bulk] has left the pointer [bulk] null, and the
    report dereferences it; in every other case [main] returns. *)
Theorem main_outcome arrayConfig activateApp applicationType sink source
    flowStatistics mbps firings opts :
  (session arrayConfig activateApp firings (initial_world opts)).2 = Done tt ->
  (main arrayConfig activateApp applicationType sink source flowStatistics mbps
     firings (initial_world opts)).2
  = if negb (csv opts) && activateApp && negb (String.eqb applicationType "onoff")
       && negb (String.eqb applicationType "bulk")
    then Undefined else Done tt.
Proof.
  intros Hdone. unfold main. cbv zeta. rewrite (bind_snd_Done _ _ _ _ Hdone).
  unfold report. rewrite bind_read, session_options.
  destruct (csv opts); [reflexivity |]. cbn [negb when andb].
  unfold install_applications.
  destruct activateApp; [| reflexivity]. cbn [when andb].
  destruct (String.eqb applicationType "onoff"); [reflexivity |].
  destruct (String.eqb applicationType "bulk"); reflexivity.
Qed.

Lemma main_outcome_witness :
  (main "cfg" true "udp"
     {| GetTotalReceivedPackets := 0; GetTotalRx := 0 |}
     {| GetTotalTxPackets := 0; GetTotalTxBytes := 0 |} [] 0%Q ex_firings
     (initial_world (ex_options false))).2
  = if negb (csv (ex_options false)) && true && negb (String.eqb "udp" "onoff")
       && negb (String.eqb "udp" "bulk")
    then Undefined else Done tt.
Proof.
  apply (main_outcome "cfg" true "udp"
           {| GetTotalReceivedPackets := 0; GetTotalRx := 0 |}
           {| GetTotalTxPackets := 0; GetTotalTxBytes := 0 |} [] 0%Q ex_firings
           (ex_options false)).
  vm_compute. reflexivity.
Defined.

(** X9: What [main] prints after a session that ran to its end, when it
    returns: nothing in CSV mode; otherwise, when the applications are
    installed, what the flow monitor prints and the application statistics,
    with the totals of the transmitter installed and of the sink, and then
    in every case the MAC and PHY statistics, which show, modulo 2^64, how
    many times each of the four counted trace sources fired. *)
Theorem main_report arrayConfig activateApp applicationType sink source
    flowStatistics mbps firings opts :
  let session_end :=
    session arrayConfig activateApp firings (initial_world opts) in
  let main_end :=
    main arrayConfig activateApp applicationType sink source flowStatistics mbps
      firings (initial_world opts) in
  session_end.2 = Done tt -> main_end.2 = Done tt ->
  cout main_end.1
  = cout session_end.1
    ++ (if csv opts then []
        else application_statistics activateApp sink source flowStatistics mbps
             ++ layer_statistics (uint64_t (fired is_Trace_MacTxDataFailed firings))
                  (uint64_t (fired is_Trace_PhyTxEnd firings))
                  (uint64_t (fired is_Trace_PhyRxEnd firings))
                  (uint64_t (fired is_Trace_PhyRxDrop firings))).
Proof.
  cbv zeta. intros Hdone Hmain.
  destruct (session_statistics opts arrayConfig activateApp firings Hdone)
    as (Hf & Ht & Hd & Hr).
  revert Hmain. unfold main. cbv zeta. rewrite (bind_snd_Done _ _ _ _ Hdone).
  set (w := (session arrayConfig activateApp firings (initial_world opts)).1) in *.
  assert (options w = opts) as Ho by apply session_options.
  clearbody w. unfold report. rewrite bind_read, Ho.
  destruct (csv opts); [intros _; by rewrite app_nil_r |]. cbn [negb when].
  unfold install_applications, application_statistics.
  destruct activateApp; cbn [when].
  - destruct (String.eqb applicationType "onoff"); cbn [deref onoff bulk packetSink].
    + intros _. cbv [bind ret print modify read].
      cbn [cout set_cout statistics fst]. rewrite Hf, Ht, Hd, Hr.
      by rewrite <- !app_assoc.
    + destruct (String.eqb applicationType "bulk"); cbn [deref].
      * intros _. cbv [bind ret print modify read].
        cbn [cout set_cout statistics fst]. rewrite Hf, Ht, Hd, Hr.
        by rewrite <- !app_assoc.
      * done.
  - intros _. cbv [bind ret print modify read]. cbn [cout set_cout statistics fst].
    by rewrite Hf, Ht, Hd, Hr.
Qed.

Lemma main_report_witness :
  cout
    (main "cfg" true "onoff"
       {| GetTotalReceivedPackets := 7; GetTotalRx := 7000 |}
       {| GetTotalTxPackets := 9; GetTotalTxBytes := 9000 |} [] (7 # 125)%Q
       [(ex_sim 800000000, ex_net, Trace_PhyTxEnd);
        (ex_sim 900000000, ex_net, Trace_PhyRxEnd)]
       (initial_world (ex_options false))).1
  = cout
      (session "cfg" true
         [(ex_sim 800000000, ex_net, Trace_PhyTxEnd);
          (ex_sim 900000000, ex_net, Trace_PhyRxEnd)]
         (initial_world (ex_options false))).1
    ++ (if csv (ex_options false) then []
        else application_statistics true
               {| GetTotalReceivedPackets := 7; GetTotalRx := 7000 |}
               {| GetTotalTxPackets := 9; GetTotalTxBytes := 9000 |} [] (7 # 125)%Q
             ++ layer_statistics (uint64_t 0) (uint64_t 1) (uint64_t 1) (uint64_t 0)).
Proof.
  exact (main_report "cfg" true "onoff"
           {| GetTotalReceivedPackets := 7; GetTotalRx := 7000 |}
           {| GetTotalTxPackets := 9; GetTotalTxBytes := 9000 |} [] (7 # 125)%Q
           [(ex_sim 800000000, ex_net, Trace_PhyTxEnd);
            (ex_sim 900000000, ex_net, Trace_PhyRxEnd)]
           (ex_options false) eq_refl eq_refl).
Defined.

(** ** The files of the two devices *)








(** ** The shape of the candidates tables *)

Lemma emits_ext {A} stream ts (r : outcome A) (c c' : M A) :
  (forall w, c w = c' w) -> emits stream ts r c' -> emits stream ts r c.
Proof. intros H Hc w. by rewrite H. Qed.

Lemma emits_at {A} stream (v : list A) i x :
  0 <= i -> v !! Z.to_nat i = Some x -> emits stream [] (Done x) (at_ v i).
Proof.
  intros Hi Hx w. unfold at_. destruct (Z.leb_spec 0 i); [| lia].
  rewrite Hx. apply emits_ret.
Qed.

Lemma candidates_table_emits sim parameters stream n candidates :
  0 <= n <= 254 -> candidates_fit candidates ->
  emits stream
    (insertions
       (candidates_header n
        :: map (candidates_row sim parameters candidates)
             (seqZ 0 (numberOfCandidates candidates))))
    (Done tt) (candidates_table sim parameters stream n candidates).
Proof.
  intros Hn Hfit. destruct candidates as [|first rest]; [done |].
  unfold candidates_fit in Hfit. unfold numberOfCandidates. cbn [head fmap option_fmap
    option_map default from_option].
  set (nc := uint16_t (Z.of_nat (length first.2))) in *.
  pose proof (uint16_t_range (Z.of_nat (length first.2))) as Hnc. fold nc in Hnc.
  unfold candidates_table, insertions. cbn [map concat].
  unfold candidates_header. cbn [app].
  change (Lit "SRC_ID,DST_ID,TRACE_IDX," :: ?l) with ([Lit "SRC_ID,DST_ID,TRACE_IDX,"] ++ l).
  rewrite <- !app_assoc.
  eapply emits_bind; [apply emits_write |].
  eapply emits_bind.
  { eapply emits_ext; [intros w; apply for_uint8_t_le; lia |].
    apply emits_foreach. intros i _. apply emits_write. }
  eapply emits_bind; [apply emits_write |].
  eapply (emits_bind _ [] _ first.2); [apply emits_ret |]. cbv zeta. fold nc.
  eapply emits_ext; [intros w; apply for_uint16_t_lt; lia |].
  rewrite map_map. apply emits_foreach. intros i Hi.
  apply elem_of_seqZ in Hi. unfold candidates_row. rewrite <- app_assoc.
  eapply emits_bind; [apply emits_write |].
  eapply emits_bind; [| apply emits_write].
  apply emits_foreach. intros it Hit.
  rewrite Forall_forall in Hfit. specialize (Hfit it Hit).
  unfold SectorID, AntennaID in *.
  destruct (lookup_lt_is_Some_2 it.2 (Z.to_nat i)) as [x Hx]; [lia |].
  rewrite Hx. cbn [default from_option].
  eapply (emits_bind _ [] _ x); [apply emits_at; [lia | done] |].
  apply emits_write.
Qed.

Lemma commas_app a b : commas (a ++ b) = (commas a + commas b)%nat.
Proof. apply sum_list_with_app. Qed.

Lemma commas_concat {A} (f : A -> list tok) (k : nat) l :
  (forall x, commas (f x) = k) -> commas (concat (map f l)) = (length l * k)%nat.
Proof.
  intros H. induction l as [|x l IH]; [done |].
  cbn [map concat length]. rewrite commas_app, H, IH. lia.
Qed.

Lemma no_endl_concat {A} (f : A -> list tok) l :
  (forall x, no_endl (f x)) -> no_endl (concat (map f l)).
Proof.
  intros H. induction l as [|x l IH]; [constructor |].
  cbn [map concat]. apply Forall_app_2; [apply H | apply IH].
Qed.

Lemma candidates_header_no_endl n : no_endl (candidates_header n).
Proof.
  unfold candidates_header. constructor; [done |].
  apply no_endl_concat. intros i. repeat constructor.
Qed.

Lemma candidates_row_no_endl sim parameters candidates i :
  no_endl (candidates_row sim parameters candidates i).
Proof.
  unfold candidates_row. apply Forall_app_2; [repeat constructor |].
  apply no_endl_concat. intros it. repeat constructor.
Qed.

Lemma candidates_header_columns n :
  columns (candidates_header n) = (4 + 2 * Z.to_nat n)%nat.
Proof.
  unfold columns, candidates_header.
  change (Lit "SRC_ID,DST_ID,TRACE_IDX," :: ?l)
    with ([Lit "SRC_ID,DST_ID,TRACE_IDX,"] ++ l).
  rewrite commas_app, (commas_concat _ 2) by done.
  rewrite length_seqZ. change (commas [Lit "SRC_ID,DST_ID,TRACE_IDX,"]) with 3%nat. lia.
Qed.

Lemma candidates_row_columns sim parameters candidates i :
  columns (candidates_row sim parameters candidates i)
  = (4 + 2 * length candidates)%nat.
Proof.
  unfold columns, candidates_row.
  rewrite commas_app, (commas_concat _ 2) by done.
  match goal with |- context [(commas ?l + _)%nat] => change (commas l) with 3%nat end.
  unfold AntennaID, SectorID. lia.
Qed.

Lemma candidates_table_lines sim parameters n candidates :
  lines_of
    (insertions
       (candidates_header n
        :: map (candidates_row sim parameters candidates)
             (seqZ 0 (numberOfCandidates candidates))))
  = candidates_header n
    :: map (candidates_row sim parameters candidates)
         (seqZ 0 (numberOfCandidates candidates)).
Proof.
  apply lines_of_insertions. constructor; [apply candidates_header_no_endl |].
  apply Forall_map, Forall_forall. intros i _. apply candidates_row_no_endl.
Qed.

(** X10: The two candidates tables, when the callback returns. Both headers
    have a pair of columns for each antenna of the Tx map, counted in 8
    bits; each table has a row for each sector of the first list of its
    map, counted in 16 bits, and a row has a pair of cells for each antenna
    of its own map. The rows of the Rx table are as wide as its header only
    when the two maps have as many antennas. *)
Theorem SuMimoMimoCandidatesSelected_tables sim parameters from txCandidates
    rxCandidates w :
  let after :=
    SuMimoMimoCandidatesSelected sim parameters from txCandidates rxCandidates w in
  let folder := tracesFolder (options w) in
  let n := uint8_t (Z.of_nat (length txCandidates)) in
  after.2 = Done tt ->
  lines_of (file_content (mimo_tx_candidates_file folder parameters) after.1)
  = candidates_header n
    :: map (candidates_row sim parameters txCandidates)
         (seqZ 0 (numberOfCandidates txCandidates))
  /\ lines_of (file_content (mimo_rx_candidates_file folder parameters) after.1)
     = candidates_header n
       :: map (candidates_row sim parameters rxCandidates)
            (seqZ 0 (numberOfCandidates rxCandidates))
  /\ columns (candidates_header n) = (4 + 2 * Z.to_nat n)%nat
  /\ (forall i, columns (candidates_row sim parameters txCandidates i)
                = (4 + 2 * length txCandidates)%nat)
  /\ (forall i, columns (candidates_row sim parameters rxCandidates i)
                = (4 + 2 * length rxCandidates)%nat).
Proof.
  cbv zeta. intros Hdone.
  split; [| split; [| split; [apply candidates_header_columns |
    split; intros; apply candidates_row_columns]]];
    revert Hdone; unfold SuMimoMimoCandidatesSelected; do 3 mstep; cbv zeta;
    cbn [options files set_cout];
    set (n := uint8_t (Z.of_nat (length txCandidates)));
    set (htx := mimo_tx_candidates_file (tracesFolder (options w)) parameters);
    set (hrx := mimo_rx_candidates_file (tracesFolder (options w)) parameters);
    pose proof (candidates_files_differ (tracesFolder (options w)) parameters) as Hne;
    pose proof (uint8_t_range (Z.of_nat (length txCandidates))) as Hn; fold n in Hn;
    intros Hdone;
    pose proof Hdone as Hdone';
    apply bind_Done_inv in Hdone' as ([] & Htx & Hrx);
    cbv beta in Hrx; rewrite bind_create_out in Hrx;
    (assert (n <= 254) as Hn254
       by (destruct (Z.le_gt_cases n 254) as [|Hgt]; [done |];
           rewrite candidates_table_diverges in Htx by lia; done));
    pose proof (candidates_table_emits sim parameters htx n txCandidates
                  ltac:(lia) (candidates_table_Done_inv _ _ _ _ _ _ Htx)) as Etx;
    pose proof (candidates_table_emits sim parameters hrx n rxCandidates
                  ltac:(lia) (candidates_table_Done_inv _ _ _ _ _ _ Hrx)) as Erx;
    rewrite (bind_emits _ _ htx _ tt) by apply Etx; rewrite bind_create_out, Erx;
    cbn [fst].
  - rewrite file_content_emit_ne, file_content_set_files_ne by done.
    rewrite (file_content_fresh _ _ (set_cout _ w)). apply candidates_table_lines.
  - match goal with |- context [emit hrx ?ts (set_files _ ?w')] =>
      rewrite (file_content_fresh hrx ts w')
    end.
    apply candidates_table_lines.
Qed.

Lemma SuMimoMimoCandidatesSelected_tables_witness :
  lines_of
    (file_content (mimo_rx_candidates_file "Traces/" ex_sta)
       (SuMimoMimoCandidatesSelected (ex_sim 900000000) ex_sta 1 ex_candidates
          [(1, [3; 4])] (initial_world (ex_options false))).1)
  = candidates_header (uint8_t (Z.of_nat (length ex_candidates)))
    :: map (candidates_row (ex_sim 900000000) ex_sta [(1, [3; 4])])
         (seqZ 0 (numberOfCandidates [(1, [3; 4])])).
Proof.
  apply (SuMimoMimoCandidatesSelected_tables (ex_sim 900000000) ex_sta 1 ex_candidates
           [(1, [3; 4])] (initial_world (ex_options false))).
  vm_compute. reflexivity.
Defined.

(** ** Loops that end *)

Lemma for_uint8_t_lt {St} n (body : Z -> St -> M St) s w :
  n <= 255 ->
  for_uint8_t 0 (fun i => i <? n) body s w = foreach (seqZ 0 n) body s w.
Proof.
  intros Hn. unfold for_uint8_t. rewrite (seqZ_to_nat 0 n).
  apply for_from_seqZ; [lia | |].
  - intros j Hj. split; [apply Z.ltb_lt; lia | apply uint8_t_small; lia].
  - apply Z.ltb_ge. lia.
Qed.

Lemma halts_ret {A} (a : A) : halts (ret a).
Proof. by intros w. Qed.

Lemma halts_write stream ts : halts (write stream ts).
Proof. by intros w. Qed.

Lemma halts_bind {A B} (c : M A) (k : A -> M B) :
  halts c -> (forall a, halts (k a)) -> halts (bind c k).
Proof.
  intros Hc Hk w. unfold bind. specialize (Hc w).
  destruct (c w) as [w' [a| | |]]; cbn in *; try done. apply Hk.
Qed.

Lemma halts_at {A} (v : list A) i : halts (at_ v i).
Proof. intros w. unfold at_. by destruct (if 0 <=? i then v !! Z.to_nat i else None). Qed.

Lemma halts_pq_top q : halts (pq_top q).
Proof. intros w. by destruct q. Qed.

Lemma halts_foreach {A St} (l : list A) (body : A -> St -> M St) s :
  (forall x s, halts (body x s)) -> halts (foreach l body s).
Proof.
  intros Hb. revert s. induction l as [|x l IH]; intros s; cbn [foreach].
  - apply halts_ret.
  - apply halts_bind; [apply Hb | intros; apply IH].
Qed.

Lemma halts_for_uint8_t_lt {St} n (body : Z -> St -> M St) s :
  n <= 255 -> (forall i s, halts (body i s)) ->
  halts (for_uint8_t 0 (fun i => i <? n) body s).
Proof.
  intros Hn Hb w. rewrite for_uint8_t_lt by done. by apply halts_foreach.
Qed.

Lemma halts_for_uint8_t_le {St} n (body : Z -> St -> M St) s :
  n <= 254 -> (forall i s, halts (body i s)) ->
  halts (for_uint8_t 1 (fun i => i <=? n) body s).
Proof.
  intros Hn Hb w. rewrite for_uint8_t_le by done. by apply halts_foreach.
Qed.

(** The draining loop ends: every turn that returns has popped an
    element. *)
Lemma halts_while (body : SNR_MEASUREMENT_AWV_IDs_QUEUE -> M SNR_MEASUREMENT_AWV_IDs_QUEUE)
    fuel :
  (forall q, halts (body q)) ->
  (forall q w q', (body q w).2 = Done q' -> (length q' < length q)%nat) ->
  forall q, (length q < fuel)%nat -> halts (while_not_empty fuel q body).
Proof.
  intros Hb Hpop. induction fuel as [|fuel IH]; intros q Hq w; [lia |].
  cbn [while_not_empty]. destruct (pq_empty q); [done |].
  unfold bind. pose proof (Hb q w) as Hq1. pose proof (Hpop q w) as Hq2.
  destruct (body q w) as [w' [q'| | |]]; cbn in *; try done.
  apply IH. specialize (Hq2 q' eq_refl). lia.
Qed.

Lemma for_uint8_t_lt_diverges {St} n (body : Z -> St -> M St) s w :
  256 <= n -> (forall i s, succeeds (body i s)) ->
  (for_uint8_t 0 (fun i => i <? n) body s w).2 = Diverges.
Proof.
  intros Hn Hb. unfold for_uint8_t. apply for_from_diverges; [| done |].
  - intros j. apply Z.ltb_lt. pose proof (uint8_t_range j). lia.
  - apply Z.ltb_lt. lia.
Qed.

Lemma for_uint8_t_le_diverges {St} n (body : Z -> St -> M St) s w :
  255 <= n -> (forall i s, succeeds (body i s)) ->
  (for_uint8_t 1 (fun i => i <=? n) body s w).2 = Diverges.
Proof.
  intros Hn Hb. unfold for_uint8_t. apply for_from_diverges; [| done |].
  - intros j. apply Z.leb_le. pose proof (uint8_t_range j). lia.
  - apply Z.leb_le. lia.
Qed.

Lemma succeeds_for_uint8_t_lt {St} n (body : Z -> St -> M St) s :
  n <= 255 -> (forall i s, succeeds (body i s)) ->
  succeeds (for_uint8_t 0 (fun i => i <? n) body s).
Proof.
  intros Hn Hb w. rewrite for_uint8_t_lt by done.
  apply succeeds_foreach. auto.
Qed.

(** ** The MIMO measurements table: its header *)

(** The three loops of the header end unless a count of antennas is 255,
    the greatest value of their 8-bit counters, or the product of the
    counts, which the third loop compares with its 8-bit counter, is above
    255. *)
Lemma mimo_header_cells_outcome stream nTx nRx w :
  0 <= nTx < 256 -> 0 <= nRx < 256 ->
  (mimo_header_cells stream nTx nRx w).2
  = if (nTx =? 255) || (nRx =? 255) || (256 <=? nRx * nTx) then Diverges else Done tt.
Proof.
  intros HTx HRx. unfold mimo_header_cells. rewrite bind_write.
  destruct (Z.eqb_spec nTx 255) as [-> | HT].
  { cbn [orb]. apply bind_snd_Diverges, for_uint8_t_le_diverges; [lia |].
    intros. apply succeeds_modify. }
  match goal with |- (bind ?c _ ?w').2 = _ =>
    destruct (succeeds_for_uint8_t_le nTx
                (fun i (_ : unit) =>
                   write stream [Lit "TX_ANTENNA_ID"; Num (uint16_t i);
                                 Lit ",TX_SECTOR_ID"; Num (uint16_t i);
                                 Lit ",TX_AWV_ID"; Num (uint16_t i); Lit ","]) tt
                ltac:(lia) ltac:(intros; apply succeeds_modify) w') as [[] H1]
  end.
  rewrite (bind_snd_Done _ _ _ tt H1). cbn [orb].
  destruct (Z.eqb_spec nRx 255) as [-> | HR].
  { cbn [orb]. apply bind_snd_Diverges, for_uint8_t_le_diverges; [lia |].
    intros. apply succeeds_modify. }
  match goal with |- (bind ?c _ ?w').2 = _ =>
    destruct (succeeds_for_uint8_t_le nRx
                (fun i (_ : unit) =>
                   write stream [Lit "RX_ANTENNA_ID"; Num (uint16_t i);
                                 Lit ",RX_SECTOR_ID"; Num (uint16_t i);
                                 Lit ",RX_AWV_ID"; Num (uint16_t i); Lit ","]) tt
                ltac:(lia) ltac:(intros; apply succeeds_modify) w') as [[] H2]
  end.
  rewrite (bind_snd_Done _ _ _ tt H2). cbn [orb].
  destruct (Z.leb_spec 256 (nRx * nTx)) as [HP | HP].
  - apply for_uint8_t_lt_diverges; [done |]. intros. apply succeeds_modify.
  - match goal with |- (?c ?w').2 = _ =>
      destruct (succeeds_for_uint8_t_lt (nRx * nTx)
                  (fun (_ : Z) (_ : unit) => write stream [Lit "SNR,"]) tt
                  ltac:(lia) ltac:(intros; apply succeeds_modify) w') as [[] H3]
    end.
    exact H3.
Qed.

Lemma mimo_row_cells_halts sim parameters from mm nTx nRx rct stream awvId :
  nTx <= 255 -> nRx <= 255 ->
  halts (mimo_row_cells sim parameters from mm nTx nRx rct stream awvId).
Proof.
  intros HT HR. unfold mimo_row_cells. cbv zeta.
  repeat first
    [ apply halts_bind; [| intros ?]
    | apply halts_foreach; intros ? ?
    | apply halts_for_uint8_t_lt; [assumption | intros ? ?]
    | apply halts_at | apply halts_write | apply halts_ret ].
Qed.

Lemma mimo_row_halts sim parameters from mm nTx nRx rct stream q :
  nTx <= 255 -> nRx <= 255 ->
  halts (mimo_row sim parameters from mm nTx nRx rct stream q).
Proof.
  intros HT HR. unfold mimo_row.
  repeat first
    [ by apply mimo_row_cells_halts
    | apply halts_pq_top | apply halts_write | apply halts_ret
    | apply halts_bind; [| intros ?] ].
Qed.

Lemma mimo_row_pops sim parameters from mm nTx nRx rct stream q w q' :
  (mimo_row sim parameters from mm nTx nRx rct stream q w).2 = Done q' ->
  (length q' < length q)%nat.
Proof.
  destruct q as [|x l]; [done |].
  destruct (mimo_row_spec sim parameters from mm nTx nRx rct stream x l)
    as (cs & r & _ & Hrow).
  rewrite Hrow. destruct r; try done. cbn [snd]. intros [= <-].
  rewrite extract_max_length. cbn. lia.
Qed.

(** X11: The MIMO measurements callback runs for ever exactly when a loop of
    its header does: when a count of antennas is 255, or when the product of
    the two counts is above 255. It has then written no complete line. In
    every other case it ends, by returning or by an error in a row. *)
Theorem SuMimoMimoPhaseMeasurements_diverges sim parameters from mm minSnr d nTx nRx
    rct w :
  let table := mimo_measurements_file (tracesFolder (options w)) parameters in
  let after :=
    SuMimoMimoPhaseMeasurements sim parameters from mm minSnr d nTx nRx rct w in
  0 <= nTx < 256 -> 0 <= nRx < 256 ->
  (after.2 = Diverges <-> nTx = 255 \/ nRx = 255 \/ 256 <= nRx * nTx)
  /\ (after.2 = Diverges -> lines_of (file_content table after.1) = []).
Proof.
  cbv zeta. intros HT HR.
  unfold SuMimoMimoPhaseMeasurements. do 3 mstep. cbn [options files set_cout].
  set (h := mimo_measurements_file (tracesFolder (options w)) parameters).
  match goal with |- context [bind _ _ ?w'] => set (w0 := w') end.
  destruct (mimo_header_cells_writes (fun _ => True) h nTx nRx)
    as (pre & r0 & [Hpre _] & Hheader).
  pose proof (mimo_header_cells_outcome h nTx nRx w0 HT HR) as Hout.
  rewrite Hheader in Hout. cbn [snd] in Hout.
  rewrite (bind_eq _ _ _ _ _ (Hheader w0)).
  destruct ((nTx =? 255) || (nRx =? 255) || (256 <=? nRx * nTx)) eqn:Hcond;
    subst r0; cbn [fst snd].
  - assert (nTx = 255 \/ nRx = 255 \/ 256 <= nRx * nTx) as Hc.
    { apply orb_true_iff in Hcond as [Hcond | Hcond];
        [apply orb_true_iff in Hcond as [Hcond | Hcond] |]; lia. }
    split; [done |]. intros _. subst w0.
    rewrite (file_content_fresh h _ (set_cout _ w)).
    unfold lines_of. by apply lines_from_no_endl.
  - assert (~ (nTx = 255 \/ nRx = 255 \/ 256 <= nRx * nTx)) as Hc.
    { apply orb_false_iff in Hcond as [Hcond H3].
      apply orb_false_iff in Hcond as [H1 H2]. lia. }
    assert (halts
      (write h [Lit "min_Stream_SNR"; Endl] ;;
       while_not_empty (S (length minSnr)) minSnr
         (mimo_row sim parameters from mm nTx nRx rct h))) as Hhalts.
    { apply halts_bind; [apply halts_write | intros _].
      apply halts_while; [| | lia].
      - intros q. apply mimo_row_halts; lia.
      - intros q w1 q'. apply mimo_row_pops. }
    specialize (Hhalts (emit h pre w0)). by split.
Qed.

Lemma SuMimoMimoPhaseMeasurements_diverges_witness :
  (SuMimoMimoPhaseMeasurements (ex_sim 900000000) ex_mimo_sta 1 ex_measurements
     ex_queue false 16 16 2 (initial_world (ex_options false))).2 = Diverges.
Proof.
  apply (SuMimoMimoPhaseMeasurements_diverges (ex_sim 900000000) ex_mimo_sta 1
           ex_measurements ex_queue false 16 16 2 (initial_world (ex_options false)));
    [lia | lia |].
  right. right. lia.
Defined.

(** ** What a computation has inserted when it returns *)

Lemma completes_ret {A} stream (P : list tok -> Prop) (a : A) :
  P [] -> completes stream P (ret a).
Proof. intros HP. exists [], (Done a). split; [apply emits_ret | done]. Qed.

Lemma completes_stop {A} stream (P : list tok -> Prop) (c : M A) (r : outcome A) :
  (forall a, r <> Done a) -> (forall w, c w = (w, r)) -> completes stream P c.
Proof.
  intros Hr Hc. exists [], r. split.
  - intros w. by rewrite Hc, emit_nil.
  - intros a Ha. by destruct (Hr a).
Qed.

Lemma completes_write stream (P : list tok -> Prop) ts :
  P ts -> completes stream P (write stream ts).
Proof. intros HP. exists ts, (Done tt). split; [apply emits_write | done]. Qed.

Lemma completes_bind {A B} stream (P Q R : list tok -> Prop) (c : M A) (k : A -> M B) :
  (forall x y, P x -> Q y -> R (x ++ y)) ->
  completes stream P c -> (forall a, completes stream Q (k a)) ->
  completes stream R (bind c k).
Proof.
  intros HR (ts & r & Hc & HP) Hk. destruct r as [a| | |].
  - destruct (Hk a) as (ts' & r' & Hka & HQ).
    exists (ts ++ ts'), r'. split; [by eapply emits_bind |].
    intros b ->. eapply HR; eauto.
  - exists ts, Throws_out_of_range. split; [by apply emits_bind_Throws | done].
  - exists ts, Undefined. split; [by apply emits_bind_Undefined | done].
  - exists ts, Diverges. split; [by apply emits_bind_Diverges | done].
Qed.

Lemma completes_ext {A} stream P (c c' : M A) :
  (forall w, c w = c' w) -> completes stream P c' -> completes stream P c.
Proof.
  intros H (ts & r & Hc & HP). exists ts, r. split; [| done].
  by apply (emits_ext _ _ _ _ c').
Qed.

Lemma completes_weaken {A} stream (P Q : list tok -> Prop) (c : M A) :
  (forall ts, P ts -> Q ts) -> completes stream P c -> completes stream Q c.
Proof. intros HPQ (ts & r & Hc & HP). exists ts, r. split; [done |]. eauto. Qed.

Lemma cells_app j k x y : cells j x -> cells k y -> cells (j + k) (x ++ y).
Proof.
  intros [Hx1 Hx2] [Hy1 Hy2]. split; [by apply Forall_app_2 |].
  by rewrite commas_app, Hx2, Hy2.
Qed.

Lemma cells_nil : cells 0 [].
Proof. split; [constructor | done]. Qed.

Lemma completes_cells_bind {A B} stream j k (c : M A) (f : A -> M B) :
  completes stream (cells j) c -> (forall a, completes stream (cells k) (f a)) ->
  completes stream (cells (j + k)) (bind c f).
Proof. apply completes_bind, cells_app. Qed.

Lemma completes_at {A} stream (v : list A) i : completes stream (cells 0) (at_ v i).
Proof.
  unfold at_. destruct (if 0 <=? i then v !! Z.to_nat i else None).
  - apply completes_ret, cells_nil.
  - by apply (completes_stop _ _ _ Throws_out_of_range).
Qed.

Lemma completes_pq_top stream q : completes stream (cells 0) (pq_top q).
Proof.
  destruct q; [by apply (completes_stop _ _ _ Undefined) | apply completes_ret, cells_nil].
Qed.

(** A loop whose turns each insert [k] commas inserts [k] commas for
    each element. *)
Lemma completes_foreach {A St} stream k (l : list A) (body : A -> St -> M St) s :
  (forall x s, completes stream (cells k) (body x s)) ->
  completes stream (cells (length l * k)) (foreach l body s).
Proof.
  intros Hb. revert s. induction l as [|x l IH]; intros s; cbn [foreach length].
  - apply completes_ret, cells_nil.
  - replace (S (length l) * k)%nat with (k + length l * k)%nat by lia.
    apply completes_cells_bind; [apply Hb | intros; apply IH].
Qed.

Lemma completes_for_uint8_t_lt {St} stream k n (body : Z -> St -> M St) s :
  n <= 255 -> (forall i s, completes stream (cells k) (body i s)) ->
  completes stream (cells (Z.to_nat n * k)) (for_uint8_t 0 (fun i => i <? n) body s).
Proof.
  intros Hn Hb.
  eapply completes_ext; [intros w; by apply for_uint8_t_lt |].
  rewrite <- (length_seqZ 0 n) at 1. by apply completes_foreach.
Qed.

Lemma completes_for_uint8_t_le {St} stream k n (body : Z -> St -> M St) s :
  n <= 254 -> (forall i s, completes stream (cells k) (body i s)) ->
  completes stream (cells (Z.to_nat n * k)) (for_uint8_t 1 (fun i => i <=? n) body s).
Proof.
  intros Hn Hb.
  eapply completes_ext; [intros w; by apply for_uint8_t_le |].
  rewrite <- (length_seqZ 1 n) at 1. by apply completes_foreach.
Qed.

Lemma table_of_app k x y : table_of k x -> table_of k y -> table_of k (x ++ y).
Proof.
  intros (rx & -> & Hx) (ry & -> & Hy). exists (rx ++ ry).
  split; [by rewrite insertions_app | by apply Forall_app_2].
Qed.

Lemma table_of_nil k : table_of k [].
Proof. by exists []. Qed.

Lemma table_of_row k cs last :
  cells k cs -> is_Endl last = false -> tok_commas last = 0%nat ->
  table_of (S k) (cs ++ [last; Endl]).
Proof.
  intros [Hc1 Hc2] Hl1 Hl2. exists [cs ++ [last]]. split.
  - unfold insertions. cbn. by rewrite <- !app_assoc.
  - constructor; [| constructor]. split.
    + apply Forall_app_2; [done | by constructor].
    + unfold columns. rewrite commas_app, Hc2. cbn. rewrite Hl2. lia.
Qed.

Lemma table_of_lines k ts :
  table_of k ts -> Forall (fun l => columns l = k) (lines_of ts).
Proof.
  intros (rs & -> & Hrs). rewrite lines_of_insertions.
  - eapply Forall_impl; [exact Hrs |]. by intros l [_ H].
  - eapply Forall_impl; [exact Hrs |]. by intros l [H _].
Qed.

Lemma completes_while stream k fuel q body :
  (forall q, completes stream (table_of k) (body q)) ->
  completes stream (table_of k) (while_not_empty fuel q body).
Proof.
  intros Hb. revert q. induction fuel as [|fuel IH]; intros q; cbn [while_not_empty].
  - by apply (completes_stop _ _ _ Diverges).
  - destruct (pq_empty q); [apply completes_ret, table_of_nil |].
    eapply completes_bind; [apply table_of_app | apply Hb | intros; apply IH].
Qed.

(** ** The MIMO measurements table: its width *)

Ltac cells_of_write := split; [repeat constructor | lazy; reflexivity].

Ltac completes_tac :=
  repeat first
    [ apply completes_at
    | apply completes_write; cells_of_write
    | apply completes_ret, cells_nil
    | apply completes_foreach; intros ? ?
    | apply completes_for_uint8_t_lt; [lia | intros ? ?]
    | apply completes_for_uint8_t_le; [lia | intros ? ?]
    | apply completes_cells_bind; [| intros ?] ].

(** The number of commas in a line of the table, before its last cell. *)
Lemma mimo_header_cells_completes stream nTx nRx :
  0 <= nTx <= 254 -> 0 <= nRx <= 254 -> nRx * nTx <= 255 ->
  completes stream
    (cells (3 + 3 * Z.to_nat nTx + 3 * Z.to_nat nRx + Z.to_nat nTx * Z.to_nat nRx))
    (mimo_header_cells stream nTx nRx).
Proof.
  intros HT HR HP. unfold mimo_header_cells.
  eapply completes_weaken; [| completes_tac].
  intros ts [H1 H2]. split; [done |]. rewrite H2.
  rewrite Z2Nat.inj_mul by lia. lia.
Qed.

Lemma mimo_row_cells_completes sim parameters from mm nTx nRx rct stream awvId :
  0 <= nTx <= 255 -> 0 <= nRx <= 255 ->
  completes stream
    (cells (3 + 3 * Z.to_nat nTx + 3 * Z.to_nat nRx + Z.to_nat nTx * Z.to_nat nRx))
    (mimo_row_cells sim parameters from mm nTx nRx rct stream awvId).
Proof.
  intros HT HR. unfold mimo_row_cells. cbv zeta.
  eapply completes_weaken; [| completes_tac].
  intros ts [H1 H2]. split; [done |]. rewrite H2. lia.
Qed.

Lemma mimo_row_completes sim parameters from mm nTx nRx rct stream q :
  0 <= nTx <= 255 -> 0 <= nRx <= 255 ->
  completes stream
    (table_of (4 + 3 * Z.to_nat nTx + 3 * Z.to_nat nRx + Z.to_nat nTx * Z.to_nat nRx))
    (mimo_row sim parameters from mm nTx nRx rct stream q).
Proof.
  intros HT HR. unfold mimo_row. destruct q as [|x l].
  { apply (completes_stop _ _ _ Undefined); done. }
  change (pq_top (x :: l)) with (@ret SNR_MEASUREMENT_AWV_IDs (extract_max x l).1).
  eapply completes_ext; [intros w; reflexivity |].
  change (bind (ret ?a) ?k) with (k a). cbv beta.
  eapply (completes_bind _ _ (fun y => y = [Db (extract_max x l).1.1; Endl]));
    [| by apply mimo_row_cells_completes |].
  - intros cs y Hcs ->. by apply (table_of_row _ cs (Db _)).
  - intros _. eexists _, (Done _). split; [| done].
    intros w. change (bind (ret ?a) ?k w) with (k a w). cbv beta.
    rewrite bind_write. reflexivity.
Qed.

(** X12: A MIMO measurements table that was written to its end is rectangular:
    the header and every row have three cells of identifiers, three cells
    for each Tx and each Rx antenna, one SNR cell for each pair of a Tx and
    an Rx antenna, and the cell of the minimum stream SNR. *)
Theorem SuMimoMimoPhaseMeasurements_rectangular sim parameters from mm minSnr d nTx
    nRx rct w :
  let table := mimo_measurements_file (tracesFolder (options w)) parameters in
  let after :=
    SuMimoMimoPhaseMeasurements sim parameters from mm minSnr d nTx nRx rct w in
  0 <= nTx < 256 -> 0 <= nRx < 256 -> after.2 = Done tt ->
  Forall
    (fun l => columns l
              = (4 + 3 * Z.to_nat nTx + 3 * Z.to_nat nRx
                 + Z.to_nat nTx * Z.to_nat nRx)%nat)
    (lines_of (file_content table after.1)).
Proof.
  cbv zeta. intros HT HR.
  unfold SuMimoMimoPhaseMeasurements. do 3 mstep. cbn [options files set_cout].
  set (h := mimo_measurements_file (tracesFolder (options w)) parameters).
  match goal with |- context [bind _ _ ?w'] => set (w0 := w') end.
  intros Hdone.
  assert (nTx <= 254 /\ nRx <= 254 /\ nRx * nTx <= 255) as (HT' & HR' & HP).
  { apply bind_Done_inv in Hdone as ([] & Hh & _).
    rewrite mimo_header_cells_outcome in Hh by done.
    destruct (Z.eqb_spec nTx 255), (Z.eqb_spec nRx 255),
      (Z.leb_spec 256 (nRx * nTx)); try done. lia. }
  set (K := (3 + 3 * Z.to_nat nTx + 3 * Z.to_nat nRx
             + Z.to_nat nTx * Z.to_nat nRx)%nat).
  assert (completes h (table_of (S K))
    (mimo_header_cells h nTx nRx ;;
     write h [Lit "min_Stream_SNR"; Endl] ;;
     while_not_empty (S (length minSnr)) minSnr
       (mimo_row sim parameters from mm nTx nRx rct h))) as (ts & r & Hc & Hts).
  { eapply (completes_bind _ _
              (fun y => exists t, y = [Lit "min_Stream_SNR"; Endl] ++ t
                                  /\ table_of (S K) t));
      [| apply mimo_header_cells_completes; lia |].
    - intros cs y Hcs (t & -> & Ht). rewrite app_assoc.
      apply table_of_app; [| done]. by apply (table_of_row _ cs (Lit _)).
    - intros _.
      destruct (completes_while h (S K) (S (length minSnr)) minSnr
                  (mimo_row sim parameters from mm nTx nRx rct h))
        as (t & r & Ht & HPt).
      { intros q. apply mimo_row_completes; lia. }
      exists ([Lit "min_Stream_SNR"; Endl] ++ t), r. split.
      + eapply emits_bind; [apply emits_write | done].
      + intros a Ha. exists t. split; [done |]. by eapply HPt. }
  rewrite Hc in Hdone |- *. cbn [fst snd] in *. subst w0.
  rewrite (file_content_fresh h _ (set_cout _ w)).
  apply table_of_lines. by eapply Hts.
Qed.

Lemma SuMimoMimoPhaseMeasurements_rectangular_witness :
  Forall
    (fun l => columns l
              = (4 + 3 * Z.to_nat 2 + 3 * Z.to_nat 2 + Z.to_nat 2 * Z.to_nat 2)%nat)
    (lines_of
       (file_content
          (mimo_measurements_file
             (tracesFolder (options (initial_world (ex_options false)))) ex_mimo_sta)
          (SuMimoMimoPhaseMeasurements (ex_sim 900000000) ex_mimo_sta 1
             ex_measurements ex_queue false 2 2 2
             (initial_world (ex_options false))).1)).
Proof.
  apply (SuMimoMimoPhaseMeasurements_rectangular (ex_sim 900000000) ex_mimo_sta 1
           ex_measurements ex_queue false 2 2 2 (initial_world (ex_options false)));
    [lia | lia |].
  vm_compute. reflexivity.
Defined.

(** ** The MIMO measurements table: when it is written to its end *)

Lemma at_Done {A} (v : list A) i x w :
  0 <= i -> v !! Z.to_nat i = Some x -> at_ v i w = (w, Done x).
Proof.
  intros Hi Hx. unfold at_. destruct (Z.leb_spec 0 i); [| lia]. by rewrite Hx.
Qed.

(** A loop over successive integers that keeps an invariant of its state
    and of the integer returns, with the invariant at the end. *)
Lemma foreach_seqZ_invariant {St} (I : Z -> St -> Prop) (body : Z -> St -> M St)
    (k : nat) :
  forall a s w,
    (forall i s w, a <= i < a + Z.of_nat k -> I i s ->
       exists s', (body i s w).2 = Done s' /\ I (i + 1) s') ->
    I a s ->
    exists s', (foreach (seqZ a (Z.of_nat k)) body s w).2 = Done s'
               /\ I (a + Z.of_nat k) s'.
Proof.
  induction k as [|k IH]; intros a s w Hb Hs.
  - exists s. cbn. by rewrite Z.add_0_r.
  - rewrite seqZ_cons by lia. cbn [foreach].
    destruct (Hb a s w ltac:(lia) Hs) as (s1 & Hs1 & HI1).
    rewrite (bind_snd_Done _ _ _ _ Hs1).
    replace (Z.pred (Z.of_nat (S k))) with (Z.of_nat k) by lia.
    replace (Z.succ a) with (a + 1) by lia.
    destruct (IH (a + 1) s1 (body a s w).1) as (s' & Hs' & HI'); [| done |].
    + intros i s2 w2 Hi. apply Hb. lia.
    + exists s'. split; [done |].
      replace (a + Z.of_nat (S k)) with (a + 1 + Z.of_nat k) by lia. done.
Qed.

Lemma for_uint8_t_lt_invariant {St} (I : Z -> St -> Prop) (body : Z -> St -> M St)
    n s w :
  0 <= n <= 255 ->
  (forall i s w, 0 <= i < n -> I i s -> exists s', (body i s w).2 = Done s' /\ I (i + 1) s') ->
  I 0 s ->
  exists s', (for_uint8_t 0 (fun i => i <? n) body s w).2 = Done s' /\ I n s'.
Proof.
  intros Hn Hb Hs. rewrite for_uint8_t_lt by lia.
  destruct (foreach_seqZ_invariant I body (Z.to_nat n) 0 s w) as (s' & Hs' & HI).
  - intros i s1 w1 Hi. apply Hb. lia.
  - done.
  - exists s'. rewrite Z2Nat.id in * by lia. by rewrite Z.add_0_l in HI.
Qed.

(** The measurements the first loop of a row gathers. *)
Lemma gather_measurements (mm : MIMO_SNR_LIST) (txId rct bound : Z) (l : list (Z * Z)) :
  Forall (fun rxId : Z * Z =>
            let index := (txId - 1) * rct + rxId.2 - 1 in
            0 <= index
            /\ exists m, mm !! Z.to_nat index = Some m /\ bound <= Z.of_nat (length m.2))
    l ->
  forall acc w,
    exists ms,
      foreach l (fun rxId acc =>
                   m <- at_ mm ((txId - 1) * rct + rxId.2 - 1) ;; ret (acc ++ [m]))
        acc w
      = (w, Done (acc ++ ms))
      /\ length ms = length l
      /\ Forall (fun m : Z * list double => bound <= Z.of_nat (length m.2)) ms.
Proof.
  induction 1 as [|rxId l (Hi & m & Hm & Hb) _ IH]; intros acc w.
  - exists []. cbn. by rewrite app_nil_r.
  - destruct (IH (acc ++ [m]) w) as (ms & Hms & Hlen & Hall).
    exists (m :: ms). cbn [foreach]. unfold bind at 1.
    unfold bind at 1. rewrite (at_Done _ _ m) by done. cbn [ret].
    rewrite Hms, <- app_assoc. cbn. split; [done |]. split; [by f_equal |].
    by constructor.
Qed.

Lemma config_loop_returns stream (combination : MIMO_AWV_CONFIGURATION) n w :
  0 <= n <= 255 -> n <= Z.of_nat (length combination) ->
  (for_uint8_t 0 (fun i => i <? n) (fun i (_ : unit) =>
     c <- at_ combination i ;;
     write stream [Num (uint16_t c.1.1); Lit ","; Num (uint16_t c.1.2); Lit ",";
                   Num (uint16_t c.2); Lit ","]) tt w).2 = Done tt.
Proof.
  intros Hn Hlen.
  match goal with |- (for_uint8_t 0 _ ?body tt w).2 = _ =>
    destruct (for_uint8_t_lt_invariant (fun _ _ => True) body n tt w Hn)
      as ([] & Hdone & _)
  end; [| done | done].
  intros i [] w1 Hi _. exists tt. split; [| done].
  unfold MIMO_AWV_CONFIGURATION, AntennaID, SectorID, AWV_ID in *.
  destruct (lookup_lt_is_Some_2 combination (Z.to_nat i)) as [c Hc]; [lia |].
  by rewrite (bind_eq _ _ _ _ _ (at_Done combination i c w1 ltac:(lia) Hc)).
Qed.

(** The loops over the SNR matrix of a row: the index of the SNR value
    runs through the pairs of antennas, in 8 bits. *)
Lemma snr_loop_returns stream (measurements : MIMO_SNR_LIST) nTx nRx w :
  0 <= nTx <= 255 -> 0 <= nRx <= 255 -> nRx * nTx <= 255 ->
  (0 < nTx -> nRx <= Z.of_nat (length measurements)) ->
  Forall (fun m : Z * list double => nRx * nTx <= Z.of_nat (length m.2)) measurements ->
  exists snrIndex,
    (for_uint8_t 0 (fun i => i <? nTx) (fun i snrIndex =>
       for_uint8_t 0 (fun j => j <? nRx) (fun j snrIndex =>
         m <- at_ measurements j ;;
         snr <- at_ m.2 snrIndex ;;
         write stream [Db snr; Lit ","] ;;
         ret (uint8_t (snrIndex + 1))) snrIndex) 0 w).2 = Done snrIndex.
Proof.
  intros HT HR HP Hlen Hall.
  match goal with |- exists _, (for_uint8_t 0 _ ?body 0 w).2 = _ =>
    destruct (for_uint8_t_lt_invariant (fun i s => s = i * nRx) body nTx 0 w HT)
      as (s & Hdone & _)
  end; [| done | by exists s].
  intros i s w1 Hi ->.
  match goal with |- exists _, (for_uint8_t 0 _ ?body _ w1).2 = _ /\ _ =>
    destruct (for_uint8_t_lt_invariant (fun j s => s = i * nRx + j) body nRx
                (i * nRx) w1 HR) as (s & Hdone & Hs)
  end; [| lia | exists s; split; [done | lia]].
  intros j s w2 Hj ->.
  unfold MIMO_SNR_LIST, double in *.
  destruct (lookup_lt_is_Some_2 measurements (Z.to_nat j)) as [m Hm]; [lia |].
  rewrite (bind_eq _ _ _ _ _ (at_Done measurements j m w2 ltac:(lia) Hm)).
  rewrite Forall_forall in Hall.
  pose proof (Hall m ltac:(by eapply list_elem_of_lookup_2)) as Hmlen.
  assert (i * nRx + j < nRx * nTx) as Hidx by nia.
  destruct (lookup_lt_is_Some_2 m.2 (Z.to_nat (i * nRx + j))) as [snr Hsnr]; [lia |].
  rewrite (bind_eq _ _ _ _ _ (at_Done m.2 (i * nRx + j) snr w2 ltac:(lia) Hsnr)).
  rewrite bind_write. eexists. split; [reflexivity |].
  rewrite uint8_t_small by lia. lia.
Qed.

Lemma mimo_row_cells_returns sim parameters from mm nTx nRx rct stream awvId w :
  0 <= nTx <= 255 -> 0 <= nRx <= 255 -> nRx * nTx <= 255 ->
  nTx <= Z.of_nat (length (GetMimoConfigFromTxAwvId (dstWifiMac parameters) awvId.1
                             (GetAddress (srcWifiMac parameters)))) ->
  nRx <= Z.of_nat (length (GetMimoConfigFromRxAwvId (srcWifiMac parameters) awvId.2
                             from)) ->
  (0 < nTx -> nRx <= Z.of_nat (length awvId.2)) ->
  Forall (fun rxId : Z * Z =>
            let index := (uint16_t awvId.1 - 1) * rct + rxId.2 - 1 in
            0 <= index
            /\ exists m, mm !! Z.to_nat index = Some m
                         /\ nRx * nTx <= Z.of_nat (length m.2)) awvId.2 ->
  (mimo_row_cells sim parameters from mm nTx nRx rct stream awvId w).2 = Done tt.
Proof.
  intros HT HR HP HlenT HlenR Hids Hall. unfold mimo_row_cells. cbv zeta.
  destruct (gather_measurements mm (uint16_t awvId.1) rct (nRx * nTx) awvId.2 Hall [] w)
    as (ms & Hms & Hlen & Hmsall).
  rewrite (bind_eq _ _ _ _ _ Hms). cbn [app]. rewrite bind_write.
  match goal with |- (bind ?c _ ?w1).2 = _ =>
    rewrite (bind_snd_Done c _ w1 tt) by (by apply config_loop_returns)
  end.
  match goal with |- (bind ?c _ ?w1).2 = _ =>
    rewrite (bind_snd_Done c _ w1 tt) by (by apply config_loop_returns)
  end.
  match goal with |- (bind ?c _ ?w1).2 = _ =>
    destruct (snr_loop_returns stream ms nTx nRx w1 HT HR HP) as [s Hs];
      [by rewrite Hlen | done |];
    by rewrite (bind_snd_Done c _ w1 s)
  end.
Qed.

Lemma mimo_row_returns sim parameters from mm nTx nRx rct stream x l w :
  (mimo_row_cells sim parameters from mm nTx nRx rct stream (extract_max x l).1.2 w).2
  = Done tt ->
  (mimo_row sim parameters from mm nTx nRx rct stream (x :: l) w).2
  = Done (extract_max x l).2.
Proof.
  intros Hcells. unfold mimo_row.
  change (pq_top (x :: l)) with (@ret SNR_MEASUREMENT_AWV_IDs (extract_max x l).1).
  change (bind (ret ?a) ?k w) with (k a w). cbv beta.
  by rewrite (bind_snd_Done _ _ _ tt Hcells).
Qed.

Lemma mimo_rows_return sim parameters from mm nTx nRx rct stream fuel :
  0 <= nTx <= 255 -> 0 <= nRx <= 255 -> nRx * nTx <= 255 ->
  forall q w,
    (length q < fuel)%nat ->
    Forall (fun e : SNR_MEASUREMENT_AWV_IDs =>
       nTx <= Z.of_nat (length (GetMimoConfigFromTxAwvId (dstWifiMac parameters) e.2.1
                                  (GetAddress (srcWifiMac parameters))))
       /\ nRx <= Z.of_nat (length (GetMimoConfigFromRxAwvId (srcWifiMac parameters)
                                     e.2.2 from))
       /\ (0 < nTx -> nRx <= Z.of_nat (length e.2.2))
       /\ Forall (fun rxId : Z * Z =>
            let index := (uint16_t e.2.1 - 1) * rct + rxId.2 - 1 in
            0 <= index
            /\ exists m, mm !! Z.to_nat index = Some m
                         /\ nRx * nTx <= Z.of_nat (length m.2))
            e.2.2) q ->
    (while_not_empty fuel q (mimo_row sim parameters from mm nTx nRx rct stream) w).2
    = Done tt.
Proof.
  intros HT HR HP. induction fuel as [|fuel IH]; intros q w Hq Hok; [lia |].
  destruct q as [|x l]; [done |]. cbn [while_not_empty pq_empty].
  pose proof (extract_max_perm x l) as Hperm.
  rewrite <- Hperm in Hok. apply Forall_cons in Hok as [(H1 & H2 & H3 & H4) Hrest].
  rewrite (bind_snd_Done _ _ _ (extract_max x l).2).
  - apply IH; [| done]. rewrite extract_max_length. cbn in Hq. lia.
  - apply mimo_row_returns. by apply mimo_row_cells_returns.
Qed.

(** X13: The MIMO measurements callback returns when its arguments fit
    together: with counts of antennas below 255 whose product is at most
    255, and, for every element of the queue, configurations, Rx
    identifiers and measurements that cover the antennas. *)
Theorem SuMimoMimoPhaseMeasurements_returns sim parameters from mm minSnr d nTx nRx
    rct w :
  mimo_measurements_ok parameters from mm minSnr nTx nRx rct ->
  (SuMimoMimoPhaseMeasurements sim parameters from mm minSnr d nTx nRx rct w).2
  = Done tt.
Proof.
  intros (HT & HR & HP & Hok).
  unfold SuMimoMimoPhaseMeasurements. do 3 mstep. cbn [options files set_cout].
  match goal with |- (bind ?c _ ?w0).2 = _ =>
    rewrite (bind_snd_Done c _ w0 tt)
  end.
  - rewrite bind_write. apply mimo_rows_return; try done; lia.
  - rewrite mimo_header_cells_outcome by lia.
    destruct (Z.eqb_spec nTx 255), (Z.eqb_spec nRx 255),
      (Z.leb_spec 256 (nRx * nTx)); try done; lia.
Qed.

Lemma SuMimoMimoPhaseMeasurements_returns_witness :
  (SuMimoMimoPhaseMeasurements (ex_sim 900000000) ex_mimo_sta 1 ex_measurements
     ex_queue false 2 2 2 (initial_world (ex_options false))).2
  = Done tt.
Proof.
  apply SuMimoMimoPhaseMeasurements_returns.
  unfold mimo_measurements_ok.
  split; [lia |]. split; [lia |]. split; [lia |]. unfold ex_queue.
  repeat match goal with
    | |- Forall _ [] => apply Forall_nil
    | |- Forall _ (_ :: _) => apply Forall_cons; split
    | |- exists _, _ => eexists; split; [reflexivity | cbn; lia]
    | |- _ /\ _ => split
    | |- _ < _ -> _ => intros _
    | |- _ <= _ => first [cbn; lia | vm_compute; discriminate]
    | |- True => exact I
    | |- _ => progress cbn
    end.
Defined.

(** ** The initial sector sweep *)

Lemma run_txss evs : forall w,
  (run evs w).2 = Done tt ->
  txss_requests (run evs w).1
  = txss_requests w
    ++ (if firstDti w then option_list (head (omap dti_txss evs)) else [])
  /\ firstDti (run evs w).1
     = firstDti w && match omap dti_txss evs with [] => true | _ => false end.
Proof.
  induction evs as [|[sim e] evs IH]; intros w Hdone.
  - cbn. rewrite andb_true_r. by destruct (firstDti w); rewrite app_nil_r.
  - cbn [run] in *. apply bind_Done_inv in Hdone as ([] & Hd & Hrest).
    rewrite (bind_snd_Done _ _ _ _ Hd). destruct (IH _ Hrest) as [-> ->].
    pose proof (dispatch_sequencer sim e w) as Hs.
    pose proof (f_equal seq_txss Hs) as Htxss.
    pose proof (f_equal seq_firstDti Hs) as Hfirst.
    cbn [sequencer seq_txss seq_firstDti] in Htxss, Hfirst.
    rewrite Htxss, Hfirst. clear Hs Htxss Hfirst Hd Hrest IH.
    destruct e as [| | | | | | | | | | | | |mac address dtiDuration];
      cbn [sequencer_step seq_txss seq_firstDti omap dti_txss snd]; try done.
    cbn. destruct (IsAssociated mac), (firstDti w); cbn;
      rewrite ?app_nil_r; try done.
Qed.

(** X14: The initial sector sweep is requested at the first DTI start that finds
    the station associated, for the address and the BSSID read from the MAC
    at that moment, and at no other; [firstDti] holds after a run exactly if
    no DTI start found the station associated. *)
Theorem first_dti_txss opts arrayConfig activateApp evs :
  let after := run evs (boot opts arrayConfig activateApp) in
  after.2 = Done tt ->
  txss_requests after.1 = option_list (head (omap dti_txss evs))
  /\ firstDti after.1 = match omap dti_txss evs with [] => true | _ => false end.
Proof.
  cbv zeta. intros Hdone. destruct (run_txss _ _ Hdone) as [-> ->].
  pose proof (boot_sequencer opts arrayConfig activateApp) as Hs.
  pose proof (f_equal seq_txss Hs) as Htxss.
  pose proof (f_equal seq_firstDti Hs) as Hfirst.
  cbn [sequencer seq_txss seq_firstDti] in Htxss, Hfirst.
  by rewrite Htxss, Hfirst.
Qed.

Lemma first_dti_txss_witness :
  txss_requests
    (run [(ex_sim 100000000,
           OnDataTransmissionIntervalStarted (ex_mac 2 1 false) 1 100000000);
          ex_dti 200000000; ex_dti 300000000]
       (boot (ex_options false) "cfg" true)).1
  = [Perform_TXSS_TXOP 2 1]
  /\ firstDti
       (run [(ex_sim 100000000,
              OnDataTransmissionIntervalStarted (ex_mac 2 1 false) 1 100000000);
             ex_dti 200000000; ex_dti 300000000]
          (boot (ex_options false) "cfg" true)).1
     = false.
Proof.
  apply (first_dti_txss (ex_options false) "cfg" true
           [(ex_sim 100000000,
             OnDataTransmissionIntervalStarted (ex_mac 2 1 false) 1 100000000);
            ex_dti 200000000; ex_dti 300000000]).
  vm_compute. reflexivity.
Defined.

(** ** The console in CSV mode *)

Lemma print_then {B} ts (k : unit -> M B) w :
  preserves cout (k tt) -> cout ((print ts ;; k tt) w).1 = cout w ++ ts.
Proof. intros Hk. rewrite bind_print. by rewrite Hk. Qed.

Lemma dispatch_csv_console sim e w :
  csv (options w) = true -> beamformedLinks w = 0 ->
  cout (dispatch sim e w).1 = cout w ++ csv_console (sim, e).
Proof.
  intros Hcsv Hlinks.
  destruct e as [| |? macType ? ?| | | | | | | | | | |mac address dtiDuration];
    cbn [dispatch csv_console fst snd]; rewrite ?app_nil_r; try reflexivity.
  - unfold CalculateThroughput. cbv [bind ret when print call modify write read].
    cbn [options set_statistics fst snd]. by rewrite Hcsv.
  - unfold SLSCompleted. cbv [bind ret when print call modify write read].
    cbn [options emit set_files fst snd]. by rewrite Hcsv.
  - by destruct macType.
  - unfold StationAssoicated. cbv [bind ret when print call modify write read].
    by rewrite Hcsv.
  - apply (print_then _ (fun _ => _)). unfold siso_measurement_rows. keeps_tac.
  - apply (print_then _ (fun _ => _)). unfold siso_feedback_rows. keeps_tac.
  - apply (print_then _ (fun _ => _)). unfold candidates_table. keeps_tac.
  - apply (print_then _ (fun _ => _)).
    unfold mimo_header_cells, mimo_row, mimo_row_cells. keeps_tac.
  - unfold DataTransmissionIntervalStarted.
    cbv [bind ret when print call modify write read]. cbn [fst snd].
    destruct (IsAssociated mac && firstDti w); cbn [fst snd beamformedLinks
      set_firstDti set_calls suMimoCompleted cout]; by rewrite Hlinks.
Qed.

Lemma run_csv_console evs : forall w,
  csv (options w) = true -> beamformedLinks w = 0 ->
  (run evs w).2 = Done tt ->
  cout (run evs w).1 = cout w ++ concat (map csv_console evs).
Proof.
  induction evs as [|[sim e] evs IH]; intros w Hcsv Hlinks Hdone.
  - cbn. by rewrite app_nil_r.
  - cbn [run map concat] in *. apply bind_Done_inv in Hdone as ([] & Hd & Hrest).
    rewrite (bind_snd_Done _ _ _ _ Hd).
    pose proof (dispatch_sequencer sim e w) as Hs.
    pose proof (f_equal seq_options Hs) as Hopts.
    pose proof (f_equal seq_links Hs) as Hl.
    cbn [sequencer seq_options seq_links] in Hopts, Hl.
    assert (options (dispatch sim e w).1 = options w) as Ho
      by (rewrite Hopts; by destruct e).
    assert (beamformedLinks (dispatch sim e w).1 = 0) as Hl0.
    { rewrite Hl.
      destruct e; cbn [sequencer_step seq_links seq_options sequencer]; try done.
      by rewrite Hcsv. }
    rewrite IH, dispatch_csv_console, app_assoc; [done | done | done | | done | done].
    by rewrite Ho.
Qed.

(** X15: With CSV output on, the console holds after a run one line
    [time,throughput] for each throughput sample and the message with which
    each SU-MIMO callback begins, in the order of the callbacks, and nothing
    else: sector sweeps, associations, received or dropped frames and DTI
    starts print nothing, and [main] prints no heading. *)
Theorem csv_console_only opts arrayConfig activateApp evs :
  csv opts = true ->
  (run evs (boot opts arrayConfig activateApp)).2 = Done tt ->
  cout (run evs (boot opts arrayConfig activateApp)).1 = concat (map csv_console evs).
Proof.
  intros Hcsv Hdone.
  pose proof (boot_sequencer opts arrayConfig activateApp) as Hs.
  pose proof (f_equal seq_options Hs) as Hopts.
  pose proof (f_equal seq_links Hs) as Hl.
  cbn [sequencer seq_options seq_links] in Hopts, Hl.
  rewrite run_csv_console; [| by rewrite Hopts | done | done].
  assert (cout (boot opts arrayConfig activateApp) = []) as ->; [| done].
  unfold boot, connect_traces. do 4 mstep.
  destruct activateApp; [| reflexivity]. cbn [when]. mstep.
  cbn [options set_files emit initial_world]. rewrite Hcsv. reflexivity.
Qed.

Lemma csv_console_only_witness :
  cout
    (run ((ex_sim 100000000, OnCalculateThroughput "throughput_SU_MIMO.csv"
                               ((5 # 2)%Q, 0, 0%Q))
          :: ex_two_sweeps ++ [ex_dti 700000000])
       (boot (ex_options true) "cfg" true)).1
  = [Prec1 100000000 false; Lit ","; Dbl (5 # 2)%Q; Endl].
Proof.
  apply (csv_console_only (ex_options true) "cfg" true
           ((ex_sim 100000000, OnCalculateThroughput "throughput_SU_MIMO.csv"
                                 ((5 # 2)%Q, 0, 0%Q))
            :: ex_two_sweeps ++ [ex_dti 700000000])).
  - reflexivity.
  - vm_compute. reflexivity.
Defined.

(** ** The files of a session *)














